(** * io-homecontrol protocol engine: frame codec, crypto helpers, 2W managers

A shallow embedding of [src/protocol/iohome_crypto.cpp],
[src/protocol/iohome_frame.cpp], [src/protocol/iohome_2w.cpp], of the
receive and send paths of [src/IoHomeControl.cpp] and of the frame and
model helpers of [src/velux/iohome_velux.cpp], followed by the properties
of the protocol description that were checked against them and by
further properties that the code shows.

Conventions.
- A [uint8_t], [uint16_t] or [unsigned long] value is a [Z]; where the C
    code can leave the range, the wrap-around is written out with [u8],
    [u16] and [ulong].  [unsigned long] is the 32-bit type of the ESP32
    target.
- A C array is a [list Z]; [memcpy] of [n] bytes is [take n].
- A pointer argument that the code tests against, or may receive as,
    [nullptr] is a [ptr]; reading through a null pointer, or past the end
    of a buffer, is the outcome [Fault] of the [exec] monad.
- mbedTLS (AES-128-ECB), the radio, the clock and the random source are
    not part of the repository: AES is the class [AesBackend], the others
    are arguments of the operations that consult them. *)

From Stdlib Require Import ZArith List Lia Bool.
From stdpp Require Import base list.
Import ListNotations.
Local Open Scope Z_scope.

(** ** Machine-level conventions *)

Definition u8 (x : Z) : Z := x mod 256.
Definition u16 (x : Z) : Z := x mod 65536.
Definition ulong (x : Z) : Z := x mod 2 ^ 32.

(** a value that a [uint8_t] can hold *)
Definition is_byte (b : Z) : Prop := 0 <= b < 256.

Inductive exec (A : Type) : Type :=
| Val (a : A)
| Fault.
Arguments Val {A} a.
Arguments Fault {A}.

#[global] Instance exec_ret : MRet exec := fun A a => Val a.
#[global] Instance exec_bind : MBind exec :=
  fun A B f m => match m with Val a => f a | Fault => Fault end.

(** [None] is [nullptr]. *)
Definition ptr (A : Type) : Type := option A.

Definition deref {A} (p : ptr A) : exec A :=
  match p with Some a => Val a | None => Fault end.

(** [buf[i]] *)
Definition load (buf : list Z) (i : nat) : exec Z :=
  match buf !! i with Some b => Val b | None => Fault end.

(** the [n] bytes [buf[off] .. buf[off+n-1]], as [memcpy] reads them *)
Definition load_range (buf : list Z) (off n : nat) : exec (list Z) :=
  if decide (off + n <= length buf)%nat then Val (take n (drop off buf)) else Fault.

(** [memcpy(dst, src, n)] for [src] holding at least [n] bytes *)
Definition memcpy (dst src : list Z) (n : nat) : list Z :=
  take n src ++ drop n dst.

(** [memcmp(a, b, n) == 0] *)
Definition memcmp_eq (a b : list Z) (n : nat) : bool :=
  bool_decide (take n a = take n b).

(** ** iohome_constants.h *)

Definition FRAME_MIN_SIZE : Z := 11.
Definition FRAME_MAX_SIZE : Z := 32.
Definition FRAME_MAX_DATA_SIZE : Z := 21.
Definition NODE_ID_SIZE : Z := 3.
Definition ROLLING_CODE_SIZE : Z := 2.
Definition HMAC_SIZE : Z := 6.
Definition CRC_SIZE : Z := 2.
Definition CTRL0_PROTOCOL_MASK : Z := 0x20.
Definition CTRL0_LENGTH_MASK : Z := 0x1F.
Definition CTRL1_USE_BEACON : Z := 0x80.
Definition AES_KEY_SIZE : Z := 16.
Definition TRANSFER_KEY : list Z :=
  [0x34; 0xC3; 0x46; 0x6E; 0xD8; 0x8F; 0x4E; 0x8E;
   0x16; 0xAA; 0x47; 0x39; 0x49; 0x88; 0x43; 0x73].
Definition IV_PADDING : Z := 0x55.
Definition CRC_POLYNOMIAL : Z := 0x8408.
Definition CRC_INITIAL : Z := 0x0000.
Definition CMD_DISCOVER_ACTUATOR : Z := 0x28.
Definition CMD_DISCOVER_SENSOR : Z := 0x29.
Definition CMD_DISCOVER_BEACON : Z := 0x2A.
Definition CMD_DISCOVER_CONTROLLER : Z := 0x2B.
Definition CMD_KEY_TRANSFER_1W : Z := 0x30.
Definition CMD_KEY_TRANSFER_2W : Z := 0x31.
Definition CMD_CHALLENGE_REQUEST : Z := 0x3C.
Definition CMD_CHALLENGE_RESPONSE : Z := 0x3D.
Definition CMD_SET_POSITION : Z := 0x60.
Definition CMD_STOP : Z := 0x61.
Definition BROADCAST_ADDRESS : list Z := [0x00; 0x00; 0x00].
Definition ROLLER_SHUTTER : Z := 0x00.
Definition MAX_DISCOVERED_DEVICES : nat := 32.

(** ** The AES backend (mbedTLS)

[mbedtls_aes_setkey_enc] followed by [mbedtls_aes_crypt_ecb] on one
16-byte block; [None] when either call reports an error. *)

Class AesBackend : Type :=
  mbedtls_aes_ecb_encrypt : list Z -> list Z -> option (list Z).

(** ** iohome_crypto.cpp *)

Module crypto.

(** the [for (int i = 0; i < 8; i++)] loop of [compute_crc16_byte] *)
Fixpoint crc16_shift (n : nat) (crc : Z) : Z :=
  match n with
  | O => crc
  | S k =>
      let remainder := if Z.land crc 1 =? 0 then 0 else CRC_POLYNOMIAL in
      crc16_shift k (Z.lxor (Z.shiftr crc 1) remainder)
  end.

Definition compute_crc16_byte (data crc : Z) : Z :=
  crc16_shift 8 (Z.lxor crc data).

Definition compute_crc16 (data : list Z) (crc : Z) : Z :=
  fold_left (fun c b => compute_crc16_byte b c) data crc.

(** the two CRC bytes as the code stores them, [crc[0] = v & 0xFF] first *)
Definition crc_bytes (crc_value : Z) : list Z :=
  [Z.land crc_value 0xFF; Z.land (Z.shiftr crc_value 8) 0xFF].

Definition verify_crc16 (frame : list Z) : bool :=
  let length := length frame in
  if (length <? 2)%nat then false
  else
    let calculated_crc := compute_crc16 (take (length - 2) frame) CRC_INITIAL in
    let received_crc :=
      u16 (Z.lor (nth (length - 2) frame 0)
                 (Z.shiftl (nth (length - 1) frame 0) 8)) in
    calculated_crc =? received_crc.

(** [compute_checksum]: the two accumulators are returned *)
Definition compute_checksum (frame_byte chksum1 chksum2 : Z) : Z * Z :=
  let tmpchksum := Z.lxor frame_byte chksum2 in
  let chksum2 := Z.land (Z.shiftl (Z.land chksum1 0x7F) 1) 0xFF in
  if Z.land chksum1 0x80 =? 0 then
    let chksum2 := if 128 <=? tmpchksum then Z.lor chksum2 1 else chksum2 in
    let chksum1 := chksum2 in
    let chksum2 := Z.land (Z.shiftl tmpchksum 1) 0xFF in
    (chksum1, chksum2)
  else
    let chksum2 := if 128 <=? tmpchksum then Z.lor chksum2 1 else chksum2 in
    let chksum1 := Z.lxor chksum2 0x55 in
    let chksum2 := Z.land (Z.lxor (Z.shiftl tmpchksum 1) 0x5B) 0xFF in
    (chksum1, chksum2).

(** The part that [construct_iv_1w] and [construct_iv_2w] repeat:
    [memset], the checksum loop that also copies the first 8 bytes, the
    0x55 padding of bytes [data_len..7], and bytes 8 and 9. *)
Definition iv_process (frame_data : list Z) : list Z * Z * Z :=
  fold_left
    (fun '(iv, chksum1, chksum2) '(i, b) =>
       let '(c1, c2) := compute_checksum b chksum1 chksum2 in
       (if decide (i < 8)%nat then <[i := b]> iv else iv, c1, c2))
    (imap pair frame_data)
    (replicate 16 0, 0, 0).

Definition iv_pad (data_len : nat) (iv : list Z) : list Z :=
  fold_left (fun iv i => <[i := IV_PADDING]> iv) (seq data_len (8 - data_len)) iv.

Definition iv_head (frame_data : list Z) : list Z :=
  let '(iv, chksum1, chksum2) := iv_process frame_data in
  let iv := iv_pad (length frame_data) iv in
  <[9%nat := chksum2]> (<[8%nat := chksum1]> iv).

(** the two accumulators after that checksum loop *)
Definition iv_checksums (frame_data : list Z) : Z * Z :=
  fold_left (fun '(chksum1, chksum2) b => compute_checksum b chksum1 chksum2)
            frame_data (0, 0).

Definition construct_iv_1w (frame_data : list Z) (sequence_number : ptr (list Z))
  : exec (list Z) :=
  let iv := iv_head frame_data in
  sn ← deref sequence_number;
  s0 ← load sn 0;
  s1 ← load sn 1;
  let iv := <[11%nat := s1]> (<[10%nat := s0]> iv) in
  Val (fold_left (fun iv i => <[i := IV_PADDING]> iv) (seq 12 4) iv).

Definition construct_iv_2w (frame_data : list Z) (challenge : ptr (list Z))
  : exec (list Z) :=
  let iv := iv_head frame_data in
  ch ← deref challenge;
  c ← load_range ch 0 (Z.to_nat HMAC_SIZE);
  Val (take 10 iv ++ c).

Section WithAes.
Context `{AesBackend}.

Definition aes128_encrypt (input key : list Z) : option (list Z) :=
  mbedtls_aes_ecb_encrypt key input.

(** the XOR loop shared by [encrypt_1w_key] and [encrypt_2w_key] *)
Definition xor_key (system_key encrypted_iv : list Z) : list Z :=
  map (fun i => Z.lxor (nth i system_key 0) (nth i encrypted_iv 0))
      (seq 0 (Z.to_nat AES_KEY_SIZE)).

Definition key_iv_1w (node_address : list Z) : list Z :=
  map (fun i => nth (i mod Z.to_nat NODE_ID_SIZE) node_address 0) (seq 0 16).

Definition encrypt_1w_key (system_key node_address : list Z) : option (list Z) :=
  let iv := key_iv_1w node_address in
  match aes128_encrypt iv TRANSFER_KEY with
  | None => None
  | Some encrypted_iv => Some (xor_key system_key encrypted_iv)
  end.

Definition encrypt_2w_key (system_key challenge : list Z) : option (list Z) :=
  let iv := take 10 (replicate 16 IV_PADDING) ++ take (Z.to_nat HMAC_SIZE) challenge in
  match aes128_encrypt iv TRANSFER_KEY with
  | None => None
  | Some encrypted_iv => Some (xor_key system_key encrypted_iv)
  end.

Definition create_1w_hmac (frame_data : list Z) (sequence_number : ptr (list Z))
    (system_key : list Z) : exec (option (list Z)) :=
  iv ← construct_iv_1w frame_data sequence_number;
  match aes128_encrypt iv system_key with
  | None => Val None
  | Some encrypted_iv => Val (Some (take (Z.to_nat HMAC_SIZE) encrypted_iv))
  end.

Definition create_2w_hmac (frame_data : list Z) (challenge : ptr (list Z))
    (system_key : list Z) : exec (option (list Z)) :=
  iv ← construct_iv_2w frame_data challenge;
  match aes128_encrypt iv system_key with
  | None => Val None
  | Some encrypted_iv => Val (Some (take (Z.to_nat HMAC_SIZE) encrypted_iv))
  end.

Definition verify_hmac (frame_data received_hmac : list Z)
    (sequence_or_challenge : ptr (list Z)) (system_key : list Z) (is_2w : bool)
  : exec bool :=
  r ← (if is_2w
       then create_2w_hmac frame_data sequence_or_challenge system_key
       else create_1w_hmac frame_data sequence_or_challenge system_key);
  match r with
  | None => Val false
  | Some calculated_hmac =>
      let diff :=
        fold_left
          (fun diff i =>
             Z.lor diff (Z.lxor (nth i calculated_hmac 0) (nth i received_hmac 0)))
          (seq 0 (Z.to_nat HMAC_SIZE)) 0 in
      Val (diff =? 0)
  end.
End WithAes.

End crypto.

(** ** iohome_frame.h / iohome_frame.cpp *)

Module frame.

Record IoFrame : Type := mkIoFrame {
  ctrl_byte_0 : Z;
  ctrl_byte_1 : Z;
  dest_node : list Z;        (* uint8_t[NODE_ID_SIZE] *)
  src_node : list Z;         (* uint8_t[NODE_ID_SIZE] *)
  command_id : Z;
  data : list Z;             (* uint8_t[FRAME_MAX_DATA_SIZE] *)
  data_len : Z;              (* uint8_t *)
  rolling_code : list Z;     (* uint8_t[ROLLING_CODE_SIZE] *)
  hmac : list Z;             (* uint8_t[HMAC_SIZE] *)
  crc : list Z;              (* uint8_t[CRC_SIZE] *)
  is_1w_mode : bool;
  frame_length : Z           (* uint8_t *)
}.

Definition set_dest_node (v : list Z) (f : IoFrame) : IoFrame :=
  mkIoFrame (ctrl_byte_0 f) (ctrl_byte_1 f) v (src_node f) (command_id f) (data f)
            (data_len f) (rolling_code f) (hmac f) (crc f) (is_1w_mode f)
            (frame_length f).
Definition set_src_node (v : list Z) (f : IoFrame) : IoFrame :=
  mkIoFrame (ctrl_byte_0 f) (ctrl_byte_1 f) (dest_node f) v (command_id f) (data f)
            (data_len f) (rolling_code f) (hmac f) (crc f) (is_1w_mode f)
            (frame_length f).
Definition set_payload (cmd : Z) (d : list Z) (n len c0 : Z) (f : IoFrame) : IoFrame :=
  mkIoFrame c0 (ctrl_byte_1 f) (dest_node f) (src_node f) cmd d
            n (rolling_code f) (hmac f) (crc f) (is_1w_mode f) len.
Definition set_rolling_code_field (v : list Z) (f : IoFrame) : IoFrame :=
  mkIoFrame (ctrl_byte_0 f) (ctrl_byte_1 f) (dest_node f) (src_node f) (command_id f)
            (data f) (data_len f) v (hmac f) (crc f) (is_1w_mode f) (frame_length f).
Definition set_hmac (v : list Z) (f : IoFrame) : IoFrame :=
  mkIoFrame (ctrl_byte_0 f) (ctrl_byte_1 f) (dest_node f) (src_node f) (command_id f)
            (data f) (data_len f) (rolling_code f) v (crc f) (is_1w_mode f)
            (frame_length f).
Definition set_crc (v : list Z) (f : IoFrame) : IoFrame :=
  mkIoFrame (ctrl_byte_0 f) (ctrl_byte_1 f) (dest_node f) (src_node f) (command_id f)
            (data f) (data_len f) (rolling_code f) (hmac f) v (is_1w_mode f)
            (frame_length f).

(** *** Helpers of the header *)

Definition is_2w_mode (ctrl_byte_0 : Z) : bool :=
  negb (Z.land ctrl_byte_0 CTRL0_PROTOCOL_MASK =? 0).

Definition get_frame_length (ctrl_byte_0 : Z) : Z :=
  u8 (Z.land ctrl_byte_0 CTRL0_LENGTH_MASK + FRAME_MIN_SIZE).

Definition is_broadcast (node_id : list Z) : bool :=
  (nth 0 node_id 0 =? 0) && (nth 1 node_id 0 =? 0) && (nth 2 node_id 0 =? 0).

(** *** Frame construction *)

Definition init_frame (is_1w : bool) : IoFrame :=
  let ctrl_byte_0 := 0x00 in
  {| ctrl_byte_0 :=
       if negb is_1w then Z.lor ctrl_byte_0 CTRL0_PROTOCOL_MASK else ctrl_byte_0;
     ctrl_byte_1 := 0x00;
     dest_node := replicate 3 0;
     src_node := replicate 3 0;
     command_id := 0;
     data := replicate 21 0;
     data_len := 0;
     rolling_code := replicate 2 0;
     hmac := replicate 6 0;
     crc := replicate 2 0;
     is_1w_mode := is_1w;
     frame_length := 0 |}.

Definition set_destination (f : IoFrame) (node_id : list Z) : IoFrame :=
  set_dest_node (memcpy (dest_node f) node_id (Z.to_nat NODE_ID_SIZE)) f.

Definition set_source (f : IoFrame) (node_id : list Z) : IoFrame :=
  set_src_node (memcpy (src_node f) node_id (Z.to_nat NODE_ID_SIZE)) f.

(** the fixed part of the length that [set_command] and [parse_frame]
    both write as [9 + 1 + ... + HMAC_SIZE + CRC_SIZE] *)
Definition length_overhead (is_1w : bool) : Z :=
  if is_1w then 9 + 1 + ROLLING_CODE_SIZE + HMAC_SIZE + CRC_SIZE
  else 9 + 1 + HMAC_SIZE + CRC_SIZE.

Definition set_command (f : IoFrame) (cmd_id : Z) (params : ptr (list Z))
    (params_len : Z) : bool * IoFrame :=
  if FRAME_MAX_DATA_SIZE <? params_len then (false, f)
  else
    let data_len := u8 params_len in
    let data :=
      match params with
      | Some p => if 0 <? params_len then memcpy (data f) p (Z.to_nat params_len)
                  else data f
      | None => data f
      end in
    let total_length := u8 (data_len + length_overhead (is_1w_mode f)) in
    let ctrl_byte_0 :=
      u8 (Z.lor (Z.land (ctrl_byte_0 f) (Z.lnot CTRL0_LENGTH_MASK))
                (Z.land (total_length - FRAME_MIN_SIZE) CTRL0_LENGTH_MASK)) in
    (true, set_payload cmd_id data data_len total_length ctrl_byte_0 f).

Definition set_rolling_code (f : IoFrame) (code : Z) : IoFrame :=
  set_rolling_code_field [Z.land code 0xFF; Z.land (Z.shiftr code 8) 0xFF] f.

(** [frame_data]: the command byte followed by [data_len] bytes of
    [frame->data]; reading more than the array holds is a [Fault]. *)
Definition frame_data_of (f : IoFrame) : exec (list Z) :=
  d ← load_range (data f) 0 (Z.to_nat (data_len f));
  Val (command_id f :: d).

(** The bytes written to [buffer], in order; their number is the value
    returned.  [None] is the return value 0. *)
Definition serialize_frame (f : IoFrame) (buffer_size : Z) : exec (option (list Z)) :=
  if buffer_size <? frame_length f then Val None
  else
    d ← load_range (data f) 0 (Z.to_nat (data_len f));
    let buffer :=
      [ctrl_byte_0 f; ctrl_byte_1 f]
        ++ take 3 (dest_node f)
        ++ take 3 (src_node f)
        ++ [command_id f]
        ++ d
        ++ (if is_1w_mode f then take 2 (rolling_code f) else [])
        ++ take 6 (hmac f)
        ++ take 2 (crc f) in
    if decide (buffer_size < Z.of_nat (length buffer)) then Fault
    else Val (Some buffer).

Section WithAes.
Context `{AesBackend}.

Definition finalize_frame (f : IoFrame) (system_key : list Z)
    (challenge : ptr (list Z)) : exec (bool * IoFrame) :=
  frame_data ← frame_data_of f;
  (* [None]: return false, either for the null challenge or for a failed AES *)
  r ← (if is_1w_mode f
       then crypto.create_1w_hmac frame_data (Some (rolling_code f)) system_key
       else match challenge with
            | None => Val None
            | Some _ => crypto.create_2w_hmac frame_data challenge system_key
            end);
  match r with
  | None => Val (false, f)
  | Some h =>
      let f := set_hmac (memcpy (hmac f) h (Z.to_nat HMAC_SIZE)) f in
      s ← serialize_frame f FRAME_MAX_SIZE;
      match s with
      | None => Val (false, f)
      | Some temp_buffer =>
          let crc_len := length temp_buffer in
          let crc_value :=
            crypto.compute_crc16
              (take (crc_len - Z.to_nat CRC_SIZE) temp_buffer) CRC_INITIAL in
          Val (true, set_crc (crypto.crc_bytes crc_value) f)
      end
  end.

Definition validate_frame (f : IoFrame) (system_key challenge : ptr (list Z))
  : exec bool :=
  s ← serialize_frame f FRAME_MAX_SIZE;
  match s with
  | None => Val false
  | Some temp_buffer =>
      if negb (crypto.verify_crc16 temp_buffer) then Val false
      else
        match system_key with
        | None => Val true
        | Some key =>
            frame_data ← frame_data_of f;
            let seq_or_challenge :=
              if is_1w_mode f then Some (rolling_code f) else challenge in
            crypto.verify_hmac frame_data (hmac f) seq_or_challenge key
                               (negb (is_1w_mode f))
        end
  end.
End WithAes.

(** *** Frame parsing

[buffer] holds exactly the [buffer_len] bytes the caller vouches for.
[None] is the return value [false] (the partly written out-parameter
is not modelled). *)
Definition parse_frame (buffer : list Z) : exec (option IoFrame) :=
  let buffer_len := Z.of_nat (length buffer) in
  if buffer_len <? FRAME_MIN_SIZE then Val None
  else
    ctrl0 ← load buffer 0;
    ctrl1 ← load buffer 1;
    let is_1w := negb (is_2w_mode ctrl0) in
    let frame_length := get_frame_length ctrl0 in
    if buffer_len <? frame_length then Val None
    else
      dest ← load_range buffer 2 3;
      src ← load_range buffer 5 3;
      cmd ← load buffer 8;
      let data_len := u8 (frame_length - length_overhead is_1w) in
      if FRAME_MAX_DATA_SIZE <? data_len then Val None
      else
        d ← load_range buffer 9 (Z.to_nat data_len);
        let offset := (9 + Z.to_nat data_len)%nat in
        rc ← (if is_1w then load_range buffer offset 2 else Val (replicate 2 0));
        let offset := if is_1w then (offset + 2)%nat else offset in
        h ← load_range buffer offset 6;
        c ← load_range buffer (offset + 6) 2;
        Val (Some {| ctrl_byte_0 := ctrl0;
                     ctrl_byte_1 := ctrl1;
                     dest_node := dest;
                     src_node := src;
                     command_id := cmd;
                     data := memcpy (replicate 21 0) d (Z.to_nat data_len);
                     data_len := data_len;
                     rolling_code := rc;
                     hmac := h;
                     crc := c;
                     is_1w_mode := is_1w;
                     frame_length := frame_length |}).

(** the array fields hold as many bytes as their declarations say *)
Definition sized (f : IoFrame) : Prop :=
  length (dest_node f) = 3%nat /\ length (src_node f) = 3%nat
  /\ length (data f) = 21%nat /\ length (rolling_code f) = 2%nat
  /\ length (hmac f) = 6%nat /\ length (crc f) = 2%nat.

(** every field holds values of its C type *)
Definition byte_fields (f : IoFrame) : Prop :=
  is_byte (ctrl_byte_0 f) /\ is_byte (ctrl_byte_1 f)
  /\ Forall is_byte (dest_node f) /\ Forall is_byte (src_node f)
  /\ is_byte (command_id f) /\ Forall is_byte (data f)
  /\ Forall is_byte (rolling_code f) /\ Forall is_byte (hmac f)
  /\ Forall is_byte (crc f).

(** the value of [offset] when [parse_frame] returns [true]: one more than
    the last index it has read *)
Definition parse_offset_end (f : IoFrame) : Z :=
  9 + data_len f + (if is_1w_mode f then ROLLING_CODE_SIZE else 0) + HMAC_SIZE + CRC_SIZE.

End frame.

(** ** iohome_2w.h / iohome_2w.cpp

[GET_TIME_MS()] is the argument [now_ms] of the operations that read the
clock; the six [RANDOM_BYTE()] draws of [generate_challenge] are the
argument [random]. *)

Module mode2w.

Import frame.

(** *** Frequency hopping *)

Inductive ChannelState : Type := CHANNEL_1 | CHANNEL_2 | CHANNEL_3.

Record ChannelHopper : Type := mkChannelHopper {
  current_channel_ : ChannelState;
  last_hop_time_ms_ : Z;       (* unsigned long *)
  hop_interval_us_ : Z;        (* unsigned long *)
  enabled_ : bool
}.

(** the constructor; [begin], which takes the interval as a [float] number of
    milliseconds, and [reset], which only re-reads the clock, are left out *)
Definition ChannelHopper_new : ChannelHopper :=
  {| current_channel_ := CHANNEL_2;
     last_hop_time_ms_ := 0;
     hop_interval_us_ := 2700;
     enabled_ := false |}.

Definition set_enabled (h : ChannelHopper) (enabled : bool) : ChannelHopper :=
  mkChannelHopper (current_channel_ h) (last_hop_time_ms_ h) (hop_interval_us_ h) enabled.

Definition get_current_channel (h : ChannelHopper) : ChannelState := current_channel_ h.

Definition next_channel (h : ChannelHopper) : ChannelHopper :=
  let c := match current_channel_ h with
           | CHANNEL_1 => CHANNEL_2
           | CHANNEL_2 => CHANNEL_3
           | CHANNEL_3 => CHANNEL_1
           end in
  mkChannelHopper c (last_hop_time_ms_ h) (hop_interval_us_ h) (enabled_ h).

(** [elapsed_us] as [update] and [time_until_next_hop_us] compute it *)
Definition elapsed_us (h : ChannelHopper) (current_time_ms : Z) : Z :=
  let current_time_us := ulong (current_time_ms * 1000) in
  let last_hop_time_us := ulong (last_hop_time_ms_ h * 1000) in
  ulong (current_time_us - last_hop_time_us).

Definition update (h : ChannelHopper) (current_time_ms : Z) : bool * ChannelHopper :=
  if negb (enabled_ h) then (false, h)
  else if hop_interval_us_ h <=? elapsed_us h current_time_ms then
    let h := next_channel h in
    (true, mkChannelHopper (current_channel_ h) current_time_ms
                           (hop_interval_us_ h) (enabled_ h))
  else (false, h).

Definition time_until_next_hop_us (h : ChannelHopper) (current_time_ms : Z) : Z :=
  if hop_interval_us_ h <=? elapsed_us h current_time_ms then 0
  else hop_interval_us_ h - elapsed_us h current_time_ms.

(** the hopper polled with [update] at the given instants, in order; the
    result lists which calls changed the channel *)
Fixpoint poll (h : ChannelHopper) (times : list Z) : list bool * ChannelHopper :=
  match times with
  | [] => ([], h)
  | t :: rest =>
      let '(hopped, h1) := update h t in
      let '(hops, h2) := poll h1 rest in
      (hopped :: hops, h2)
  end.

(** a clock that is read once every millisecond: 1, 2, ..., n *)
Definition every_ms (n : nat) : list Z := map Z.of_nat (seq 1 n).

Definition hop_count (hops : list bool) : nat := length (filter (fun b => b = true) hops).

(** *** Challenge-response authentication *)

Inductive ChallengeState : Type := IDLE | CHALLENGE_SENT | AUTHENTICATED.

Record AuthenticationManager : Type := mkAuthenticationManager {
  system_key_ : list Z;            (* uint8_t[AES_KEY_SIZE] *)
  current_challenge_ : list Z;     (* uint8_t[HMAC_SIZE] *)
  state_ : ChallengeState;
  challenge_timestamp_ : Z;        (* unsigned long *)
  challenge_timeout_ms_ : Z        (* uint32_t *)
}.

Definition with_state (s : ChallengeState) (m : AuthenticationManager)
  : AuthenticationManager :=
  mkAuthenticationManager (system_key_ m) (current_challenge_ m) s
                          (challenge_timestamp_ m) (challenge_timeout_ms_ m).

(** the constructor *)
Definition AuthenticationManager_new : AuthenticationManager :=
  {| system_key_ := replicate 16 0;
     current_challenge_ := replicate 6 0;
     state_ := IDLE;
     challenge_timestamp_ := 0;
     challenge_timeout_ms_ := 5000 |}.

Definition begin (m : AuthenticationManager) (system_key : list Z)
  : AuthenticationManager :=
  mkAuthenticationManager (memcpy (system_key_ m) system_key (Z.to_nat AES_KEY_SIZE))
                          (current_challenge_ m) IDLE
                          (challenge_timestamp_ m) (challenge_timeout_ms_ m).

(** returns [challenge_out] and the new state *)
Definition generate_challenge (m : AuthenticationManager) (random : list Z) (now_ms : Z)
  : list Z * AuthenticationManager :=
  let challenge_out := take (Z.to_nat HMAC_SIZE) random in
  (challenge_out,
   mkAuthenticationManager
     (system_key_ m)
     (memcpy (current_challenge_ m) challenge_out (Z.to_nat HMAC_SIZE))
     CHALLENGE_SENT (ulong now_ms) (challenge_timeout_ms_ m)).

Definition reset (m : AuthenticationManager) : AuthenticationManager :=
  mkAuthenticationManager (system_key_ m) (replicate 6 0) IDLE 0
                          (challenge_timeout_ms_ m).

Section WithAes.
Context `{AesBackend}.

Definition create_challenge_request (m : AuthenticationManager)
    (dest_node src_node random : list Z) (now_ms : Z)
  : exec (bool * IoFrame * AuthenticationManager) :=
  let f := init_frame false in
  let f := set_destination f dest_node in
  let f := set_source f src_node in
  let '(challenge, m) := generate_challenge m random now_ms in
  let '(ok, f) := set_command f CMD_CHALLENGE_REQUEST (Some challenge) HMAC_SIZE in
  if negb ok then Val (false, f, m)
  else
    '(ok, f) ← finalize_frame f (system_key_ m) (Some challenge);
    Val (ok, f, m).

Definition create_challenge_response (m : AuthenticationManager)
    (dest_node src_node received_challenge : list Z) : exec (bool * IoFrame) :=
  let f := init_frame false in
  let f := set_destination f dest_node in
  let f := set_source f src_node in
  let '(ok, f) := set_command f CMD_CHALLENGE_RESPONSE (Some received_challenge) HMAC_SIZE in
  if negb ok then Val (false, f)
  else finalize_frame f (system_key_ m) (Some received_challenge).

Definition verify_challenge_response (m : AuthenticationManager) (now_ms : Z)
    (f : IoFrame) : exec (bool * AuthenticationManager) :=
  match state_ m with
  | CHALLENGE_SENT =>
      let current_time := ulong now_ms in
      if challenge_timeout_ms_ m <? ulong (current_time - challenge_timestamp_ m)
      then Val (false, with_state IDLE m)
      else if negb (command_id f =? CMD_CHALLENGE_RESPONSE) then Val (false, m)
      else
        ok ← validate_frame f (Some (system_key_ m)) (Some (current_challenge_ m));
        if negb ok then Val (false, m)
        else Val (true, with_state AUTHENTICATED m)
  | _ => Val (false, m)
  end.

(** the managers that the public interface can produce *)
Inductive auth_reachable : AuthenticationManager -> Prop :=
| reach_new : auth_reachable AuthenticationManager_new
| reach_begin m key :
  auth_reachable m -> auth_reachable (begin m key)
| reach_generate m random now_ms :
  auth_reachable m -> auth_reachable (snd (generate_challenge m random now_ms))
| reach_request m dest src random now_ms ok f m' :
  auth_reachable m ->
  create_challenge_request m dest src random now_ms = Val (ok, f, m') ->
  auth_reachable m'
| reach_verify m now_ms f ok m' :
  auth_reachable m ->
  verify_challenge_response m now_ms f = Val (ok, m') ->
  auth_reachable m'
| reach_reset m :
  auth_reachable m -> auth_reachable (reset m).

End WithAes.

(** *** Discovery *)

Inductive DiscoveryState : Type := DISC_IDLE | DISCOVERING | FOUND.

Record DiscoveredDevice : Type := mkDiscoveredDevice {
  node_id : list Z;            (* uint8_t[NODE_ID_SIZE] *)
  device_type : Z;             (* DeviceType, one byte *)
  manufacturer : Z;
  protocol_version : Z;
  rssi : Z;                    (* int16_t *)
  timestamp_ms : Z             (* unsigned long *)
}.

Record DiscoveryManager : Type := mkDiscoveryManager {
  own_node_id_ : list Z;
  disc_state_ : DiscoveryState;
  discovery_start_time_ : Z;
  discovery_timeout_ : Z;
  discovery_device_type_ : Z;
  discovered_devices_ : list DiscoveredDevice;   (* MAX_DISCOVERED_DEVICES slots *)
  discovered_count_ : nat
}.

Definition zero_device : DiscoveredDevice :=
  mkDiscoveredDevice (replicate 3 0) 0 0 0 0 0.

(** the constructor *)
Definition DiscoveryManager_new : DiscoveryManager :=
  {| own_node_id_ := replicate 3 0;
     disc_state_ := DISC_IDLE;
     discovery_start_time_ := 0;
     discovery_timeout_ := 0;
     discovery_device_type_ := 0xFF;
     discovered_devices_ := replicate MAX_DISCOVERED_DEVICES zero_device;
     discovered_count_ := 0 |}.

Definition discovery_begin (m : DiscoveryManager) (own_node_id : list Z)
  : DiscoveryManager :=
  mkDiscoveryManager (memcpy (own_node_id_ m) own_node_id (Z.to_nat NODE_ID_SIZE))
                     DISC_IDLE (discovery_start_time_ m) (discovery_timeout_ m)
                     (discovery_device_type_ m) (discovered_devices_ m) 0.

Definition start_discovery (m : DiscoveryManager) (device_type timeout_ms now_ms : Z)
  : DiscoveryManager :=
  mkDiscoveryManager (own_node_id_ m) DISCOVERING (ulong now_ms) timeout_ms
                     device_type (discovered_devices_ m) 0.

Definition stop_discovery (m : DiscoveryManager) : DiscoveryManager :=
  mkDiscoveryManager (own_node_id_ m) DISC_IDLE (discovery_start_time_ m)
                     (discovery_timeout_ m) (discovery_device_type_ m)
                     (discovered_devices_ m) (discovered_count_ m).

Definition get_discovered_count (m : DiscoveryManager) : nat := discovered_count_ m.

Definition get_discovered_device (m : DiscoveryManager) (index : nat)
  : option DiscoveredDevice :=
  if decide (discovered_count_ m <= index)%nat then None
  else discovered_devices_ m !! index.

Definition process_discovery_response (m : DiscoveryManager) (f : IoFrame)
    (rssi now_ms : Z) : bool * DiscoveryManager :=
  match disc_state_ m with
  | DISCOVERING =>
      if decide (MAX_DISCOVERED_DEVICES <= discovered_count_ m)%nat then (false, m)
      else if existsb
                (fun d => memcmp_eq (node_id d) (src_node f) (Z.to_nat NODE_ID_SIZE))
                (take (discovered_count_ m) (discovered_devices_ m))
      then (false, m)
      else
        let '(device_type, manufacturer) :=
          if 2 <=? data_len f then (nth 0 (data f) 0, nth 1 (data f) 0)
          else (ROLLER_SHUTTER, 0) in
        let protocol_version := if 3 <=? data_len f then nth 2 (data f) 0 else 0 in
        let device :=
          {| node_id := take (Z.to_nat NODE_ID_SIZE) (src_node f);
             device_type := device_type;
             manufacturer := manufacturer;
             protocol_version := protocol_version;
             rssi := rssi;
             timestamp_ms := ulong now_ms |} in
        (true,
         mkDiscoveryManager (own_node_id_ m) FOUND (discovery_start_time_ m)
                            (discovery_timeout_ m) (discovery_device_type_ m)
                            (<[discovered_count_ m := device]> (discovered_devices_ m))
                            (S (discovered_count_ m)))
  | _ => (false, m)
  end.

(** the managers that the public interface can produce *)
Inductive disc_reachable : DiscoveryManager -> Prop :=
| disc_new : disc_reachable DiscoveryManager_new
| disc_begin m own :
  disc_reachable m -> disc_reachable (discovery_begin m own)
| disc_start m device_type timeout_ms now_ms :
  disc_reachable m -> disc_reachable (start_discovery m device_type timeout_ms now_ms)
| disc_stop m :
  disc_reachable m -> disc_reachable (stop_discovery m)
| disc_process m f rssi now_ms :
  disc_reachable m ->
  disc_reachable (snd (process_discovery_response m f rssi now_ms)).

(** the devices that [get_discovered_device] can return *)
Definition discovered (m : DiscoveryManager) : list DiscoveredDevice :=
  take (discovered_count_ m) (discovered_devices_ m).

(** responses handed to the manager one after the other *)
Fixpoint ingest_all (m : DiscoveryManager) (responses : list (IoFrame * Z * Z))
  : list bool * DiscoveryManager :=
  match responses with
  | [] => ([], m)
  | (f, rssi, now_ms) :: rest =>
      let '(r, m1) := process_discovery_response m f rssi now_ms in
      let '(rs, m2) := ingest_all m1 rest in
      (r :: rs, m2)
  end.

(** [create_discovery_request]: the [switch] on [device_type] picks the
    command; the frame is returned as [set_command] leaves it *)
Definition create_discovery_request (m : DiscoveryManager) (device_type : Z)
  : bool * IoFrame :=
  let f := init_frame true in
  let f := set_destination f BROADCAST_ADDRESS in
  let f := set_source f (own_node_id_ m) in
  let cmd_id :=
    match device_type with
    | 0x00 => CMD_DISCOVER_ACTUATOR
    | 0x12 => CMD_DISCOVER_SENSOR
    | 0x11 => CMD_DISCOVER_BEACON
    | _ => CMD_DISCOVER_ACTUATOR
    end in
  set_command f cmd_id (Some [device_type]) 1.

Section WithAes.
Context `{AesBackend}.

Definition create_key_transfer_1w (dest_node src_node system_key : list Z)
  : bool * IoFrame :=
  let f := init_frame true in
  let f := set_destination f dest_node in
  let f := set_source f src_node in
  match crypto.encrypt_1w_key system_key dest_node with
  | None => (false, f)
  | Some encrypted_key =>
      set_command f CMD_KEY_TRANSFER_1W (Some encrypted_key) AES_KEY_SIZE
  end.

Definition create_key_transfer_2w (dest_node src_node system_key challenge : list Z)
  : bool * IoFrame :=
  let f := init_frame false in
  let f := set_destination f dest_node in
  let f := set_source f src_node in
  match crypto.encrypt_2w_key system_key challenge with
  | None => (false, f)
  | Some encrypted_key =>
      set_command f CMD_KEY_TRANSFER_2W (Some encrypted_key) AES_KEY_SIZE
  end.

End WithAes.

(** *** Beacons

The signal-to-noise ratio is a [float] that the handler only stores and
hands back; its type is a parameter. *)

Section Beacon.
Variable float : Type.

Record BeaconInfo : Type := mkBeaconInfo {
  beacon_node_id : list Z;     (* uint8_t[NODE_ID_SIZE] *)
  beacon_type : Z;             (* BeaconType, one byte *)
  beacon_data : list Z;        (* uint8_t[FRAME_MAX_DATA_SIZE] *)
  beacon_data_len : Z;
  beacon_rssi : Z;             (* int16_t *)
  beacon_snr : float;
  beacon_timestamp_ms : Z      (* unsigned long *)
}.

Record BeaconHandler : Type := mkBeaconHandler {
  last_beacon_ : BeaconInfo;
  beacon_received_ : bool
}.

Definition SYNC_BEACON : Z := 0x00.

(** the constructor; [zero] is the [float] that [memset] leaves *)
Definition BeaconHandler_new (zero : float) : BeaconHandler :=
  {| last_beacon_ := mkBeaconInfo (replicate 3 0) 0 (replicate 21 0) 0 0 zero 0;
     beacon_received_ := false |}.

Definition beacon_begin (h : BeaconHandler) : BeaconHandler :=
  mkBeaconHandler (last_beacon_ h) false.

Definition process_beacon (h : BeaconHandler) (f : IoFrame) (rssi : Z) (snr : float)
    (now_ms : Z) : bool * BeaconHandler :=
  if Z.land (ctrl_byte_1 f) CTRL1_USE_BEACON =? 0 then (false, h)
  else
    let b := last_beacon_ h in
    let type := if 0 <? data_len f then nth 0 (data f) 0 else SYNC_BEACON in
    let data :=
      if 0 <? data_len f then
        let copy_len :=
          if data_len f <? FRAME_MAX_DATA_SIZE then data_len f
          else FRAME_MAX_DATA_SIZE in
        memcpy (beacon_data b) (data f) (Z.to_nat copy_len)
      else beacon_data b in
    (true,
     {| last_beacon_ :=
          {| beacon_node_id :=
               memcpy (beacon_node_id b) (src_node f) (Z.to_nat NODE_ID_SIZE);
             beacon_type := type;
             beacon_data := data;
             beacon_data_len := data_len f;
             beacon_rssi := rssi;
             beacon_snr := snr;
             beacon_timestamp_ms := ulong now_ms |};
        beacon_received_ := true |}).

Definition get_last_beacon (h : BeaconHandler) : option BeaconInfo :=
  if negb (beacon_received_ h) then None else Some (last_beacon_ h).

Definition has_recent_beacon (h : BeaconHandler) (timeout_ms now_ms : Z) : bool :=
  if negb (beacon_received_ h) then false
  else
    let current_time := ulong now_ms in
    ulong (current_time - beacon_timestamp_ms (last_beacon_ h)) <=? timeout_ms.

Definition time_since_last_beacon (h : BeaconHandler) (current_time_ms : Z) : Z :=
  if negb (beacon_received_ h) then 0xFFFFFFFF
  else ulong (current_time_ms - beacon_timestamp_ms (last_beacon_ h)).

(** frames handed to the handler one after the other, each with the
    signal readings and the clock of its call *)
Fixpoint process_beacons (h : BeaconHandler) (evs : list (IoFrame * Z * float * Z))
  : BeaconHandler :=
  match evs with
  | [] => h
  | (f, rssi, snr, now_ms) :: rest =>
      process_beacons (snd (process_beacon h f rssi snr now_ms)) rest
  end.

End Beacon.

Arguments mkBeaconInfo {float}.
Arguments beacon_node_id {float}.
Arguments beacon_type {float}.
Arguments beacon_data {float}.
Arguments beacon_data_len {float}.
Arguments beacon_rssi {float}.
Arguments beacon_snr {float}.
Arguments beacon_timestamp_ms {float}.
Arguments mkBeaconHandler {float}.
Arguments last_beacon_ {float}.
Arguments beacon_received_ {float}.
Arguments BeaconHandler_new {float}.
Arguments beacon_begin {float}.
Arguments process_beacon {float}.
Arguments get_last_beacon {float}.
Arguments has_recent_beacon {float}.
Arguments time_since_last_beacon {float}.
Arguments process_beacons {float}.

End mode2w.

(** ** IoHomeControl.cpp: the receive and the send path

The radio is outside the repository.  One call of [check_received] sees
the radio through [rx_event]: whether [scanChannel] reported a detected
preamble, and what [readData] delivered into the 32-byte buffer: a
negative status, or [len] bytes. *)

Module controller.

Import frame.

Record IoHomeControl : Type := mkIoHomeControl {
  own_node_id_ : list Z;
  system_key_ : list Z;
  is_1w_mode_ : bool;
  rolling_code_ : Z;           (* uint16_t, the transmit counter *)
  initialized_ : bool;
  receiving_ : bool;
  verbose_ : bool
}.

Inductive radio_read : Type :=
| ReadError (status : Z)
| ReadData (bytes : list Z).

Record rx_event : Type := mkRxEvent {
  preamble_detected : bool;
  read_data : radio_read
}.

(** the constructor *)
Definition IoHomeControl_new : IoHomeControl :=
  {| own_node_id_ := replicate 3 0;
     system_key_ := replicate 16 0;
     is_1w_mode_ := true;
     rolling_code_ := 0;
     initialized_ := false;
     receiving_ := false;
     verbose_ := false |}.

(** [IoHomeControl::begin] *)
Definition control_begin (c : IoHomeControl) (own_node_id system_key : list Z)
    (is_1w : bool)
  : IoHomeControl :=
  mkIoHomeControl (memcpy (own_node_id_ c) own_node_id (Z.to_nat NODE_ID_SIZE))
                  (memcpy (system_key_ c) system_key (Z.to_nat AES_KEY_SIZE))
                  is_1w (rolling_code_ c) true (receiving_ c) (verbose_ c).

(** status codes of RadioLib, which is not part of the repository *)
Definition RADIOLIB_ERR_NONE : Z := 0.
Definition RADIOLIB_ERR_CHIP_NOT_FOUND : Z := -2.

Definition set_receiving (r : bool) (c : IoHomeControl) : IoHomeControl :=
  mkIoHomeControl (own_node_id_ c) (system_key_ c) (is_1w_mode_ c) (rolling_code_ c)
                  (initialized_ c) r (verbose_ c).

(** [radio_status] is what [radio_->startReceive()] answers *)
Definition start_receive (c : IoHomeControl) (radio_status : Z) : Z * IoHomeControl :=
  if negb (initialized_ c) then (RADIOLIB_ERR_CHIP_NOT_FOUND, c)
  else if negb (radio_status =? RADIOLIB_ERR_NONE) then (radio_status, c)
  else (RADIOLIB_ERR_NONE, set_receiving true c).

Definition stop_receive (c : IoHomeControl) : IoHomeControl :=
  if receiving_ c then set_receiving false c else c.

(** what the radio answers during one [transmit_frame]: the status of
    [transmit] and, when reception is resumed, of [startReceive] *)
Record radio_tx : Type := mkRadioTx {
  transmit_status : Z;
  resume_status : Z
}.

(** the return value, the controller afterwards, and the bytes handed to
    [radio_->transmit] ([None] when it is not called) *)
Definition transmit_frame (c : IoHomeControl) (f : IoFrame) (radio : radio_tx)
  : exec (bool * IoHomeControl * option (list Z)) :=
  s ← serialize_frame f FRAME_MAX_SIZE;
  match s with
  | None => Val (false, c, None)
  | Some buffer =>
      let was_receiving := receiving_ c in
      let c := if was_receiving then stop_receive c else c in
      let state := transmit_status radio in
      let c := if was_receiving then snd (start_receive c (resume_status radio)) else c in
      Val (negb (negb (state =? RADIOLIB_ERR_NONE)), c, Some buffer)
  end.

Section WithAes.
Context `{AesBackend}.

(** the frame handed to the caller ([None] when the call returns [false])
    and the controller afterwards *)
Definition check_received (c : IoHomeControl) (ev : rx_event)
  : exec (option IoFrame * IoHomeControl) :=
  if negb (receiving_ c) then Val (None, c)
  else if negb (preamble_detected ev) then Val (None, c)
  else
    match read_data ev with
    | ReadError _ => Val (None, c)
    | ReadData buffer =>
        p ← parse_frame buffer;
        match p with
        | None => Val (None, c)
        | Some f =>
            ok ← validate_frame f (Some (system_key_ c)) None;
            if negb ok then Val (None, c) else Val (Some f, c)
        end
    end.

(** successive calls of [check_received], one per radio event *)
Fixpoint receive_all (c : IoHomeControl) (evs : list rx_event)
  : exec (list (option IoFrame)) :=
  match evs with
  | [] => Val []
  | ev :: rest =>
      '(r, c1) ← check_received c ev;
      rs ← receive_all c1 rest;
      Val (r :: rs)
  end.

End WithAes.

Section WithAes.
Context `{AesBackend}.

Definition send_command (c : IoHomeControl) (dest_node : list Z) (cmd_id : Z)
    (params : ptr (list Z)) (params_len : Z) (radio : radio_tx)
  : exec (bool * IoHomeControl * option (list Z)) :=
  if negb (initialized_ c) then Val (false, c, None)
  else
    let tx_frame := init_frame (is_1w_mode_ c) in
    let tx_frame := set_destination tx_frame dest_node in
    let tx_frame := set_source tx_frame (own_node_id_ c) in
    let '(ok, tx_frame) := set_command tx_frame cmd_id params params_len in
    if negb ok then Val (false, c, None)
    else
      let '(tx_frame, c) :=
        if is_1w_mode_ c
        then (set_rolling_code tx_frame (rolling_code_ c),
              mkIoHomeControl (own_node_id_ c) (system_key_ c) (is_1w_mode_ c)
                              (u16 (rolling_code_ c + 1)) (initialized_ c)
                              (receiving_ c) (verbose_ c))
        else (tx_frame, c) in
      '(ok, tx_frame) ← finalize_frame tx_frame (system_key_ c) None;
      if negb ok then Val (false, c, None)
      else transmit_frame c tx_frame radio.

Definition set_position (c : IoHomeControl) (dest_node : list Z) (position : Z)
    (radio : radio_tx) : exec (bool * IoHomeControl * option (list Z)) :=
  send_command c dest_node CMD_SET_POSITION (Some [position; 0x00]) 2 radio.

Definition open (c : IoHomeControl) (dest_node : list Z) (radio : radio_tx)
  : exec (bool * IoHomeControl * option (list Z)) :=
  set_position c dest_node 100 radio.

Definition close (c : IoHomeControl) (dest_node : list Z) (radio : radio_tx)
  : exec (bool * IoHomeControl * option (list Z)) :=
  set_position c dest_node 0 radio.

Definition stop (c : IoHomeControl) (dest_node : list Z) (radio : radio_tx)
  : exec (bool * IoHomeControl * option (list Z)) :=
  send_command c dest_node CMD_STOP (Some [0x00]) 1 radio.

End WithAes.

End controller.

(** ** velux/iohome_velux.h / iohome_velux.cpp

The Velux helpers build their frames with the functions of
[iohome_frame.cpp].  [get_recommended_ventilation], which compares
[float] temperatures, and [get_model_name] are left out. *)

Module velux.

Import frame.

(** [enum class WindowPosition : uint8_t], as the byte it is cast to *)
Definition CLOSED : Z := 0.
Definition VENTILATION_1 : Z := 10.
Definition VENTILATION_2 : Z := 20.
Definition VENTILATION_3 : Z := 30.
Definition HALF_OPEN : Z := 50.
Definition FULLY_OPEN : Z := 100.

Inductive VeluxModel : Type :=
| UNKNOWN | GGL | GGU | GPL | GPU
| GGL_SOLAR | GGU_SOLAR
| GGL_ELECTRIC | GGU_ELECTRIC
| DML | RML | FML | MML | SML
| KLR_200 | KLI_310 | KLF_200.

(** the enumerator values, which the range tests compare *)
Definition model_value (model : VeluxModel) : Z :=
  match model with
  | UNKNOWN => 0x00 | GGL => 0x01 | GGU => 0x02 | GPL => 0x03 | GPU => 0x04
  | GGL_SOLAR => 0x11 | GGU_SOLAR => 0x12
  | GGL_ELECTRIC => 0x21 | GGU_ELECTRIC => 0x22
  | DML => 0x31 | RML => 0x32 | FML => 0x33 | MML => 0x34 | SML => 0x35
  | KLR_200 => 0x41 | KLI_310 => 0x42 | KLF_200 => 0x43
  end.

(** [enum class RainSensorStatus]; [RAIN_UNKNOWN] is its [UNKNOWN] *)
Inductive RainSensorStatus : Type := RAIN_UNKNOWN | DRY | RAIN | ERROR.

Definition VELUX_CMD_GET_RAIN_SENSOR : Z := 0x58.
Definition VELUX_CMD_EMERGENCY_CLOSE : Z := 0x5A.

Record VeluxWindow : Type := mkVeluxWindow {
  window_node_id_ : list Z;    (* uint8_t[NODE_ID_SIZE] *)
  window_model_ : VeluxModel;
  rain_protection_enabled_ : bool;
  last_rain_status_ : RainSensorStatus
}.

Definition get_ventilation_position (level : Z) : Z :=
  match level with
  | 1 => VENTILATION_1
  | 2 => VENTILATION_2
  | 3 => VENTILATION_3
  | _ => CLOSED
  end.

Definition create_ventilation_frame (w : VeluxWindow) (src_node : list Z) (level : Z)
  : bool * IoFrame :=
  let f := init_frame true in
  let f := set_destination f (window_node_id_ w) in
  let f := set_source f src_node in
  let position := get_ventilation_position level in
  set_command f CMD_SET_POSITION (Some [position; 0x00]) 2.

Definition create_position_frame (w : VeluxWindow) (src_node : list Z) (position : Z)
  : bool * IoFrame :=
  let f := init_frame true in
  let f := set_destination f (window_node_id_ w) in
  let f := set_source f src_node in
  let pos_value := position in
  set_command f CMD_SET_POSITION (Some [pos_value; 0x00]) 2.

Definition create_emergency_close_frame (w : VeluxWindow) (src_node : list Z)
  : bool * IoFrame :=
  let f := init_frame true in
  let f := set_destination f (window_node_id_ w) in
  let f := set_source f src_node in
  let f :=
    mkIoFrame (ctrl_byte_0 f) (Z.lor (ctrl_byte_1 f) 0x10) (dest_node f)
              (frame.src_node f) (command_id f) (data f) (data_len f) (rolling_code f) (hmac f) (crc f)
              (is_1w_mode f) (frame_length f) in
  set_command f VELUX_CMD_EMERGENCY_CLOSE (Some [0x00; 0x00]) 2.

Definition parse_rain_sensor_status (f : IoFrame) : RainSensorStatus :=
  if negb (command_id f =? VELUX_CMD_GET_RAIN_SENSOR) then RAIN_UNKNOWN
  else if data_len f <? 1 then RAIN_UNKNOWN
  else
    match nth 0 (data f) 0 with
    | 0x01 => DRY
    | 0x02 => RAIN
    | 0xFF => ERROR
    | _ => RAIN_UNKNOWN
    end.

Record VeluxBlind : Type := mkVeluxBlind {
  blind_node_id_ : list Z;     (* uint8_t[NODE_ID_SIZE] *)
  blind_model_ : VeluxModel
}.

(** the count returned and the caller's array [positions] afterwards *)
Definition get_recommended_positions (b : VeluxBlind) (positions : list Z)
  : nat * list Z :=
  match blind_model_ b with
  | DML => (3%nat, memcpy positions [0; 50; 100] 3)
  | RML => (5%nat, memcpy positions [0; 25; 50; 75; 100] 5)
  | MML | SML => (3%nat, memcpy positions [0; 50; 100] 3)
  | FML => (5%nat, memcpy positions [0; 20; 40; 60; 100] 5)
  | _ => (3%nat, memcpy positions [0; 50; 100] 3)
  end.

Definition supports_tilt (b : VeluxBlind) : bool :=
  model_value (blind_model_ b) =? model_value FML.

(** [None] is the return value [false] *)
Definition create_tilt_frame (b : VeluxBlind) (src_node : list Z) (tilt_angle : Z)
  : option IoFrame :=
  if negb (supports_tilt b) then None
  else
    let f := init_frame true in
    let f := set_destination f (blind_node_id_ b) in
    let f := set_source f src_node in
    let '(ok, f) := set_command f 0x65 (Some [tilt_angle; 0x00]) 2 in
    if ok then Some f else None.

Definition detect_model (device_type manufacturer : Z) : VeluxModel :=
  if negb (manufacturer =? 0x01) then UNKNOWN
  else
    match device_type with
    | 0x03 => GGL_ELECTRIC
    | 0x00 => SML
    | 0x04 => FML
    | 0x05 => MML
    | _ => UNKNOWN
    end.

Definition is_roof_window (model : VeluxModel) : bool :=
  let m := model_value model in
  ((model_value GGL <=? m) && (m <=? model_value GPU))
  || ((model_value GGL_SOLAR <=? m) && (m <=? model_value GGU_SOLAR))
  || ((model_value GGL_ELECTRIC <=? m) && (m <=? model_value GGU_ELECTRIC)).

Definition is_blind (model : VeluxModel) : bool :=
  let m := model_value model in
  (model_value DML <=? m) && (m <=? model_value SML).

Definition supports_rain_sensor (model : VeluxModel) : bool :=
  let m := model_value model in
  is_roof_window model
  && ((m =? model_value GGL_ELECTRIC) || (m =? model_value GGU_ELECTRIC)
      || (m =? model_value GGL_SOLAR) || (m =? model_value GGU_SOLAR)).

End velux.

(** ** A reference AES-128 for the concrete scenarios

The block encryption of FIPS-197, which is what the mbedTLS calls
compute; the state is the 16-byte block in input order (column-major).
Only the scenarios use it: the general statements hold for any
[AesBackend]. *)

Module Fips197.

Definition xtime (b : Z) : Z :=
  let s := Z.shiftl b 1 in
  if Z.testbit b 7 then Z.land (Z.lxor s 0x1B) 0xFF else s.

Fixpoint gmul_loop (n : nat) (a b acc : Z) : Z :=
  match n with
  | O => acc
  | S k => gmul_loop k (xtime a) (Z.shiftr b 1) (if Z.odd b then Z.lxor acc a else acc)
  end.

Definition gmul (a b : Z) : Z := gmul_loop 8 a b 0.

(** the inverse in GF(2^8) as the 254th power *)
Definition ginv (x : Z) : Z :=
  let x2 := gmul x x in
  let x4 := gmul x2 x2 in
  let x8 := gmul x4 x4 in
  let x16 := gmul x8 x8 in
  let x32 := gmul x16 x16 in
  let x64 := gmul x32 x32 in
  let x128 := gmul x64 x64 in
  gmul x128 (gmul x64 (gmul x32 (gmul x16 (gmul x8 (gmul x4 x2))))).

Definition rotl8 (x : Z) (n : Z) : Z :=
  Z.land (Z.lor (Z.shiftl x n) (Z.shiftr x (8 - n))) 0xFF.

Definition sbox_of (x : Z) : Z :=
  let i := ginv x in
  Z.lxor (Z.lxor (Z.lxor (Z.lxor (Z.lxor i (rotl8 i 1)) (rotl8 i 2)) (rotl8 i 3))
                 (rotl8 i 4)) 0x63.

Definition sbox : list Z :=
  Eval vm_compute in map (fun i => sbox_of (Z.of_nat i)) (seq 0 256).

Definition sub_byte (x : Z) : Z := nth (Z.to_nat x) sbox 0.

Definition xor_block (a b : list Z) : list Z :=
  map (fun i => Z.lxor (nth i a 0) (nth i b 0)) (seq 0 16).

Definition sub_bytes (s : list Z) : list Z := map sub_byte s.

Definition shift_rows (s : list Z) : list Z :=
  map (fun i => let r := (i mod 4)%nat in
                let c := (i / 4)%nat in
                nth (r + 4 * ((c + r) mod 4))%nat s 0)
      (seq 0 16).

Definition mix_column (a0 a1 a2 a3 : Z) : list Z :=
  [Z.lxor (Z.lxor (gmul 2 a0) (gmul 3 a1)) (Z.lxor a2 a3);
   Z.lxor (Z.lxor a0 (gmul 2 a1)) (Z.lxor (gmul 3 a2) a3);
   Z.lxor (Z.lxor a0 a1) (Z.lxor (gmul 2 a2) (gmul 3 a3));
   Z.lxor (Z.lxor (gmul 3 a0) a1) (Z.lxor a2 (gmul 2 a3))].

Definition mix_columns (s : list Z) : list Z :=
  flat_map (fun c => mix_column (nth (4 * c) s 0) (nth (4 * c + 1) s 0)
                                (nth (4 * c + 2) s 0) (nth (4 * c + 3) s 0))
           (seq 0 4).

Definition next_round_key (rcon : Z) (k : list Z) : list Z :=
  let t := [Z.lxor (sub_byte (nth 13 k 0)) rcon; sub_byte (nth 14 k 0);
            sub_byte (nth 15 k 0); sub_byte (nth 12 k 0)] in
  let w0 := map (fun i => Z.lxor (nth i k 0) (nth i t 0)) (seq 0 4) in
  let w1 := map (fun i => Z.lxor (nth (4 + i) k 0) (nth i w0 0)) (seq 0 4) in
  let w2 := map (fun i => Z.lxor (nth (8 + i) k 0) (nth i w1 0)) (seq 0 4) in
  let w3 := map (fun i => Z.lxor (nth (12 + i) k 0) (nth i w2 0)) (seq 0 4) in
  w0 ++ w1 ++ w2 ++ w3.

(** rounds 1 to 9, then the final round without MixColumns *)
Fixpoint rounds (n : nat) (rcon : Z) (k s : list Z) : list Z :=
  match n with
  | O =>
      let k := next_round_key rcon k in
      xor_block (shift_rows (sub_bytes s)) k
  | S m =>
      let k := next_round_key rcon k in
      rounds m (xtime rcon) k (xor_block (mix_columns (shift_rows (sub_bytes s))) k)
  end.

(** Modelled from the spec: the AES-128-ECB primitive, "standard NIST AES
    with a 128-bit key encrypting a single 16-byte block" (mbedTLS itself is
    not part of the sources). *)
Definition encrypt_block (key input : list Z) : list Z :=
  rounds 9 1 key (xor_block input key).

#[global] Instance backend : AesBackend := fun key input => Some (encrypt_block key input).

End Fips197.

(** ** Concrete scenarios

The frames, buffers and managers of the seed scenarios of the protocol
description, evaluated with the reference AES. *)

Module scenario.

Import frame mode2w controller.

(** 00 01 ... 0F *)
Definition system_key : list Z := map Z.of_nat (seq 0 16).

Definition ascii_123456789 : list Z :=
  [0x31; 0x32; 0x33; 0x34; 0x35; 0x36; 0x37; 0x38; 0x39].

(** the 1W set-position frame after [init_frame], [set_destination],
    [set_source] and [set_command] *)
Definition position_unfinalized : IoFrame :=
  snd (set_command
         (set_source (set_destination (init_frame true) [0x64; 0x65; 0x75])
                     [0xAB; 0xCD; 0xEF])
         CMD_SET_POSITION (Some [50; 0x00]) 2).

(** the same frame after [set_rolling_code 0x0007] and [finalize_frame] *)
Definition position_frame : IoFrame :=
  {| ctrl_byte_0 := 0x0B;
     ctrl_byte_1 := 0x00;
     dest_node := [0x64; 0x65; 0x75];
     src_node := [0xAB; 0xCD; 0xEF];
     command_id := 0x60;
     data := [50; 0] ++ replicate 19 0;
     data_len := 2;
     rolling_code := [0x07; 0x00];
     hmac := [0x82; 0x93; 0x4F; 0x7D; 0x4A; 0xFE];
     crc := [0x00; 0x51];
     is_1w_mode := true;
     frame_length := 22 |}.

(** the 21 bytes that [serialize_frame] writes for [position_frame] *)
Definition position_bytes : list Z :=
  [0x0B; 0x00; 0x64; 0x65; 0x75; 0xAB; 0xCD; 0xEF; 0x60; 50; 0x00; 0x07; 0x00;
   0x82; 0x93; 0x4F; 0x7D; 0x4A; 0xFE; 0x00; 0x51].

(** a receiver that shares the system key *)
Definition receiver : IoHomeControl :=
  {| own_node_id_ := [0x64; 0x65; 0x75];
     system_key_ := system_key;
     is_1w_mode_ := true;
     rolling_code_ := 0;
     initialized_ := true;
     receiving_ := true;
     verbose_ := false |}.

(** the radio delivering the 21 frame bytes followed by one more byte *)
Definition position_rx : rx_event :=
  {| preamble_detected := true;
     read_data := ReadData (position_bytes ++ [0x00]) |}.

Definition challenge : list Z := [0x11; 0x22; 0x33; 0x44; 0x55; 0x66].

(** the initiator after [begin] and [generate_challenge] at 1000 ms *)
Definition initiator : AuthenticationManager :=
  snd (generate_challenge (begin AuthenticationManager_new system_key) challenge 1000).

(** the 2W frame that [create_challenge_response] builds for [challenge] *)
Definition response_frame : IoFrame :=
  {| ctrl_byte_0 := 0x2D;
     ctrl_byte_1 := 0x00;
     dest_node := [0x01; 0x02; 0x03];
     src_node := [0x04; 0x05; 0x06];
     command_id := 0x3D;
     data := challenge ++ replicate 15 0;
     data_len := 6;
     rolling_code := [0x00; 0x00];
     hmac := [0x07; 0xBD; 0x2E; 0xE9; 0xAC; 0x1F];
     crc := [0x7A; 0x72];
     is_1w_mode := false;
     frame_length := 24 |}.

(** a hopper as constructed (Ch2, last hop at 0, 2700 us), enabled *)
Definition hopper : ChannelHopper := set_enabled ChannelHopper_new true.

(** the channel after [k] transitions from Ch2 *)
Definition channel_after (k : Z) : ChannelState :=
  match k mod 3 with
  | 0 => CHANNEL_2
  | 1 => CHANNEL_3
  | _ => CHANNEL_1
  end.

(** The acceptance test of the protocol description for a received
    rolling code [rc]: [(rc - last_seen) mod 2^16] lies in [1, W].  The code
    has no counterpart of it. *)
Definition spec_in_window (W last_seen rc : Z) : bool :=
  let d := (rc - last_seen) mod 2 ^ 16 in (1 <=? d) && (d <=? W).

End scenario.

(** * Properties *)

Import frame.

(** ** Arithmetic of the header fields *)

Lemma land_length_mask (x : Z) : 0 <= Z.land x CTRL0_LENGTH_MASK <= 31.
Proof.
  unfold CTRL0_LENGTH_MASK. change (Z.land x 0x1F) with (Z.land x (Z.ones 5)).
  rewrite Z.land_ones by lia. change (2 ^ 5) with 32.
  pose proof (Z.mod_pos_bound x 32 eq_refl). lia.
Qed.

Lemma get_frame_length_eq (c : Z) :
  get_frame_length c = Z.land c CTRL0_LENGTH_MASK + 11.
Proof.
  unfold get_frame_length, u8, FRAME_MIN_SIZE.
  pose proof (land_length_mask c). apply Z.mod_small. lia.
Qed.

Lemma get_frame_length_range (c : Z) : 11 <= get_frame_length c <= 42.
Proof. rewrite get_frame_length_eq. pose proof (land_length_mask c). lia. Qed.

Lemma length_overhead_cases (b : bool) :
  length_overhead b = if b then 20 else 18.
Proof. destruct b; reflexivity. Qed.

(** ** CRC-16 *)

Lemma lxor_below (n a b : Z) :
  0 <= n -> 0 <= a < 2 ^ n -> 0 <= b < 2 ^ n -> 0 <= Z.lxor a b < 2 ^ n.
Proof.
  intros Hn Ha Hb.
  assert (H0 : 0 <= Z.lxor a b) by (apply Z.lxor_nonneg; lia).
  split; [exact H0|].
  destruct (Z.eq_dec (Z.lxor a b) 0) as [->|Hne]; [lia|].
  assert (Hpos : 0 < n).
  { destruct (Z.eq_dec n 0) as [->|]; [|lia].
    change (2 ^ 0) with 1 in *. replace a with 0 in Hne by lia.
    replace b with 0 in Hne by lia. contradiction. }
  apply Z.log2_lt_pow2; [lia|].
  eapply Z.le_lt_trans; [apply Z.log2_lxor; lia|].
  apply Z.max_lub_lt.
  - destruct (Z.eq_dec a 0) as [->|]; [cbn; lia|]. apply Z.log2_lt_pow2; lia.
  - destruct (Z.eq_dec b 0) as [->|]; [cbn; lia|]. apply Z.log2_lt_pow2; lia.
Qed.

(** the CRC stays a 16-bit value, so no wrap-around needs writing out *)
Lemma crc16_shift_range (n : nat) (crc : Z) :
  0 <= crc < 65536 -> 0 <= crypto.crc16_shift n crc < 65536.
Proof.
  revert crc. induction n as [|n IH]; intros crc Hc; [exact Hc|].
  cbn [crypto.crc16_shift]. apply IH.
  change 65536 with (2 ^ 16). apply lxor_below; [lia| |].
  - rewrite Z.shiftr_div_pow2 by lia. change (2 ^ 1) with 2. change (2 ^ 16) with 65536.
    split; [apply Z.div_pos; lia | apply Z.div_lt_upper_bound; lia].
  - destruct (_ =? _); unfold CRC_POLYNOMIAL; lia.
Qed.

Lemma compute_crc16_range (data : list Z) (crc : Z) :
  Forall (fun b => 0 <= b < 256) data -> 0 <= crc < 65536 ->
  0 <= crypto.compute_crc16 data crc < 65536.
Proof.
  intros Hd. revert crc. induction Hd as [|b data Hb _ IH]; intros crc Hc; [exact Hc|].
  cbn [crypto.compute_crc16 fold_left]. apply IH.
  apply crc16_shift_range. change 65536 with (2 ^ 16).
  apply lxor_below; [lia | exact Hc | change (2 ^ 16) with 65536; lia].
Qed.

(** C3, as amended.  [compute_crc16] on the nine ASCII bytes "123456789"
    with initial value 0x0000 returns 0x2189; the code stores the low byte
    first, so the CRC bytes on the wire are 89 21, and a buffer that ends in
    these two bytes passes [verify_crc16]. *)
Theorem crc16_check_value :
  crypto.compute_crc16 scenario.ascii_123456789 CRC_INITIAL = 0x2189
  /\ crypto.crc_bytes (crypto.compute_crc16 scenario.ascii_123456789 CRC_INITIAL)
     = [0x89; 0x21]
  /\ crypto.verify_crc16 (scenario.ascii_123456789 ++ [0x89; 0x21]) = true.
Proof. repeat split; vm_compute; reflexivity. Qed.

(** C3, as stated, fails: the value returned is not 0x8921 and the bytes
    stored for the wire are not 21 89. *)
Lemma crc16_kermit_not_8921 :
  ~ (crypto.compute_crc16 scenario.ascii_123456789 CRC_INITIAL = 0x8921
     /\ crypto.crc_bytes (crypto.compute_crc16 scenario.ascii_123456789 CRC_INITIAL)
        = [0x21; 0x89]).
Proof. intros [Hv _]. vm_compute in Hv. discriminate Hv. Qed.

(** ** Buffer accesses *)

Lemma load_in_range (buf : list Z) (i : nat) :
  (i < length buf)%nat -> load buf i = Val (nth i buf 0).
Proof.
  intros Hi. unfold load.
  destruct (buf !! i) as [b|] eqn:E.
  - f_equal. symmetry. apply nth_lookup_Some with (d := 0) in E. exact E.
  - apply lookup_ge_None in E. lia.
Qed.

Lemma load_range_in_range (buf : list Z) (off n : nat) :
  (off + n <= length buf)%nat -> load_range buf off n = Val (take n (drop off buf)).
Proof. intros Hn. unfold load_range. destruct (decide _); [reflexivity | lia]. Qed.

(** ** The parser *)

Lemma wrapped_data_len (fl : Z) (is_1w : bool) :
  11 <= fl <= 42 -> fl < length_overhead is_1w ->
  FRAME_MAX_DATA_SIZE < u8 (fl - length_overhead is_1w).
Proof.
  intros Hfl Hlt. rewrite length_overhead_cases in *. unfold u8, FRAME_MAX_DATA_SIZE.
  destruct is_1w.
  - replace (fl - 20) with ((fl + 236) + (-1) * 256) by lia.
    rewrite Z.mod_add by lia. rewrite Z.mod_small; lia.
  - replace (fl - 18) with ((fl + 238) + (-1) * 256) by lia.
    rewrite Z.mod_add by lia. rewrite Z.mod_small; lia.
Qed.

(** [parse_frame] either returns [false], or returns [true] with a frame
    whose lengths are consistent with the buffer; it never faults. *)
Lemma parse_frame_cases (buffer : list Z) :
  parse_frame buffer = Val None
  \/ exists f, parse_frame buffer = Val (Some f)
       /\ 0 <= data_len f <= FRAME_MAX_DATA_SIZE
       /\ frame_length f = get_frame_length (nth 0 buffer 0)
       /\ is_1w_mode f = negb (is_2w_mode (nth 0 buffer 0))
       /\ data_len f = frame_length f - length_overhead (is_1w_mode f)
       /\ frame_length f <= Z.of_nat (length buffer).
Proof.
  unfold parse_frame.
  destruct (Z.ltb_spec (Z.of_nat (length buffer)) FRAME_MIN_SIZE) as [Hshort|Hmin];
    [left; reflexivity|].
  unfold FRAME_MIN_SIZE in Hmin.
  rewrite (load_in_range buffer 0), (load_in_range buffer 1) by lia.
  cbn [mbind exec_bind].
  set (c0 := nth 0 buffer 0).
  pose proof (get_frame_length_range c0) as Hfl.
  destruct (Z.ltb_spec (Z.of_nat (length buffer)) (get_frame_length c0))
    as [Hcut|Hlen]; [left; reflexivity|].
  rewrite (load_range_in_range buffer 2 3), (load_range_in_range buffer 5 3) by lia.
  cbn [mbind exec_bind].
  rewrite (load_in_range buffer 8) by lia. cbn [mbind exec_bind].
  set (is_1w := negb (is_2w_mode c0)).
  destruct (Z.ltb_spec FRAME_MAX_DATA_SIZE
              (u8 (get_frame_length c0 - length_overhead is_1w)))
    as [Hbig|Hdl]; [left; reflexivity|].
  assert (Hoc : 18 <= length_overhead is_1w <= 20)
    by (rewrite length_overhead_cases; destruct is_1w; lia).
  assert (Hov : length_overhead is_1w <= get_frame_length c0).
  { destruct (Z.le_gt_cases (length_overhead is_1w) (get_frame_length c0))
      as [?|Hneg]; [assumption|].
    pose proof (wrapped_data_len _ is_1w Hfl ltac:(lia)). lia. }
  assert (Hu8 : u8 (get_frame_length c0 - length_overhead is_1w)
                = get_frame_length c0 - length_overhead is_1w).
  { unfold u8. apply Z.mod_small. lia. }
  rewrite Hu8 in *. unfold FRAME_MAX_DATA_SIZE in Hdl.
  pose proof (length_overhead_cases is_1w) as Hoc'.
  right. destruct is_1w eqn:E1w.
  - repeat (rewrite load_range_in_range by lia; cbn [mbind exec_bind]).
    eexists. split; [reflexivity|].
    cbn [data_len frame_length is_1w_mode].
    unfold FRAME_MAX_DATA_SIZE. repeat split; try lia.
  - repeat (rewrite load_range_in_range by lia; cbn [mbind exec_bind]).
    eexists. split; [reflexivity|].
    cbn [data_len frame_length is_1w_mode].
    unfold FRAME_MAX_DATA_SIZE. repeat split; try lia.
Qed.

(** C10.  For every buffer, [parse_frame] reads no byte outside the
    [buffer_len] bytes supplied (it never faults); when it returns [true]
    the decoded parameter length is at most 21, the frame length is the one
    derived from Ctrl0 and is at most [buffer_len], and the parser stopped
    reading before that length; a Ctrl0 length below the fixed overhead of
    the decoded mode wraps, in the unsigned 8-bit subtraction, to a value
    above 21 and the frame is rejected. *)
Theorem parse_frame_within_buffer (buffer : list Z) :
  parse_frame buffer <> Fault
  /\ (forall f, parse_frame buffer = Val (Some f) ->
        0 <= data_len f <= FRAME_MAX_DATA_SIZE
        /\ frame_length f = get_frame_length (nth 0 buffer 0)
        /\ frame_length f <= Z.of_nat (length buffer)
        /\ parse_offset_end f < frame_length f)
  /\ (let ctrl0 := nth 0 buffer 0 in
      let is_1w := negb (is_2w_mode ctrl0) in
      get_frame_length ctrl0 < length_overhead is_1w ->
      FRAME_MAX_DATA_SIZE < u8 (get_frame_length ctrl0 - length_overhead is_1w)
      /\ parse_frame buffer = Val None).
Proof.
  destruct (parse_frame_cases buffer)
    as [Hnone | (f & Hf & Hdl & Hfl & Hmode & Hdata & Hlen)].
  - rewrite Hnone. split; [discriminate|]. split; [intros f Hf; discriminate|].
    intros ctrl0 is_1w Hlt. split; [|reflexivity].
    apply wrapped_data_len; [apply get_frame_length_range | exact Hlt].
  - rewrite Hf. split; [discriminate|]. split.
    + intros f' Hf'. injection Hf' as <-.
      unfold parse_offset_end, ROLLING_CODE_SIZE, HMAC_SIZE, CRC_SIZE.
      pose proof (length_overhead_cases (is_1w_mode f)) as Hoc.
      destruct (is_1w_mode f); repeat split; lia.
    + intros ctrl0 is_1w Hlt. exfalso.
      subst ctrl0 is_1w. rewrite <- Hmode, <- Hfl in Hlt. lia.
Qed.

(** C10, on the 22-byte buffer of the set-position scenario. *)
Lemma parse_frame_within_buffer_witness :
  parse_frame (scenario.position_bytes ++ [0]) = Val (Some scenario.position_frame)
  /\ 0 <= data_len scenario.position_frame <= FRAME_MAX_DATA_SIZE
  /\ frame_length scenario.position_frame <= 22.
Proof.
  assert (Hp : parse_frame (scenario.position_bytes ++ [0])
               = Val (Some scenario.position_frame)) by (vm_compute; reflexivity).
  split; [exact Hp|].
  destruct (proj1 (proj2 (parse_frame_within_buffer (scenario.position_bytes ++ [0])))
              scenario.position_frame Hp) as (Hd & _ & Hl & _).
  split; [exact Hd | exact Hl].
Defined.

(** ** The reference AES and the initial value

    The example vector of FIPS-197, appendix C.1, and the initial values of
    the two scenarios: the first 8 bytes of command and parameters padded
    with 0x55, the two checksum bytes, then the rolling code and padding
    (1W) or the challenge (2W). *)

Lemma fips197_example_vector :
  Fips197.encrypt_block
    [0x00; 0x01; 0x02; 0x03; 0x04; 0x05; 0x06; 0x07;
     0x08; 0x09; 0x0a; 0x0b; 0x0c; 0x0d; 0x0e; 0x0f]
    [0x00; 0x11; 0x22; 0x33; 0x44; 0x55; 0x66; 0x77;
     0x88; 0x99; 0xaa; 0xbb; 0xcc; 0xdd; 0xee; 0xff]
  = [0x69; 0xc4; 0xe0; 0xd8; 0x6a; 0x7b; 0x04; 0x30;
     0xd8; 0xcd; 0xb7; 0x80; 0x70; 0xb4; 0xc5; 0x5a].
Proof. vm_compute. reflexivity. Qed.

Lemma construct_iv_1w_position :
  crypto.construct_iv_1w [0x60; 50; 0x00] (Some [0x07; 0x00])
  = Val [0x60; 50; 0x00; 0x55; 0x55; 0x55; 0x55; 0x55; 3; 200;
         0x07; 0x00; 0x55; 0x55; 0x55; 0x55].
Proof. vm_compute. reflexivity. Qed.

Lemma construct_iv_2w_response :
  crypto.construct_iv_2w (0x3D :: scenario.challenge) (Some scenario.challenge)
  = Val [0x3D; 0x11; 0x22; 0x33; 0x44; 0x55; 0x66; 0x55; 30; 8;
         0x11; 0x22; 0x33; 0x44; 0x55; 0x66].
Proof. vm_compute. reflexivity. Qed.

(** ** The length field written by [set_command] *)

Lemma set_command_fields (c0 : Z) (m : nat) (is_1w : bool) :
  c0 = (if negb is_1w then Z.lor 0 CTRL0_PROTOCOL_MASK else 0) -> (m <= 21)%nat ->
  let n := Z.of_nat m in
  let total_length := u8 (u8 n + length_overhead is_1w) in
  let ctrl0 := u8 (Z.lor (Z.land c0 (Z.lnot CTRL0_LENGTH_MASK))
                         (Z.land (total_length - FRAME_MIN_SIZE) CTRL0_LENGTH_MASK)) in
  u8 n = n
  /\ total_length = n + length_overhead is_1w
  /\ Z.land ctrl0 CTRL0_LENGTH_MASK = total_length - FRAME_MIN_SIZE
  /\ is_2w_mode ctrl0 = negb is_1w.
Proof.
  intros -> Hm.
  destruct is_1w;
    do 22 (destruct m as [|m]; [vm_compute; repeat split; reflexivity|]); lia.
Qed.

(** what [set_command] leaves in a frame fresh from [init_frame],
    [set_destination] and [set_source] *)
Lemma set_command_built (is_1w : bool) (dest src params : list Z) (cmd_id : Z) :
  Z.of_nat (length params) <= FRAME_MAX_DATA_SIZE ->
  let n := Z.of_nat (length params) in
  let r := set_command
             (set_source (set_destination (init_frame is_1w) dest) src)
             cmd_id (Some params) n in
  let f := snd r in
  fst r = true
  /\ is_1w_mode f = is_1w
  /\ data_len f = n
  /\ frame_length f = n + length_overhead is_1w
  /\ Z.land (ctrl_byte_0 f) CTRL0_LENGTH_MASK = frame_length f - FRAME_MIN_SIZE
  /\ is_2w_mode (ctrl_byte_0 f) = negb is_1w.
Proof.
  intros Hlen n r f.
  assert (Hn : 0 <= n <= 21) by (unfold FRAME_MAX_DATA_SIZE in Hlen; lia).
  destruct (set_command_fields (ctrl_byte_0 (init_frame is_1w))
              (length params) is_1w eq_refl ltac:(lia)) as (Hu & Htot & Hland & Hmode).
  fold n in Hu, Htot, Hland, Hmode.
  cbn zeta in Htot, Hland, Hmode.
  subst f r. unfold set_command.
  destruct (Z.ltb_spec FRAME_MAX_DATA_SIZE n); [lia|].
  cbn [fst snd set_payload is_1w_mode data_len frame_length
       ctrl_byte_0 set_source set_destination set_src_node
       set_dest_node].
  change (is_1w_mode (init_frame is_1w)) with is_1w.
  rewrite Htot in Hland, Hmode. rewrite Htot.
  repeat split; assumption.
Qed.

(** C2, as amended.  For every frame built with [init_frame],
    [set_destination], [set_source] and [set_command] with at most 21
    parameter bytes, [set_command] succeeds and the stored total length
    counts the 6-byte tag as well: it is at least the
    [17 + len(Params) + (2 if 1W else 0)] bytes that [serialize_frame] emits
    and at most one more; the low 5 bits of Ctrl0 encode that total length
    minus 11 without truncation, so [get_frame_length] gives it back, and bit
    5 of Ctrl0 matches the mode.  In particular, for a 1W frame with 2
    parameter bytes the length bits of Ctrl0 are at least 10 and the mode
    bit is 0. *)
Theorem set_command_length_field (is_1w : bool) (dest src params : list Z) (cmd_id : Z) :
  Z.of_nat (length params) <= FRAME_MAX_DATA_SIZE ->
  let n := Z.of_nat (length params) in
  let rc := if is_1w then ROLLING_CODE_SIZE else 0 in
  let r := set_command
             (set_source (set_destination (init_frame is_1w) dest) src)
             cmd_id (Some params) n in
  let f := snd r in
  fst r = true
  /\ data_len f = n
  /\ 17 + n + rc <= frame_length f <= 17 + n + rc + 1
  /\ Z.land (ctrl_byte_0 f) CTRL0_LENGTH_MASK = frame_length f - FRAME_MIN_SIZE
  /\ get_frame_length (ctrl_byte_0 f) = frame_length f
  /\ is_2w_mode (ctrl_byte_0 f) = negb is_1w
  /\ (is_1w = true -> n = 2 ->
      10 <= Z.land (ctrl_byte_0 f) CTRL0_LENGTH_MASK
      /\ Z.land (ctrl_byte_0 f) CTRL0_PROTOCOL_MASK = 0).
Proof.
  intros Hlen n rc r f.
  destruct (set_command_built is_1w dest src params cmd_id Hlen)
    as (Hr & _ & Hdl & Hfl & Hland & Hmode).
  fold n r f in Hr, Hdl, Hfl, Hland, Hmode.
  pose proof (length_overhead_cases is_1w) as Hoc.
  assert (Hn : 0 <= n) by lia.
  split; [exact Hr|]. split; [exact Hdl|].
  split; [subst rc; unfold ROLLING_CODE_SIZE; destruct is_1w; lia|].
  split; [exact Hland|].
  split; [rewrite get_frame_length_eq, Hland; unfold FRAME_MIN_SIZE; lia|].
  split; [exact Hmode|].
  intros H1w Hn2. split.
  - rewrite Hland, Hfl, Hoc, H1w. unfold FRAME_MIN_SIZE. lia.
  - unfold is_2w_mode in Hmode. rewrite H1w in Hmode. cbn [negb] in Hmode.
    destruct (Z.eqb_spec (Z.land (ctrl_byte_0 f) CTRL0_PROTOCOL_MASK) 0);
      [assumption | discriminate].
Qed.

(** C2, as amended, on the set-position frame of the 1W scenario. *)
Lemma set_command_length_field_witness :
  let f := scenario.position_unfinalized in
  data_len f = 2
  /\ 17 + 2 + 2 <= frame_length f <= 17 + 2 + 2 + 1
  /\ get_frame_length (ctrl_byte_0 f) = frame_length f.
Proof.
  pose proof (set_command_length_field true [0x64; 0x65; 0x75] [0xAB; 0xCD; 0xEF]
                [50; 0x00] CMD_SET_POSITION ltac:(vm_compute; discriminate)) as H.
  cbv zeta in H. destruct H as (_ & Hd & Hl & _ & Hg & _).
  split; [exact Hd|]. split; [exact Hl | exact Hg].
Defined.

(** C2, as stated, fails on the 1W frame with 2 parameter bytes: the total
    length is not 11 + 2 + 2, the length bits of Ctrl0 are not 4 and Ctrl0 is
    not 0x04 (the stored values are 22, 11 and 0x0B). *)
Lemma set_command_ctrl0_not_0x04 :
  let f := scenario.position_unfinalized in
  ~ (frame_length f = 11 + 2 + 2
     /\ Z.land (ctrl_byte_0 f) CTRL0_LENGTH_MASK = 4
     /\ ctrl_byte_0 f = 0x04).
Proof. intros f (Hl & _). vm_compute in Hl. discriminate Hl. Qed.

(** ** Serialization followed by parsing *)

Lemma memcpy_length (dst src : list Z) (n : nat) :
  (n <= length src)%nat -> (n <= length dst)%nat ->
  length (memcpy dst src n) = length dst.
Proof.
  intros Hs Hd. unfold memcpy. rewrite length_app, length_take, length_drop. lia.
Qed.

Lemma serialize_frame_bytes (f : IoFrame) (buffer_size : Z) (bytes : list Z) :
  serialize_frame f buffer_size = Val (Some bytes) ->
  bytes = [ctrl_byte_0 f; ctrl_byte_1 f]
            ++ take 3 (dest_node f) ++ take 3 (src_node f)
            ++ [command_id f]
            ++ take (Z.to_nat (data_len f)) (data f)
            ++ (if is_1w_mode f then take 2 (rolling_code f) else [])
            ++ take 6 (hmac f) ++ take 2 (crc f)
  /\ (Z.to_nat (data_len f) <= length (data f))%nat.
Proof.
  unfold serialize_frame, load_range.
  destruct (buffer_size <? frame_length f); [discriminate|].
  destruct (decide (0 + Z.to_nat (data_len f) <= length (data f))%nat)
    as [Hd|Hd]; cbn [mbind exec_bind]; [|discriminate].
  destruct (decide _); [discriminate|].
  intros [= <-]. split; [reflexivity | lia].
Qed.

(** [serialize_frame] writes 17 bytes besides the parameters and the
    rolling code *)
Lemma serialize_frame_length (f : IoFrame) (buffer_size : Z) (bytes : list Z) :
  sized f -> 0 <= data_len f ->
  serialize_frame f buffer_size = Val (Some bytes) ->
  Z.of_nat (length bytes)
  = 17 + data_len f + (if is_1w_mode f then ROLLING_CODE_SIZE else 0)
  /\ nth 0 bytes 0 = ctrl_byte_0 f.
Proof.
  intros (Hdest & Hsrc & Hdata & Hrc & Hh & Hc) Hdl Hs.
  apply serialize_frame_bytes in Hs as [-> Hle]. split; [|reflexivity].
  rewrite !length_app, !length_take. cbn [length].
  rewrite Hdest, Hsrc, Hh, Hc.
  destruct (is_1w_mode f); [rewrite length_take, Hrc|]; unfold ROLLING_CODE_SIZE;
    cbn [length]; lia.
Qed.

(** a frame whose length fields are the ones [set_command] computes is one
    byte longer, by its Ctrl0, than its own serialization, and
    [parse_frame] rejects that serialization as incomplete *)
Lemma serialized_frame_is_rejected (f : IoFrame) (buffer_size : Z)
    (bytes : list Z) :
  sized f -> 0 <= data_len f ->
  frame_length f = data_len f + length_overhead (is_1w_mode f) ->
  get_frame_length (ctrl_byte_0 f) = frame_length f ->
  serialize_frame f buffer_size = Val (Some bytes) ->
  parse_frame bytes = Val None.
Proof.
  intros Hsz Hdl Hfl Hg Hs.
  destruct (serialize_frame_length f buffer_size bytes Hsz Hdl Hs) as [Hlen H0].
  pose proof (length_overhead_cases (is_1w_mode f)) as Hoc.
  assert (Hshort : Z.of_nat (length bytes) = frame_length f - 1)
    by (rewrite Hlen, Hfl, Hoc; unfold ROLLING_CODE_SIZE;
        destruct (is_1w_mode f); lia).
  unfold parse_frame.
  destruct (Z.ltb_spec (Z.of_nat (length bytes)) FRAME_MIN_SIZE) as [|Hmin];
    [reflexivity|].
  unfold FRAME_MIN_SIZE in Hmin.
  rewrite (load_in_range bytes 0), (load_in_range bytes 1) by lia.
  cbn [mbind exec_bind]. rewrite H0, Hg.
  destruct (Z.ltb_spec (Z.of_nat (length bytes)) (frame_length f));
    [reflexivity | lia].
Qed.

(** no frame built through the construction functions survives the round
    trip, whatever its tag and CRC bytes *)
Lemma built_frame_is_rejected (is_1w : bool) (dest src params h c : list Z)
    (cmd_id code buffer_size : Z) (bytes : list Z) :
  length dest = 3%nat -> length src = 3%nat ->
  Z.of_nat (length params) <= FRAME_MAX_DATA_SIZE ->
  length h = 6%nat -> length c = 2%nat ->
  let f0 := snd (set_command
                   (set_source
                      (set_destination (init_frame is_1w) dest) src)
                   cmd_id (Some params) (Z.of_nat (length params))) in
  let f := set_crc c (set_hmac h (set_rolling_code f0 code)) in
  serialize_frame f buffer_size = Val (Some bytes) ->
  parse_frame bytes = Val None.
Proof.
  intros Hdest Hsrc Hp Hh Hc f0 f Hs.
  destruct (set_command_built is_1w dest src params cmd_id Hp)
    as (_ & H1w & Hdl & Hfl & Hland & _).
  fold f0 in H1w, Hdl, Hfl, Hland.
  apply (serialized_frame_is_rejected f buffer_size bytes); try exact Hs.
  - subst f f0. unfold sized, set_command.
    destruct (Z.ltb_spec FRAME_MAX_DATA_SIZE (Z.of_nat (length params))) as [|Hle];
      [lia|].
    unfold FRAME_MAX_DATA_SIZE in Hle.
    cbn -[memcpy replicate Z.to_nat Z.ltb]. rewrite Hh, Hc.
    change (Z.to_nat NODE_ID_SIZE) with 3%nat.
    rewrite (memcpy_length _ dest), (memcpy_length _ src)
      by (rewrite ?length_replicate; lia).
    rewrite length_replicate.
    repeat split; try reflexivity.
    destruct (0 <? Z.of_nat (length params)); [|apply length_replicate].
    rewrite memcpy_length by (rewrite ?length_replicate; lia).
    apply length_replicate.
  - change (data_len f) with (data_len f0). lia.
  - change (frame_length f) with (frame_length f0).
    change (data_len f) with (data_len f0).
    change (is_1w_mode f) with (is_1w_mode f0).
    rewrite H1w, Hfl, Hdl. reflexivity.
  - change (ctrl_byte_0 f) with (ctrl_byte_0 f0).
    change (frame_length f) with (frame_length f0).
    rewrite get_frame_length_eq, Hland. unfold FRAME_MIN_SIZE. lia.
Qed.

Lemma IoFrame_eq (f g : IoFrame) :
  ctrl_byte_0 f = ctrl_byte_0 g -> ctrl_byte_1 f = ctrl_byte_1 g ->
  dest_node f = dest_node g -> src_node f = src_node g ->
  command_id f = command_id g -> data f = data g -> data_len f = data_len g ->
  rolling_code f = rolling_code g -> hmac f = hmac g -> crc f = crc g ->
  is_1w_mode f = is_1w_mode g -> frame_length f = frame_length g ->
  f = g.
Proof. destruct f, g. cbn. intros. subst. reflexivity. Qed.

(** the [data] array after [set_command]: the parameters, then zeros *)
Lemma set_command_data (is_1w : bool) (dest src params : list Z) (cmd_id : Z) :
  Z.of_nat (length params) <= FRAME_MAX_DATA_SIZE ->
  data (snd (set_command (set_source (set_destination (init_frame is_1w) dest) src)
                         cmd_id (Some params) (Z.of_nat (length params))))
  = params ++ replicate (21 - length params) 0.
Proof.
  intros Hp. unfold set_command.
  destruct (Z.ltb_spec FRAME_MAX_DATA_SIZE (Z.of_nat (length params))); [lia|].
  cbn [snd set_payload data set_source set_destination set_src_node set_dest_node
       init_frame].
  unfold memcpy. rewrite Nat2Z.id, firstn_all, drop_replicate.
  destruct (Z.ltb_spec 0 (Z.of_nat (length params))) as [Hpos|Hz]; [reflexivity|].
  destruct params; [reflexivity | cbn in Hz; lia].
Qed.

(** the codec is otherwise consistent: followed by at least one more byte,
    the serialization of a built frame parses back to the frame, field by
    field *)
Lemma round_trip_with_trailing_byte (is_1w : bool) (dest src params h c pad : list Z)
    (cmd_id code buffer_size : Z) (bytes : list Z) :
  length dest = 3%nat -> length src = 3%nat ->
  Z.of_nat (length params) <= FRAME_MAX_DATA_SIZE ->
  length h = 6%nat -> length c = 2%nat -> pad <> [] ->
  let f0 := snd (set_command (set_source (set_destination (init_frame is_1w) dest) src)
                             cmd_id (Some params) (Z.of_nat (length params))) in
  let f := set_crc c (set_hmac h (if is_1w then set_rolling_code f0 code else f0)) in
  serialize_frame f buffer_size = Val (Some bytes) ->
  parse_frame (bytes ++ pad) = Val (Some f).
Proof.
  intros Hdest Hsrc Hp Hh Hc Hpad f0 f Hs.
  destruct (set_command_built is_1w dest src params cmd_id Hp)
    as (_ & H1w & Hdl & Hfl & Hland & Hmode).
  pose proof (set_command_data is_1w dest src params cmd_id Hp) as Hdata.
  fold f0 in H1w, Hdl, Hfl, Hland, Hmode, Hdata.
  assert (Hg : get_frame_length (ctrl_byte_0 f0) = frame_length f0)
    by (rewrite get_frame_length_eq, Hland; unfold FRAME_MIN_SIZE; lia).
  assert (Hdest0 : dest_node f0 = dest).
  { subst f0. unfold set_command.
    destruct (_ <? _); cbn; unfold memcpy;
      do 4 (destruct dest as [|? dest]; try discriminate Hdest); reflexivity. }
  assert (Hsrc0 : src_node f0 = src).
  { subst f0. unfold set_command.
    destruct (_ <? _); cbn; unfold memcpy;
      do 4 (destruct src as [|? src]; try discriminate Hsrc); reflexivity. }
  assert (Hrc0 : rolling_code f0 = [0; 0]).
  { subst f0. unfold set_command. destruct (_ <? _); reflexivity. }
  assert (Hc1 : ctrl_byte_1 f0 = 0).
  { subst f0. unfold set_command. destruct (_ <? _); reflexivity. }
  apply serialize_frame_bytes in Hs as [-> _].
  assert (Hfields : ctrl_byte_0 f = ctrl_byte_0 f0 /\ ctrl_byte_1 f = 0
                    /\ dest_node f = dest /\ src_node f = src
                    /\ command_id f = command_id f0
                    /\ data f = params ++ replicate (21 - length params) 0
                    /\ data_len f = Z.of_nat (length params)
                    /\ hmac f = h /\ crc f = c /\ is_1w_mode f = is_1w
                    /\ frame_length f = frame_length f0
                    /\ rolling_code f
                       = if is_1w then [Z.land code 255; Z.land (Z.shiftr code 8) 255]
                         else [0; 0]).
  { subst f. destruct is_1w; cbn; rewrite ?Hc1, ?Hdest0, ?Hsrc0, ?Hdata, ?Hdl, ?H1w, ?Hrc0;
      repeat split; reflexivity. }
  destruct Hfields as (F0 & F1 & Fd & Fs & Fcmd & Fdata & Fdl & Fh & Fc & F1w & Ffl & Frc).
  rewrite F0, F1, Fd, Fs, Fcmd, Fdata, Fdl, Fh, Fc, F1w, Frc.
  rewrite Nat2Z.id, take_app_length.
  destruct dest as [|d0 [|d1 [|d2 [|? ?]]]]; try discriminate Hdest.
  destruct src as [|s0 [|s1 [|s2 [|? ?]]]]; try discriminate Hsrc.
  destruct h as [|h0 [|h1 [|h2 [|h3 [|h4 [|h5 [|? ?]]]]]]]; try discriminate Hh.
  destruct c as [|c0 [|c1 [|? ?]]]; try discriminate Hc.
  destruct pad as [|p0 pad]; [contradiction|].
  clear Hdest Hsrc Hh Hc Hpad Hdest0 Hsrc0.
  set (n := length params) in *.
  assert (Hn : (n <= 21)%nat) by (unfold FRAME_MAX_DATA_SIZE in Hp; lia).
  pose proof (length_overhead_cases is_1w) as Hoc.
  set (rc := if is_1w then [Z.land code 255; Z.land (Z.shiftr code 8) 255] else [0; 0]).
  set (tail := (if is_1w then take 2 rc else [])
                 ++ take 6 [h0; h1; h2; h3; h4; h5] ++ take 2 [c0; c1]).
  assert (Htail : Z.of_nat (length tail) = length_overhead is_1w - 10
                  /\ 18 <= length_overhead is_1w <= 20)
    by (rewrite Hoc; subst tail rc; clear; destruct is_1w; cbn [take app length]; lia).
  destruct Htail as [Htail Hov].
  cbn [take app].
  set (buffer := ctrl_byte_0 f0 :: 0 :: d0 :: d1 :: d2 :: s0 :: s1 :: s2
                   :: command_id f0 :: (params ++ tail) ++ p0 :: pad).
  assert (Hlen : length buffer = (9 + n + length tail + S (length pad))%nat).
  { subst buffer. cbn [length]. rewrite !length_app. cbn [length]. fold n. lia. }
  unfold parse_frame.
  destruct (Z.ltb_spec (Z.of_nat (length buffer)) FRAME_MIN_SIZE) as [Hshort|_];
    [unfold FRAME_MIN_SIZE in Hshort; lia|].
  rewrite (load_in_range buffer 0), (load_in_range buffer 1) by lia.
  cbn [mbind exec_bind]. change (nth 0 buffer 0) with (ctrl_byte_0 f0).
  change (nth 1 buffer 0) with 0.
  rewrite Hg, Hmode, negb_involutive, Hfl.
  destruct (Z.ltb_spec (Z.of_nat (length buffer)) (Z.of_nat n + length_overhead is_1w))
    as [Hcut|_]; [lia|].
  rewrite (load_range_in_range buffer 2 3), (load_range_in_range buffer 5 3) by lia.
  cbn [mbind exec_bind].
  rewrite (load_in_range buffer 8) by lia. cbn [mbind exec_bind].
  replace (u8 (Z.of_nat n + length_overhead is_1w - length_overhead is_1w))
    with (Z.of_nat n) by (unfold u8; rewrite Z.mod_small; lia).
  destruct (Z.ltb_spec FRAME_MAX_DATA_SIZE (Z.of_nat n)) as [Hbig|_];
    [unfold FRAME_MAX_DATA_SIZE in Hbig; lia|].
  rewrite Nat2Z.id.
  assert (Hdrop : forall k, drop (9 + n + k) buffer = drop k (tail ++ p0 :: pad)).
  { intros k. rewrite <- drop_drop, <- drop_drop. f_equal.
    subst buffer. cbn [drop]. rewrite <- app_assoc. subst n. apply drop_app_length. }
  assert (Htake : take n (drop 9 buffer) = params).
  { subst buffer. cbn [drop]. rewrite <- app_assoc. subst n. apply take_app_length. }
  rewrite (load_range_in_range buffer 9 n) by lia. cbn [mbind exec_bind].
  rewrite Htake.
  assert (Hfinal : forall g, g = f -> Val (Some g) = Val (Some f))
    by (intros g ->; reflexivity).
  pose proof (Hdrop 0%nat) as Hd0. pose proof (Hdrop 2%nat) as Hd2.
  pose proof (Hdrop 6%nat) as Hd6. pose proof (Hdrop 8%nat) as Hd8.
  rewrite Nat.add_0_r in Hd0.
  destruct is_1w.
  - rewrite (load_range_in_range buffer (9 + n) 2) by lia. cbn [mbind exec_bind].
    rewrite (load_range_in_range buffer (9 + n + 2) 6) by lia. cbn [mbind exec_bind].
    rewrite (load_range_in_range buffer (9 + n + 2 + 6) 2) by lia.
    cbn [mbind exec_bind].
    replace (9 + n + 2 + 6)%nat with (9 + n + 8)%nat by lia.
    rewrite Hd0, Hd2, Hd8. apply Hfinal.
    apply IoFrame_eq; cbn [ctrl_byte_0 ctrl_byte_1 dest_node src_node command_id data
                           data_len rolling_code hmac crc is_1w_mode frame_length];
      rewrite ?F0, ?F1, ?Fd, ?Fs, ?Fcmd, ?Fdata, ?Fdl, ?Frc, ?Fh, ?Fc, ?F1w, ?Ffl, ?Hfl;
      try reflexivity.
    unfold memcpy. rewrite drop_replicate. subst n. rewrite firstn_all. reflexivity.
  - cbn [mbind exec_bind].
    rewrite (load_range_in_range buffer (9 + n) 6) by lia. cbn [mbind exec_bind].
    rewrite (load_range_in_range buffer (9 + n + 6) 2) by lia.
    cbn [mbind exec_bind].
    rewrite Hd0, Hd6. apply Hfinal.
    apply IoFrame_eq; cbn [ctrl_byte_0 ctrl_byte_1 dest_node src_node command_id data
                           data_len rolling_code hmac crc is_1w_mode frame_length];
      rewrite ?F0, ?F1, ?Fd, ?Fs, ?Fcmd, ?Fdata, ?Fdl, ?Frc, ?Fh, ?Fc, ?F1w, ?Ffl, ?Hfl;
      try reflexivity.
    unfold memcpy. rewrite drop_replicate. subst n. rewrite firstn_all. reflexivity.
Qed.

Lemma position_frame_built :
  finalize_frame (set_rolling_code scenario.position_unfinalized 0x0007)
                       scenario.system_key None
  = Val (true, scenario.position_frame).
Proof. vm_compute. reflexivity. Qed.

(** C1 fails on the code.  The finalized 1W set-position frame (dest
    64 65 75, src AB CD EF, cmd 0x60, params 32 00, rolling code 0x0007, key
    00..0F) serializes to 21 bytes while its stored length, and the length
    its Ctrl0 encodes, is 22; [parse_frame] on these 21 bytes therefore
    returns [false].  The same bytes followed by one more byte parse back to
    the frame. *)
Theorem own_serialization_rejected :
  serialize_frame scenario.position_frame FRAME_MAX_SIZE
  = Val (Some scenario.position_bytes)
  /\ length scenario.position_bytes = 21%nat
  /\ frame_length scenario.position_frame = 22
  /\ get_frame_length (ctrl_byte_0 scenario.position_frame) = 22
  /\ parse_frame scenario.position_bytes = Val None
  /\ parse_frame (scenario.position_bytes ++ [0x00])
     = Val (Some scenario.position_frame).
Proof. repeat split; vm_compute; reflexivity. Qed.

(** ** The receive path *)

Section Receive.
Context `{AesBackend}.

Lemma check_received_state (c : controller.IoHomeControl) (ev : controller.rx_event)
    r c' :
  controller.check_received c ev = Val (r, c') -> c' = c.
Proof.
  unfold controller.check_received.
  destruct (controller.receiving_ c); cbn [negb]; [|intros [= _ <-]; reflexivity].
  destruct (controller.preamble_detected ev); cbn [negb];
    [|intros [= _ <-]; reflexivity].
  destruct (controller.read_data ev) as [st|buffer]; [intros [= _ <-]; reflexivity|].
  destruct (parse_frame buffer) as [[f|]|]; cbn [mbind exec_bind];
    [|intros [= _ <-]; reflexivity|discriminate].
  destruct (validate_frame f (Some (controller.system_key_ c)) None) as [[|]|];
    cbn [mbind exec_bind negb]; try discriminate; intros [= _ <-]; reflexivity.
Qed.

Lemma check_received_accepts (c : controller.IoHomeControl) (ev : controller.rx_event)
    (f : IoFrame) :
  controller.check_received c ev = Val (Some f, c)
  <-> controller.receiving_ c = true
      /\ controller.preamble_detected ev = true
      /\ exists buffer, controller.read_data ev = controller.ReadData buffer
           /\ parse_frame buffer = Val (Some f)
           /\ validate_frame f (Some (controller.system_key_ c)) None = Val true.
Proof.
  unfold controller.check_received. split.
  - destruct (controller.receiving_ c); cbn [negb]; [|discriminate].
    destruct (controller.preamble_detected ev); cbn [negb]; [|discriminate].
    destruct (controller.read_data ev) as [st|buffer]; [discriminate|].
    destruct (parse_frame buffer) as [[f'|]|] eqn:Ep; cbn [mbind exec_bind];
      [|discriminate|discriminate].
    destruct (validate_frame f' (Some (controller.system_key_ c)) None)
      as [[|]|] eqn:Ev; cbn [mbind exec_bind negb]; try discriminate.
    intros [= <-]. split; [reflexivity|]. split; [reflexivity|].
    exists buffer. split; [reflexivity|]. split; [exact Ep | exact Ev].
  - intros (-> & -> & buffer & -> & -> & Hv). cbn [negb mbind exec_bind].
    rewrite Hv. reflexivity.
Qed.

(** C4, as amended.  On the receive path the controller keeps no
    [last_seen] counter and no window: in any run of [check_received] over
    successive radio events, every verdict is the one [check_received] gives
    for that event alone in the initial controller state, which reception
    never changes; and a frame is accepted if and only if the controller is
    receiving, a preamble was detected, the bytes read parse, and
    [validate_frame] passes with the system key (CRC, and for a 1W frame the
    tag bound to the frame's own rolling code). *)
Theorem check_received_keeps_no_history (c : controller.IoHomeControl)
    (evs : list controller.rx_event) (rs : list (option IoFrame)) :
  controller.receive_all c evs = Val rs ->
  Forall2 (fun ev r => controller.check_received c ev = Val (r, c)) evs rs
  /\ (forall ev f,
        controller.check_received c ev = Val (Some f, c)
        <-> controller.receiving_ c = true
            /\ controller.preamble_detected ev = true
            /\ exists buffer, controller.read_data ev = controller.ReadData buffer
                 /\ parse_frame buffer = Val (Some f)
                 /\ validate_frame f (Some (controller.system_key_ c)) None
                    = Val true).
Proof.
  intros Hrun. split; [|intros ev f; apply check_received_accepts].
  revert rs Hrun. induction evs as [|ev evs IH]; intros rs Hrun.
  - injection Hrun as <-. constructor.
  - cbn [controller.receive_all] in Hrun.
    destruct (controller.check_received c ev) as [[r c1]|] eqn:Ec;
      cbn [mbind exec_bind] in Hrun; [|discriminate].
    pose proof (check_received_state _ _ _ _ Ec) as ->.
    destruct (controller.receive_all c evs) as [rs'|] eqn:Er;
      cbn [mbind exec_bind] in Hrun; [|discriminate].
    injection Hrun as <-. constructor; [exact Ec | apply IH; reflexivity].
Qed.

(** a 2W frame whose CRC is valid makes [validate_frame] read through the
    null challenge pointer as soon as a key is given *)
Lemma validate_2w_null_challenge (f : IoFrame) (key : list Z) :
  is_1w_mode f = false ->
  validate_frame f None None = Val true ->
  validate_frame f (Some key) None = Fault.
Proof.
  intros H2w. unfold validate_frame, serialize_frame, frame_data_of.
  destruct (FRAME_MAX_SIZE <? frame_length f); [discriminate|].
  destruct (load_range (data f) 0 (Z.to_nat (data_len f))) as [d|];
    cbn [mbind exec_bind]; [|discriminate].
  destruct (decide _); [discriminate|]. cbn [mbind exec_bind].
  match goal with |- context [crypto.verify_crc16 ?b] =>
    destruct (crypto.verify_crc16 b) end; cbn [negb]; [|discriminate].
  intros _. rewrite H2w. reflexivity.
Qed.

End Receive.

(** C4, as stated, fails.  The receiver accepts the 1W frame with rolling
    code 0x0007 and then accepts the very same bytes again, although after
    the first acceptance [last_seen] would be 7 and
    [(7 - 7) mod 2^16 = 0] is outside [1, 100]. *)
Lemma replayed_frame_accepted :
  controller.receive_all scenario.receiver [scenario.position_rx; scenario.position_rx]
  = Val [Some scenario.position_frame; Some scenario.position_frame]
  /\ rolling_code scenario.position_frame = [0x07; 0x00]
  /\ scenario.spec_in_window 100 0x0007 0x0007 = false.
Proof. repeat split; vm_compute; reflexivity. Qed.

(** C4, as amended, on the replayed set-position frame. *)
Lemma check_received_keeps_no_history_witness :
  Forall2 (fun ev r => controller.check_received scenario.receiver ev
                       = Val (r, scenario.receiver))
          [scenario.position_rx; scenario.position_rx]
          [Some scenario.position_frame; Some scenario.position_frame].
Proof.
  apply (check_received_keeps_no_history scenario.receiver
           [scenario.position_rx; scenario.position_rx]
           [Some scenario.position_frame; Some scenario.position_frame]).
  vm_compute. reflexivity.
Defined.

(** ** Validation of 2W frames *)

Lemma response_frame_built :
  mode2w.create_challenge_response
    (mode2w.begin mode2w.AuthenticationManager_new scenario.system_key)
    [0x01; 0x02; 0x03] [0x04; 0x05; 0x06] scenario.challenge
  = Val (true, scenario.response_frame).
Proof. vm_compute. reflexivity. Qed.

(** C5 fails on the code.  The 2W challenge-response frame built for the
    challenge 11 22 33 44 55 66 has a valid CRC and validates when the
    challenge is supplied; with the system key and a null challenge
    [validate_frame] does not return [false]: it passes the null pointer on
    to [construct_iv_2w], which copies six bytes from it.  [finalize_frame]
    does test for the null challenge and returns [false]. *)
Theorem validate_2w_without_challenge :
  is_1w_mode scenario.response_frame = false
  /\ validate_frame scenario.response_frame None None = Val true
  /\ validate_frame scenario.response_frame (Some scenario.system_key)
                          (Some scenario.challenge) = Val true
  /\ validate_frame scenario.response_frame (Some scenario.system_key) None
     = Fault
  /\ finalize_frame scenario.response_frame scenario.system_key None
     = Val (false, scenario.response_frame).
Proof. repeat split; vm_compute; reflexivity. Qed.

(** ** Challenge-response authentication *)

Section Auth.
Context `{AesBackend}.

Lemma create_challenge_request_state m dest src random now_ms ok f m' :
  mode2w.create_challenge_request m dest src random now_ms = Val (ok, f, m') ->
  m' = snd (mode2w.generate_challenge m random now_ms).
Proof.
  unfold mode2w.create_challenge_request.
  destruct (mode2w.generate_challenge m random now_ms) as [ch m1]. cbn [snd].
  destruct (set_command _ _ _ _) as [[|] f1]; cbn [negb].
  - destruct (finalize_frame _ _ _) as [[ok' f2]|]; cbn [mbind exec_bind];
      [intros [= _ _ <-]; reflexivity | discriminate].
  - intros [= _ _ <-]. reflexivity.
Qed.

Lemma verify_challenge_response_timeout_field m now_ms f ok m' :
  mode2w.verify_challenge_response m now_ms f = Val (ok, m') ->
  mode2w.challenge_timeout_ms_ m' = mode2w.challenge_timeout_ms_ m.
Proof.
  unfold mode2w.verify_challenge_response.
  destruct (mode2w.state_ m); try (intros [= _ <-]; reflexivity).
  destruct (_ <? _); [intros [= _ <-]; reflexivity|].
  destruct (negb _); [intros [= _ <-]; reflexivity|].
  destruct (validate_frame _ _ _) as [[|]|]; cbn [mbind exec_bind negb];
    try discriminate; intros [= _ <-]; reflexivity.
Qed.

(** the timeout is the constructor's 5000 ms: nothing changes it *)
Lemma auth_timeout_is_5000 m :
  mode2w.auth_reachable m -> mode2w.challenge_timeout_ms_ m = 5000.
Proof.
  induction 1 as [ | m key _ IH | m random now_ms _ IH
                 | m dest src random now_ms ok f m' _ IH Hreq
                 | m now_ms f ok m' _ IH Hver | m _ IH ].
  - reflexivity.
  - exact IH.
  - exact IH.
  - apply create_challenge_request_state in Hreq. subst m'. exact IH.
  - apply verify_challenge_response_timeout_field in Hver. congruence.
  - exact IH.
Qed.

(** C6.  For a manager produced by the public interface,
    [verify_challenge_response] returns [true] if and only if the state is
    [CHALLENGE_SENT], the time elapsed since [generate_challenge] (modulo
    2^32 ms) is at most 5000 ms, the command is 0x3D and [validate_frame]
    passes with the system key and the stored challenge; on success the state
    becomes [AUTHENTICATED]; when more than 5000 ms have elapsed in state
    [CHALLENGE_SENT] the call returns [false] and the state becomes [IDLE]. *)
Theorem verify_challenge_response_spec (m : mode2w.AuthenticationManager) (now_ms : Z)
    (f : IoFrame) :
  mode2w.auth_reachable m ->
  let elapsed := ulong (ulong now_ms - mode2w.challenge_timestamp_ m) in
  ((exists m', mode2w.verify_challenge_response m now_ms f = Val (true, m'))
   <-> mode2w.state_ m = mode2w.CHALLENGE_SENT
       /\ elapsed <= 5000
       /\ command_id f = CMD_CHALLENGE_RESPONSE
       /\ validate_frame f (Some (mode2w.system_key_ m))
                               (Some (mode2w.current_challenge_ m)) = Val true)
  /\ (forall m', mode2w.verify_challenge_response m now_ms f = Val (true, m') ->
                 mode2w.state_ m' = mode2w.AUTHENTICATED)
  /\ (mode2w.state_ m = mode2w.CHALLENGE_SENT -> 5000 < elapsed ->
      exists m', mode2w.verify_challenge_response m now_ms f = Val (false, m')
                 /\ mode2w.state_ m' = mode2w.IDLE).
Proof.
  intros Hreach elapsed. pose proof (auth_timeout_is_5000 m Hreach) as Ht.
  unfold mode2w.verify_challenge_response. rewrite Ht. fold elapsed.
  destruct (mode2w.state_ m) eqn:Es.
  - split; [split; [intros [m' [=]] | intros [[=] _]]|].
    split; [intros m' [=] | intros [=]].
  - destruct (Z.ltb_spec 5000 elapsed) as [Hlate|Hintime].
    + split; [split; [intros [m' [=]] | intros (_ & Hle & _); lia]|].
      split; [intros m' [=]|]. intros _ _. eexists. split; reflexivity.
    + destruct (Z.eqb_spec (command_id f) CMD_CHALLENGE_RESPONSE) as [Hcmd|Hcmd];
        cbn [negb].
      * destruct (validate_frame f (Some (mode2w.system_key_ m))
                    (Some (mode2w.current_challenge_ m)))
          as [[|]|] eqn:Ev; cbn [mbind exec_bind negb].
        -- split; [split; [intros _; repeat split; assumption
                          | intros _; eexists; reflexivity]|].
           split; [intros m' [= <-]; reflexivity | intros _ Hlt; lia].
        -- split; [split; [intros [m' [=]] | intros (_ & _ & _ & [=])]|].
           split; [intros m' [=] | intros _ Hlt; lia].
        -- split; [split; [intros [m' [=]] | intros (_ & _ & _ & [=])]|].
           split; [intros m' [=] | intros _ Hlt; lia].
      * split; [split; [intros [m' [=]] | intros (_ & _ & Hc & _); contradiction]|].
        split; [intros m' [=] | intros _ Hlt; lia].
  - split; [split; [intros [m' [=]] | intros [[=] _]]|].
    split; [intros m' [=] | intros [=]].
Qed.

End Auth.

(** C6 on the challenge round trip: challenge 11 22 33 44 55 66 generated at
    1000 ms, response verified at 6000 ms, exactly 5000 ms later. *)
Lemma verify_challenge_response_spec_witness :
  mode2w.auth_reachable scenario.initiator
  /\ exists m', mode2w.verify_challenge_response scenario.initiator 6000
                  scenario.response_frame = Val (true, m').
Proof.
  assert (Hreach : mode2w.auth_reachable scenario.initiator).
  { unfold scenario.initiator.
    apply mode2w.reach_generate, mode2w.reach_begin, mode2w.reach_new. }
  split; [exact Hreach|].
  apply (proj1 (verify_challenge_response_spec scenario.initiator 6000
                  scenario.response_frame Hreach)).
  repeat split; vm_compute; congruence.
Defined.

(** ** The channel hopper *)

Lemma poll_app (h : mode2w.ChannelHopper) (l1 l2 : list Z) :
  mode2w.poll h (l1 ++ l2)
  = (fst (mode2w.poll h l1) ++ fst (mode2w.poll (snd (mode2w.poll h l1)) l2),
     snd (mode2w.poll (snd (mode2w.poll h l1)) l2)).
Proof.
  revert h. induction l1 as [|t l1 IH]; intros h.
  - cbn. destruct (mode2w.poll h l2). reflexivity.
  - cbn [app mode2w.poll]. destruct (mode2w.update h t) as [b h1]. rewrite IH.
    destruct (mode2w.poll h1 l1) as [a h2]. cbn [fst snd].
    destruct (mode2w.poll h2 l2). reflexivity.
Qed.

Lemma every_ms_succ (n : nat) :
  mode2w.every_ms (S n) = mode2w.every_ms n ++ [Z.of_nat (S n)].
Proof. unfold mode2w.every_ms. rewrite seq_S, map_app. reflexivity. Qed.

(** the two conversions to microseconds wrap, their difference does not *)
Lemma elapsed_us_small (h : mode2w.ChannelHopper) (t : Z) :
  0 <= t - mode2w.last_hop_time_ms_ h <= 4000000 ->
  mode2w.elapsed_us h t = (t - mode2w.last_hop_time_ms_ h) * 1000.
Proof.
  intros Hd. unfold mode2w.elapsed_us, ulong.
  rewrite <- Zminus_mod.
  replace (t * 1000 - mode2w.last_hop_time_ms_ h * 1000)
    with ((t - mode2w.last_hop_time_ms_ h) * 1000) by lia.
  apply Z.mod_small. change (2 ^ 32) with 4294967296. lia.
Qed.

Lemma channel_after_succ (k : Z) :
  0 <= k ->
  mode2w.current_channel_
    (mode2w.next_channel
       (mode2w.mkChannelHopper (scenario.channel_after k) (3 * k) 2700 true))
  = scenario.channel_after (k + 1).
Proof.
  intros Hk. unfold scenario.channel_after, mode2w.next_channel.
  cbn [mode2w.current_channel_].
  assert (Hc : k mod 3 = 0 /\ (k + 1) mod 3 = 1
               \/ k mod 3 = 1 /\ (k + 1) mod 3 = 2
               \/ k mod 3 = 2 /\ (k + 1) mod 3 = 0)
    by (Z.div_mod_to_equations; lia).
  destruct Hc as [[-> ->] | [[-> ->] | [-> ->]]]; reflexivity.
Qed.

(** polled once per millisecond, the hopper changes channel at the
    multiples of 3 ms and only there *)
Lemma poll_every_ms (n : nat) :
  mode2w.poll scenario.hopper (mode2w.every_ms n)
  = (map (fun i => Z.of_nat i mod 3 =? 0) (seq 1 n),
     mode2w.mkChannelHopper (scenario.channel_after (Z.of_nat n / 3))
                            (3 * (Z.of_nat n / 3)) 2700 true).
Proof.
  induction n as [|n IH].
  - reflexivity.
  - rewrite every_ms_succ, poll_app, IH. cbn [fst snd].
    rewrite seq_S, map_app. cbn [map mode2w.poll Nat.add].
    set (k := Z.of_nat n / 3).
    set (h := mode2w.mkChannelHopper (scenario.channel_after k) (3 * k) 2700 true).
    assert (Hk : 0 <= k /\ 0 <= Z.of_nat n - 3 * k <= 2)
      by (subst k; Z.div_mod_to_equations; lia).
    assert (He : mode2w.elapsed_us h (Z.of_nat (S n)) = (Z.of_nat (S n) - 3 * k) * 1000)
      by (apply elapsed_us_small; cbn [mode2w.last_hop_time_ms_ h]; lia).
    unfold mode2w.update.
    cbn [mode2w.enabled_ h negb mode2w.hop_interval_us_]. rewrite He.
    destruct (Z.leb_spec 2700 ((Z.of_nat (S n) - 3 * k) * 1000)) as [Hhop|Hstay].
    + assert (Hn : Z.of_nat (S n) = 3 * (k + 1)) by lia.
      assert (Hd : Z.of_nat (S n) / 3 = k + 1) by (Z.div_mod_to_equations; lia).
      assert (Hm : Z.of_nat (S n) mod 3 = 0) by (Z.div_mod_to_equations; lia).
      rewrite Hd, Hm. cbn [Z.eqb]. f_equal.
      subst h. rewrite channel_after_succ by lia.
      cbn [mode2w.next_channel mode2w.hop_interval_us_ mode2w.enabled_].
      rewrite Hn. reflexivity.
    + assert (Hd : Z.of_nat (S n) / 3 = k) by (Z.div_mod_to_equations; lia).
      assert (Hm : Z.of_nat (S n) mod 3 <> 0) by (Z.div_mod_to_equations; lia).
      rewrite Hd. destruct (Z.eqb_spec (Z.of_nat (S n) mod 3) 0); [contradiction|].
      reflexivity.
Qed.

Lemma hop_count_every_third (n : nat) :
  mode2w.hop_count (map (fun i => Z.of_nat i mod 3 =? 0) (seq 1 n))
  = Z.to_nat (Z.of_nat n / 3).
Proof.
  unfold mode2w.hop_count. induction n as [|n IH]; [reflexivity|].
  rewrite seq_S, map_app, filter_app, length_app, IH. cbn [map Nat.add].
  destruct (Z.eqb_spec (Z.of_nat (S n) mod 3) 0) as [Hm|Hm].
  - rewrite filter_cons_True, filter_nil by reflexivity. cbn [length].
    Z.div_mod_to_equations; lia.
  - rewrite filter_cons_False, filter_nil by discriminate. cbn [length].
    Z.div_mod_to_equations; lia.
Qed.

(** the rule of one call of [update]: the clock argument is in whole
    milliseconds; the channel changes, once, exactly when the hopper is
    enabled and the elapsed milliseconds times 1000 (modulo 2^32) reach the
    dwell in microseconds, and the time of the call is then recorded *)
Lemma update_hops_when_due (h : mode2w.ChannelHopper) (t : Z) :
  let r := mode2w.update h t in
  (fst r = true
   <-> mode2w.enabled_ h = true
       /\ mode2w.hop_interval_us_ h <= mode2w.elapsed_us h t)
  /\ (fst r = true ->
      mode2w.current_channel_ (snd r)
      = mode2w.current_channel_ (mode2w.next_channel h)
      /\ mode2w.last_hop_time_ms_ (snd r) = t)
  /\ (fst r = false -> snd r = h).
Proof.
  intros r. subst r. unfold mode2w.update.
  destruct (mode2w.enabled_ h); cbn [negb].
  - destruct (Z.leb_spec (mode2w.hop_interval_us_ h) (mode2w.elapsed_us h t))
      as [Hh|Hs]; cbn [fst snd].
    + split; [split; [intros _; split; [reflexivity | exact Hh] | reflexivity]|].
      split; [intros _; split; reflexivity | discriminate].
    + split; [split; [discriminate | intros [_ Hle]; lia]|].
      split; [discriminate | reflexivity].
  - cbn [fst snd]. split; [split; [discriminate | intros [[=] _]]|].
    split; [discriminate | reflexivity].
Qed.

(** C7 fails on the code.  [update] is given the clock in whole
    milliseconds and multiplies by 1000 only for the comparison with the
    dwell of 2700 us, so a hop can only fall on a whole millisecond.  The
    hopper as constructed (Ch2, last hop at 0, dwell 2700 us), enabled and
    polled every millisecond, does not hop at 1 ms and 2 ms and hops to Ch3
    at 3 ms, to Ch1 at 6 ms and to Ch2 at 9 ms: the transitions that the
    claim places at 2700, 5400 and 8100 us come at 3000, 6000 and 9000 us.
    After [n] ms it has made [n / 3] transitions, 9 in 27 ms, fewer than the
    10 dwell periods of 2700 us that have elapsed.  Polled once after 27 ms
    it makes a single transition.  Given the instants 2699, 2700, 5400 and
    8100 as they are, it hops at the first and not at the second. *)
Theorem hopper_dwell_is_three_milliseconds :
  mode2w.hop_interval_us_ scenario.hopper = 2700
  /\ mode2w.get_current_channel scenario.hopper = mode2w.CHANNEL_2
  /\ fst (mode2w.poll scenario.hopper (mode2w.every_ms 9))
     = [false; false; true; false; false; true; false; false; true]
  /\ map (fun n => mode2w.get_current_channel
                     (snd (mode2w.poll scenario.hopper (mode2w.every_ms n))))
         [2; 3; 6; 9]%nat
     = [mode2w.CHANNEL_2; mode2w.CHANNEL_3; mode2w.CHANNEL_1; mode2w.CHANNEL_2]
  /\ (forall n : nat,
        let r := mode2w.poll scenario.hopper (mode2w.every_ms n) in
        mode2w.hop_count (fst r) = Z.to_nat (Z.of_nat n / 3)
        /\ mode2w.get_current_channel (snd r) = scenario.channel_after (Z.of_nat n / 3))
  /\ (let r := mode2w.poll scenario.hopper (mode2w.every_ms 27) in
      mode2w.hop_count (fst r) = 9%nat
      /\ Z.of_nat (mode2w.hop_count (fst r))
         < 27 * 1000 / mode2w.hop_interval_us_ scenario.hopper)
  /\ fst (mode2w.poll scenario.hopper [27]) = [true]
  /\ fst (mode2w.poll scenario.hopper [2699; 2700; 5400; 8100])
     = [true; false; true; true].
Proof.
  split; [reflexivity|]. split; [reflexivity|].
  split; [vm_compute; reflexivity|]. split; [vm_compute; reflexivity|].
  split.
  - intros n r. subst r. rewrite poll_every_ms.
    cbn [fst snd mode2w.get_current_channel mode2w.current_channel_].
    split; [apply hop_count_every_third | reflexivity].
  - split; [|split; vm_compute; reflexivity].
    cbn zeta. rewrite poll_every_ms. cbn [fst]. rewrite hop_count_every_third.
    split; [reflexivity | vm_compute; reflexivity].
Qed.

(** ** Discovery *)

(** [DISCOVERING] is only entered with an empty list, and the first accepted
    response leaves it: the list never holds more than one device *)
Lemma discovered_at_most_one (m : mode2w.DiscoveryManager) :
  mode2w.disc_reachable m ->
  (mode2w.disc_state_ m = mode2w.DISCOVERING -> mode2w.discovered_count_ m = 0%nat)
  /\ (mode2w.discovered_count_ m <= 1)%nat.
Proof.
  induction 1 as [ | m own _ IH | m dt timeout_ms now_ms _ IH | m _ IH
                 | m f rssi now_ms _ IH ].
  - split; [discriminate | cbn; lia].
  - split; [discriminate | cbn; lia].
  - split; [reflexivity | cbn; lia].
  - split; [discriminate | exact (proj2 IH)].
  - destruct IH as [IH0 IH1]. unfold mode2w.process_discovery_response.
    destruct (mode2w.disc_state_ m) eqn:Es; cbn [snd]; try (rewrite Es; tauto).
    specialize (IH0 eq_refl).
    destruct (decide _); cbn [snd]; [rewrite Es; tauto|].
    destruct (existsb _ _); cbn [snd]; [rewrite Es; tauto|].
    destruct (2 <=? data_len f); cbn [snd mode2w.disc_state_ mode2w.discovered_count_];
      (split; [discriminate | lia]).
Qed.

(** C8 fails on the code.  After [start_discovery], of two responses
    handed to [process_discovery_response] (whatever their sources, so also
    for two distinct unseen ones) the first is recorded and sets the state
    to [FOUND]; the second is then refused by the state test: the list
    holds one device. *)
Theorem second_discovery_response_rejected
    (own : list Z) (f1 f2 : IoFrame)
    (device_type timeout_ms now_ms rssi1 t1 rssi2 t2 : Z) :
  let m0 := mode2w.start_discovery
              (mode2w.discovery_begin mode2w.DiscoveryManager_new own)
              device_type timeout_ms now_ms in
  let r := mode2w.ingest_all m0 [(f1, rssi1, t1); (f2, rssi2, t2)] in
  fst r = [true; false]
  /\ mode2w.get_discovered_count (snd r) = 1%nat
  /\ map mode2w.node_id (mode2w.discovered (snd r)) = [take 3 (src_node f1)]
  /\ mode2w.disc_state_ (snd r) = mode2w.FOUND.
Proof.
  cbn zeta.
  unfold mode2w.ingest_all, mode2w.process_discovery_response, mode2w.start_discovery.
  cbn [mode2w.disc_state_ mode2w.discovered_count_ mode2w.discovered_devices_ take existsb].
  destruct (decide (MAX_DISCOVERED_DEVICES <= 0)%nat) as [Hc|_];
    [unfold MAX_DISCOVERED_DEVICES in Hc; lia|].
  destruct (2 <=? data_len f1), (3 <=? data_len f1); repeat split.
Qed.

(** ** The 1W key-transfer envelope *)

Lemma lxor_cancel (a b : Z) : Z.lxor (Z.lxor a b) b = a.
Proof. rewrite Z.lxor_assoc, Z.lxor_nilpotent, Z.lxor_0_r. reflexivity. Qed.

Section Envelope.
Context `{AesBackend}.

(** C9.  For a 16-byte system key [K] and a 3-byte destination, the block
    given to AES under [TRANSFER_KEY] is the destination repeated five times
    followed by its first byte; when AES returns the 16-byte block [E], the
    envelope computed by [encrypt_1w_key] is [K XOR E] byte by byte, XOR-ing
    the envelope with [E] again gives [K], and so does applying
    [encrypt_1w_key] to the envelope with the same destination. *)
Theorem key_transfer_envelope_1w (K dest E : list Z) :
  length K = 16%nat -> length dest = 3%nat -> length E = 16%nat ->
  crypto.aes128_encrypt (crypto.key_iv_1w dest) TRANSFER_KEY = Some E ->
  crypto.key_iv_1w dest = dest ++ dest ++ dest ++ dest ++ dest ++ take 1 dest
  /\ crypto.encrypt_1w_key K dest = Some (zip_with Z.lxor K E)
  /\ zip_with Z.lxor (zip_with Z.lxor K E) E = K
  /\ crypto.encrypt_1w_key (zip_with Z.lxor K E) dest = Some K.
Proof.
  intros HK Hd HE Haes.
  assert (Hiv : crypto.key_iv_1w dest
                = dest ++ dest ++ dest ++ dest ++ dest ++ take 1 dest).
  { do 4 (destruct dest as [|? dest]; try discriminate Hd). reflexivity. }
  assert (Hx : forall A, length A = 16%nat -> crypto.xor_key A E = zip_with Z.lxor A E).
  { intros A HA.
    do 17 (destruct A as [|? A]; try discriminate HA).
    do 17 (destruct E as [|? E]; try discriminate HE). reflexivity. }
  assert (Hinv : zip_with Z.lxor (zip_with Z.lxor K E) E = K).
  { clear Haes Hx.
    do 17 (destruct K as [|? K]; try discriminate HK).
    do 17 (destruct E as [|? E]; try discriminate HE).
    cbn [zip_with]. rewrite !lxor_cancel. reflexivity. }
  split; [exact Hiv|]. unfold crypto.encrypt_1w_key. rewrite Haes.
  split; [rewrite Hx by exact HK; reflexivity|].
  split; [exact Hinv|].
  rewrite Hx, Hinv; [reflexivity|].
  rewrite length_zip_with. lia.
Qed.

End Envelope.

(** C9 on the envelope scenario: destination AA BB CC, key 00..0F, the
    reference AES. *)
Lemma key_transfer_envelope_1w_witness :
  crypto.key_iv_1w [0xAA; 0xBB; 0xCC]
  = [0xAA; 0xBB; 0xCC; 0xAA; 0xBB; 0xCC; 0xAA; 0xBB; 0xCC; 0xAA; 0xBB; 0xCC;
     0xAA; 0xBB; 0xCC; 0xAA]
  /\ crypto.encrypt_1w_key
       (zip_with Z.lxor scenario.system_key
          (Fips197.encrypt_block TRANSFER_KEY (crypto.key_iv_1w [0xAA; 0xBB; 0xCC])))
       [0xAA; 0xBB; 0xCC]
     = Some scenario.system_key.
Proof.
  destruct (key_transfer_envelope_1w scenario.system_key [0xAA; 0xBB; 0xCC]
              (Fips197.encrypt_block TRANSFER_KEY (crypto.key_iv_1w [0xAA; 0xBB; 0xCC]))
              eq_refl eq_refl eq_refl eq_refl) as (Hiv & _ & _ & Hback).
  split; [exact Hiv | exact Hback].
Defined.

(** * Further properties

What the code guarantees beyond the statements of the protocol
description: edge behaviour, invariants, round trips and the way the
operations compose. *)

(** ** Bytes and CRC *)

(** [lo | (hi << 8)] for a byte [lo] *)
Lemma land_byte_shiftl (lo hi : Z) :
  0 <= lo < 256 -> Z.land lo (Z.shiftl hi 8) = 0.
Proof.
  intros Hlo. apply Z.bits_inj'. intros n Hn.
  rewrite Z.land_spec, Z.bits_0.
  destruct (Z.lt_ge_cases n 8) as [Hlt | Hge].
  - rewrite (Z.shiftl_spec_low hi 8 n) by lia. apply andb_false_r.
  - destruct (Z.eq_dec lo 0) as [-> | Hnz].
    + rewrite Z.bits_0. reflexivity.
    + rewrite (Z.bits_above_log2 lo n); [reflexivity | lia |].
      assert (Z.log2 lo < 8) by (apply Z.log2_lt_pow2; lia). lia.
Qed.

Lemma lor_shiftl_byte (lo hi : Z) :
  0 <= lo < 256 -> Z.lor lo (Z.shiftl hi 8) = lo + 256 * hi.
Proof.
  intros Hlo. rewrite <- Z.add_nocarry_lor by (apply land_byte_shiftl; lia).
  rewrite Z.shiftl_mul_pow2 by lia. change (2 ^ 8) with 256. lia.
Qed.

Lemma land_255 (x : Z) : Z.land x 0xFF = x mod 256.
Proof. change 0xFF with (Z.ones 8). rewrite Z.land_ones by lia. reflexivity. Qed.

Lemma crc_bytes_eq (v : Z) :
  0 <= v < 65536 -> crypto.crc_bytes v = [v mod 256; v / 256].
Proof.
  intros Hv. unfold crypto.crc_bytes. rewrite !land_255.
  rewrite Z.shiftr_div_pow2 by lia. change (2 ^ 8) with 256.
  rewrite (Z.mod_small (v / 256)); [reflexivity |].
  split; [apply Z.div_pos; lia | apply Z.div_lt_upper_bound; lia].
Qed.

(** [verify_crc16] on a buffer that ends in the bytes [lo], [hi] *)
Lemma verify_crc16_split (data : list Z) (lo hi : Z) :
  is_byte lo -> is_byte hi ->
  crypto.verify_crc16 (data ++ [lo; hi])
  = (crypto.compute_crc16 data CRC_INITIAL =? lo + 256 * hi).
Proof.
  unfold is_byte. intros Hlo Hhi.
  unfold crypto.verify_crc16.
  rewrite length_app. cbn [length].
  destruct (length data + 2 <? 2)%nat eqn:Hlen;
    [apply Nat.ltb_lt in Hlen; lia |].
  replace (length data + 2 - 2)%nat with (length data) by lia.
  replace (length data + 2 - 1)%nat with (S (length data)) by lia.
  rewrite take_app_length.
  rewrite !app_nth2 by lia.
  replace (length data - length data)%nat with 0%nat by lia.
  replace (S (length data) - length data)%nat with 1%nat by lia.
  cbn [nth].
  rewrite lor_shiftl_byte by lia.
  unfold u16. rewrite (Z.mod_small (lo + 256 * hi)) by lia. reflexivity.
Qed.

(** a buffer followed by the CRC bytes of its content passes *)
Lemma verify_crc16_crc_bytes (data : list Z) :
  Forall is_byte data ->
  crypto.verify_crc16 (data ++ crypto.crc_bytes (crypto.compute_crc16 data CRC_INITIAL))
  = true.
Proof.
  intros Hdata.
  pose proof (compute_crc16_range data CRC_INITIAL Hdata ltac:(unfold CRC_INITIAL; lia))
    as Hv.
  rewrite crc_bytes_eq by exact Hv.
  set (v := crypto.compute_crc16 data CRC_INITIAL) in *.
  assert (Hlo : is_byte (v mod 256)) by (apply Z.mod_pos_bound; lia).
  assert (Hhi : is_byte (v / 256)).
  { split; [apply Z.div_pos; lia | apply Z.div_lt_upper_bound; lia]. }
  rewrite verify_crc16_split by assumption. fold v.
  apply Z.eqb_eq. pose proof (Z.div_mod v 256 ltac:(lia)). lia.
Qed.

(** X1.  For a buffer of bytes that ends in the two bytes [lo], [hi],
    [verify_crc16] answers [true] exactly when [lo; hi] are the CRC bytes
    that [crc_bytes] stores for the CRC of the bytes before them (low byte
    first); buffers shorter than two bytes are refused. *)
Theorem verify_crc16_accepts_exactly (data : list Z) (lo hi : Z) :
  Forall is_byte data -> is_byte lo -> is_byte hi ->
  (crypto.verify_crc16 (data ++ [lo; hi]) = true
   <-> [lo; hi] = crypto.crc_bytes (crypto.compute_crc16 data CRC_INITIAL))
  /\ crypto.verify_crc16 [] = false
  /\ crypto.verify_crc16 [lo] = false.
Proof.
  intros Hdata Hlo Hhi. split; [| split; reflexivity].
  pose proof (compute_crc16_range data CRC_INITIAL Hdata ltac:(unfold CRC_INITIAL; lia))
    as Hv.
  rewrite crc_bytes_eq by exact Hv.
  rewrite verify_crc16_split by assumption.
  unfold is_byte in Hlo, Hhi.
  set (v := crypto.compute_crc16 data CRC_INITIAL) in *.
  rewrite Z.eqb_eq.
  split.
  - intros ->. f_equal; [| f_equal].
    + apply (Z.mod_unique_pos _ 256 hi lo); lia.
    + apply (Z.div_unique_pos _ 256 hi lo); lia.
  - intros Heq. injection Heq as -> ->.
    pose proof (Z.div_mod v 256 ltac:(lia)). lia.
Qed.

Lemma verify_crc16_accepts_exactly_witness :
  crypto.verify_crc16 (scenario.ascii_123456789 ++ [0x89; 0x21]) = true
  <-> [0x89; 0x21]
      = crypto.crc_bytes (crypto.compute_crc16 scenario.ascii_123456789 CRC_INITIAL).
Proof.
  apply (verify_crc16_accepts_exactly scenario.ascii_123456789 0x89 0x21).
  - repeat constructor; unfold is_byte; lia.
  - unfold is_byte; lia.
  - unfold is_byte; lia.
Defined.

(** X2.  [compute_crc16] can be run in pieces: the CRC of [a ++ b] from a
    start value is the CRC of [b] started from the CRC of [a], and for byte
    input and a 16-bit start value the result is again a 16-bit value. *)
Theorem compute_crc16_incremental (a b : list Z) (crc : Z) :
  Forall is_byte a -> Forall is_byte b -> 0 <= crc < 65536 ->
  crypto.compute_crc16 (a ++ b) crc
  = crypto.compute_crc16 b (crypto.compute_crc16 a crc)
  /\ 0 <= crypto.compute_crc16 (a ++ b) crc < 65536.
Proof.
  intros Ha Hb Hcrc. split.
  - unfold crypto.compute_crc16. apply fold_left_app.
  - apply compute_crc16_range; [apply Forall_app; split; assumption | exact Hcrc].
Qed.

Lemma compute_crc16_incremental_witness :
  crypto.compute_crc16 ([0x31; 0x32; 0x33] ++ [0x34; 0x35]) 0
  = crypto.compute_crc16 [0x34; 0x35] (crypto.compute_crc16 [0x31; 0x32; 0x33] 0)
  /\ 0 <= crypto.compute_crc16 ([0x31; 0x32; 0x33] ++ [0x34; 0x35]) 0 < 65536.
Proof.
  apply (compute_crc16_incremental [0x31; 0x32; 0x33] [0x34; 0x35] 0).
  - repeat constructor; unfold is_byte; lia.
  - repeat constructor; unfold is_byte; lia.
  - lia.
Defined.

(** ** Initial values *)

Lemma lor_below (n a b : Z) :
  0 <= n -> 0 <= a < 2 ^ n -> 0 <= b < 2 ^ n -> 0 <= Z.lor a b < 2 ^ n.
Proof.
  intros Hn Ha Hb.
  assert (H0 : 0 <= Z.lor a b) by (apply Z.lor_nonneg; lia).
  split; [exact H0|].
  destruct (Z.eq_dec (Z.lor a b) 0) as [->|Hne]; [lia|].
  apply Z.log2_lt_pow2; [lia|].
  rewrite Z.log2_lor by lia.
  apply Z.max_lub_lt.
  - destruct (Z.eq_dec a 0) as [->|]; [|apply Z.log2_lt_pow2; lia].
    destruct (Z.eq_dec n 0) as [->|]; [|cbn; lia].
    change (2 ^ 0) with 1 in *. replace b with 0 in Hne by lia. contradiction.
  - destruct (Z.eq_dec b 0) as [->|]; [|apply Z.log2_lt_pow2; lia].
    destruct (Z.eq_dec n 0) as [->|]; [|cbn; lia].
    change (2 ^ 0) with 1 in *. replace a with 0 in Hne by lia. contradiction.
Qed.

Lemma land_255_byte (x : Z) : is_byte (Z.land x 0xFF).
Proof. rewrite land_255. unfold is_byte. apply Z.mod_pos_bound. lia. Qed.

Lemma compute_checksum_bytes (frame_byte chksum1 chksum2 : Z) :
  is_byte frame_byte -> is_byte chksum1 -> is_byte chksum2 ->
  is_byte (fst (crypto.compute_checksum frame_byte chksum1 chksum2))
  /\ is_byte (snd (crypto.compute_checksum frame_byte chksum1 chksum2)).
Proof.
  intros Hb H1 H2. unfold crypto.compute_checksum.
  assert (Hor : forall x, is_byte (if 128 <=? Z.lxor frame_byte chksum2
                                   then Z.lor (Z.land x 0xFF) 1 else Z.land x 0xFF)).
  { intros x. pose proof (land_255_byte x) as Hx. destruct (_ <=? _); [|exact Hx].
    unfold is_byte in *. change 256 with (2 ^ 8). apply lor_below; lia. }
  destruct (Z.land chksum1 128 =? 0); cbn [fst snd].
  - split; [apply Hor | apply land_255_byte].
  - split; [| apply land_255_byte].
    unfold is_byte. change 256 with (2 ^ 8). apply lxor_below; [lia | apply Hor | lia].
Qed.

Lemma iv_checksums_bytes (frame_data : list Z) :
  Forall is_byte frame_data ->
  is_byte (fst (crypto.iv_checksums frame_data))
  /\ is_byte (snd (crypto.iv_checksums frame_data)).
Proof.
  unfold crypto.iv_checksums.
  assert (Hgen : forall l c, Forall is_byte l -> is_byte (fst c) /\ is_byte (snd c) ->
            let r := fold_left (fun '(chksum1, chksum2) b =>
                                  crypto.compute_checksum b chksum1 chksum2) l c in
            is_byte (fst r) /\ is_byte (snd r)).
  { induction l as [|b l IH]; intros c Hl Hc; [exact Hc|].
    inversion Hl as [|? ? Hb Hl']; subst. cbn [fold_left]. apply IH; [exact Hl'|].
    destruct c as [c1 c2]. apply compute_checksum_bytes; [exact Hb | apply Hc | apply Hc]. }
  intros Hl. apply Hgen; [exact Hl | cbn; unfold is_byte; lia].
Qed.

Lemma iv_process_eq (frame_data : list Z) :
  crypto.iv_process frame_data
  = (take 8 frame_data ++ replicate (16 - min 8 (length frame_data)) 0,
     fst (crypto.iv_checksums frame_data), snd (crypto.iv_checksums frame_data)).
Proof.
  induction frame_data as [|x l IH] using rev_ind; [reflexivity|].
  unfold crypto.iv_process, crypto.iv_checksums in *.
  rewrite imap_app, !fold_left_app. cbn [imap fold_left].
  rewrite IH. clear IH.
  destruct (fold_left _ l (0, 0)) as [c1 c2]. cbn [fst snd].
  destruct (crypto.compute_checksum x c1 c2) as [d1 d2]. cbn [fst snd].
  rewrite length_app. cbn [length].
  f_equal. f_equal.
  replace (length l + 0)%nat with (length l) by lia.
  destruct (decide (length l < 8)%nat) as [Hlt | Hge].
  - rewrite !take_ge by (rewrite ?length_app; cbn [length]; lia).
    rewrite insert_app_r_alt by lia.
    replace (length l - length l)%nat with 0%nat by lia.
    replace (16 - min 8 (length l))%nat with (S (16 - min 8 (length l + 1))) by lia.
    cbn [replicate]. rewrite <- app_assoc. reflexivity.
  - rewrite take_app_le by lia.
    replace (min 8 (length l + 1)) with (min 8 (length l)) by lia. reflexivity.
Qed.

Lemma iv_pad_fold (j : nat) : forall (k : nat) (p : list Z),
  length p = k -> (k + j <= 16)%nat ->
  fold_left (fun iv i => <[i := IV_PADDING]> iv) (seq k j) (p ++ replicate (16 - k) 0)
  = p ++ replicate j IV_PADDING ++ replicate (16 - k - j) 0.
Proof.
  induction j as [|j IH]; intros k p Hp Hk.
  - cbn [seq fold_left replicate app]. replace (16 - k - 0)%nat with (16 - k)%nat by lia.
    reflexivity.
  - cbn [seq fold_left].
    rewrite insert_app_r_alt by lia.
    replace (k - length p)%nat with 0%nat by lia.
    replace (16 - k)%nat with (S (16 - S k)) by lia.
    cbn [replicate].
    change (<[0%nat := IV_PADDING]> (0 :: replicate (16 - S k) 0))
      with (IV_PADDING :: replicate (16 - S k) 0).
    replace (p ++ IV_PADDING :: replicate (16 - S k) 0)
      with ((p ++ [IV_PADDING]) ++ replicate (16 - S k) 0)
      by (rewrite <- app_assoc; reflexivity).
    rewrite IH by (rewrite ?length_app; cbn [length]; lia).
    rewrite <- app_assoc. cbn [app replicate]. repeat f_equal.
Qed.

Lemma iv_head_eq (frame_data : list Z) :
  crypto.iv_head frame_data
  = take 8 (frame_data ++ replicate 8 IV_PADDING)
      ++ [fst (crypto.iv_checksums frame_data); snd (crypto.iv_checksums frame_data)]
      ++ replicate 6 0.
Proof.
  unfold crypto.iv_head. rewrite iv_process_eq.
  set (c1 := fst _). set (c2 := snd _).
  assert (Hpad : crypto.iv_pad (length frame_data)
                   (take 8 frame_data ++ replicate (16 - min 8 (length frame_data)) 0)
                 = take 8 (frame_data ++ replicate 8 IV_PADDING) ++ replicate 8 0).
  { unfold crypto.iv_pad.
    destruct (decide (length frame_data < 8)%nat) as [Hlt | Hge].
    - rewrite take_ge by lia.
      replace (min 8 (length frame_data)) with (length frame_data) by lia.
      rewrite iv_pad_fold by lia.
      rewrite take_app_ge by lia. rewrite take_replicate.
      replace (min (8 - length frame_data) 8) with (8 - length frame_data)%nat by lia.
      replace (16 - length frame_data - (8 - length frame_data))%nat with 8%nat by lia.
      rewrite <- app_assoc. reflexivity.
    - replace (8 - length frame_data)%nat with 0%nat by lia.
      cbn [seq fold_left].
      rewrite take_app_le by lia.
      replace (16 - min 8 (length frame_data))%nat with 8%nat by lia. reflexivity. }
  rewrite Hpad.
  assert (Hlen : length (take 8 (frame_data ++ replicate 8 IV_PADDING)) = 8%nat).
  { rewrite length_take, length_app, length_replicate. lia. }
  rewrite !insert_app_r_alt by (rewrite ?length_insert, ?length_app; lia).
  rewrite Hlen. reflexivity.
Qed.

Lemma iv_head_prefix_length (frame_data : list Z) :
  length (take 8 (frame_data ++ replicate 8 IV_PADDING)) = 8%nat.
Proof. rewrite length_take, length_app, length_replicate. lia. Qed.

Lemma construct_iv_1w_eq (frame_data sn : list Z) :
  (2 <= length sn)%nat ->
  crypto.construct_iv_1w frame_data (Some sn)
  = Val (take 8 (frame_data ++ replicate 8 IV_PADDING)
           ++ [fst (crypto.iv_checksums frame_data);
               snd (crypto.iv_checksums frame_data);
               nth 0 sn 0; nth 1 sn 0]
           ++ replicate 4 IV_PADDING).
Proof.
  intros Hsn. unfold crypto.construct_iv_1w. rewrite iv_head_eq.
  cbn [deref mbind exec_bind].
  rewrite (load_in_range sn 0), (load_in_range sn 1) by lia.
  cbn [mbind exec_bind seq fold_left].
  pose proof (iv_head_prefix_length frame_data) as Hlen.
  rewrite !insert_app_r_alt by (rewrite ?length_insert, ?length_app; lia).
  rewrite Hlen. reflexivity.
Qed.

Lemma construct_iv_2w_eq (frame_data ch : list Z) :
  (6 <= length ch)%nat ->
  crypto.construct_iv_2w frame_data (Some ch)
  = Val (take 8 (frame_data ++ replicate 8 IV_PADDING)
           ++ [fst (crypto.iv_checksums frame_data);
               snd (crypto.iv_checksums frame_data)]
           ++ take 6 ch).
Proof.
  intros Hch. unfold crypto.construct_iv_2w. rewrite iv_head_eq.
  cbn [deref mbind exec_bind]. change (Z.to_nat HMAC_SIZE) with 6%nat.
  rewrite load_range_in_range by lia.
  cbn [mbind exec_bind drop].
  pose proof (iv_head_prefix_length frame_data) as Hlen.
  rewrite take_app_ge by lia. rewrite Hlen.
  rewrite <- app_assoc. reflexivity.
Qed.

(** X3.  The initial value of a 1W tag: bytes 0-7 are the first eight bytes
    of the frame data, padded with 0x55 when there are fewer; bytes 8 and 9
    are the two checksum accumulators over all of the frame data; bytes 10
    and 11 are the sequence number; bytes 12-15 are 0x55.  A null or
    one-byte sequence number is read out of bounds. *)
Theorem construct_iv_1w_layout (frame_data : list Z) :
  (forall sn, (2 <= length sn)%nat ->
     crypto.construct_iv_1w frame_data (Some sn)
     = Val (take 8 (frame_data ++ replicate 8 IV_PADDING)
              ++ [fst (crypto.iv_checksums frame_data);
                  snd (crypto.iv_checksums frame_data);
                  nth 0 sn 0; nth 1 sn 0]
              ++ replicate 4 IV_PADDING))
  /\ (forall sn, (length sn < 2)%nat ->
        crypto.construct_iv_1w frame_data (Some sn) = Fault)
  /\ crypto.construct_iv_1w frame_data None = Fault.
Proof.
  split; [intros sn Hsn; apply construct_iv_1w_eq; exact Hsn|].
  split; [|reflexivity].
  intros sn Hsn. unfold crypto.construct_iv_1w. cbn [deref mbind exec_bind].
  destruct sn as [|s0 [|s1 sn]]; [reflexivity | reflexivity | cbn in Hsn; lia].
Qed.

(** X4.  The initial value of a 2W tag shares bytes 0-9 with the 1W one
    (frame data padded with 0x55, then the two checksums); bytes 10-15 are
    the six challenge bytes.  A null challenge, or one shorter than six
    bytes, is read out of bounds. *)
Theorem construct_iv_2w_layout (frame_data : list Z) :
  (forall ch, (6 <= length ch)%nat ->
     crypto.construct_iv_2w frame_data (Some ch)
     = Val (take 8 (frame_data ++ replicate 8 IV_PADDING)
              ++ [fst (crypto.iv_checksums frame_data);
                  snd (crypto.iv_checksums frame_data)]
              ++ take 6 ch)
     /\ forall sn, (2 <= length sn)%nat ->
          exists iv1 iv2,
            crypto.construct_iv_1w frame_data (Some sn) = Val iv1
            /\ crypto.construct_iv_2w frame_data (Some ch) = Val iv2
            /\ take 10 iv1 = take 10 iv2)
  /\ (forall ch, (length ch < 6)%nat ->
        crypto.construct_iv_2w frame_data (Some ch) = Fault)
  /\ crypto.construct_iv_2w frame_data None = Fault.
Proof.
  pose proof (iv_head_prefix_length frame_data) as Hlen.
  split; [|split; [|reflexivity]].
  - intros ch Hch. split; [apply construct_iv_2w_eq; exact Hch|].
    intros sn Hsn. eexists _, _.
    split; [apply construct_iv_1w_eq; exact Hsn|].
    split; [apply construct_iv_2w_eq; exact Hch|].
    rewrite !(take_app_ge (take 8 (frame_data ++ replicate 8 IV_PADDING))) by lia.
    rewrite Hlen. reflexivity.
  - intros ch Hch. unfold crypto.construct_iv_2w. cbn [deref mbind exec_bind].
    change (Z.to_nat HMAC_SIZE) with 6%nat.
    unfold load_range. destruct (decide _) as [Hle | _]; [lia | reflexivity].
Qed.

(** X5.  Over byte inputs [compute_checksum] keeps both accumulators in
    byte range, so the initial values that [construct_iv_1w] and
    [construct_iv_2w] return are blocks of exactly 16 bytes. *)
Theorem construct_iv_is_block (frame_data binding : list Z) (is_2w : bool) (iv : list Z) :
  Forall is_byte frame_data -> Forall is_byte binding ->
  (if is_2w then crypto.construct_iv_2w frame_data (Some binding)
   else crypto.construct_iv_1w frame_data (Some binding)) = Val iv ->
  length iv = 16%nat /\ Forall is_byte iv.
Proof.
  intros Hfd Hb Hiv.
  pose proof (iv_head_prefix_length frame_data) as Hlen.
  pose proof (iv_checksums_bytes frame_data Hfd) as [Hc1 Hc2].
  assert (Hpre : Forall is_byte (take 8 (frame_data ++ replicate 8 IV_PADDING))).
  { apply Forall_take, Forall_app. split; [exact Hfd|].
    apply Forall_replicate. unfold is_byte, IV_PADDING. lia. }
  destruct is_2w.
  - destruct (decide (6 <= length binding)%nat) as [Hle | Hgt].
    + rewrite construct_iv_2w_eq in Hiv by exact Hle. injection Hiv as <-.
      split.
      * rewrite length_app. cbn [length app].
        rewrite ?length_take, ?length_app, ?length_replicate. cbn [length]. lia.
      * apply Forall_app. split; [exact Hpre|].
        do 2 (constructor; [assumption|]). apply Forall_take. exact Hb.
    + unfold crypto.construct_iv_2w, load_range in Hiv. cbn [deref mbind exec_bind] in Hiv.
      change (Z.to_nat HMAC_SIZE) with 6%nat in Hiv.
      destruct (decide _) as [Hle | _] in Hiv; [lia | discriminate].
  - destruct (decide (2 <= length binding)%nat) as [Hle | Hgt].
    + rewrite construct_iv_1w_eq in Hiv by exact Hle. injection Hiv as <-.
      split.
      * rewrite length_app. cbn [length app].
        rewrite ?length_take, ?length_app, ?length_replicate. cbn [length]. lia.
      * apply Forall_app. split; [exact Hpre|].
        destruct binding as [|s0 [|s1 binding]]; [cbn in Hle; lia | cbn in Hle; lia |].
        inversion Hb as [|? ? Hs0 Hb']; subst. inversion Hb' as [|? ? Hs1 _]; subst.
        cbn [nth]. do 4 (constructor; [assumption|]).
        repeat (constructor; [unfold is_byte, IV_PADDING; lia|]). constructor.
    + unfold crypto.construct_iv_1w in Hiv. cbn [deref mbind exec_bind] in Hiv.
      destruct binding as [|s0 [|s1 binding]]; [discriminate | discriminate |].
      cbn in Hgt. lia.
Qed.

Lemma construct_iv_is_block_witness :
  length [0x60; 50; 0x00; 0x55; 0x55; 0x55; 0x55; 0x55; 3; 200;
          0x07; 0x00; 0x55; 0x55; 0x55; 0x55] = 16%nat
  /\ Forall is_byte [0x60; 50; 0x00; 0x55; 0x55; 0x55; 0x55; 0x55; 3; 200;
                     0x07; 0x00; 0x55; 0x55; 0x55; 0x55].
Proof.
  apply (construct_iv_is_block [0x60; 50; 0x00] [0x07; 0x00] false).
  - repeat constructor; unfold is_byte; lia.
  - repeat constructor; unfold is_byte; lia.
  - reflexivity.
Defined.

(** ** Tags and key envelopes *)

Lemma hmac_diff_zero (calc recv : list Z) :
  fold_left (fun diff i => Z.lor diff (Z.lxor (nth i calc 0) (nth i recv 0)))
            (seq 0 (Z.to_nat HMAC_SIZE)) 0 = 0
  <-> forall i, (i < 6)%nat -> nth i calc 0 = nth i recv 0.
Proof.
  change (seq 0 (Z.to_nat HMAC_SIZE)) with [0; 1; 2; 3; 4; 5]%nat.
  cbn [fold_left]. rewrite !Z.lor_eq_0_iff, !Z.lxor_eq_0_iff.
  split.
  - intros [[[[[[_ H0] H1] H2] H3] H4] H5] i Hi.
    do 6 (destruct i as [|i]; [assumption|]). lia.
  - intros Hall. repeat split; try reflexivity; apply Hall; lia.
Qed.

Lemma xor_key_length (A E : list Z) : length (crypto.xor_key A E) = 16%nat.
Proof. unfold crypto.xor_key. rewrite length_map, length_seq. reflexivity. Qed.

Lemma xor_key_involution (K E : list Z) :
  length K = 16%nat -> crypto.xor_key (crypto.xor_key K E) E = K.
Proof.
  intros HK.
  do 17 (destruct K as [|? K]; try discriminate HK).
  unfold crypto.xor_key. change (seq 0 (Z.to_nat AES_KEY_SIZE)) with (seq 0 16).
  cbn [seq map nth]. rewrite !lxor_cancel. reflexivity.
Qed.

Section Tags.
Context `{AesBackend}.

(** X6.  [verify_hmac] answers [true] exactly when the tag it computes
    itself, with [create_2w_hmac] or [create_1w_hmac] as [is_2w] says, agrees
    with the received one in each of the six bytes; it answers [false] when
    AES fails, and a tag made by the create function always verifies. *)
Theorem verify_hmac_accepts_exactly (frame_data received_hmac : list Z)
    (binding : ptr (list Z)) (system_key : list Z) (is_2w : bool) :
  let create :=
    if is_2w then crypto.create_2w_hmac frame_data binding system_key
    else crypto.create_1w_hmac frame_data binding system_key in
  (crypto.verify_hmac frame_data received_hmac binding system_key is_2w = Val true
   <-> exists calc, create = Val (Some calc)
         /\ forall i, (i < 6)%nat -> nth i calc 0 = nth i received_hmac 0)
  /\ (create = Val None ->
      crypto.verify_hmac frame_data received_hmac binding system_key is_2w = Val false)
  /\ (forall tag, create = Val (Some tag) ->
        crypto.verify_hmac frame_data tag binding system_key is_2w = Val true).
Proof.
  intros create. unfold crypto.verify_hmac. fold create.
  split; [|split].
  - destruct create as [[calc|]|]; cbn [mbind exec_bind].
    + split.
      * intros Hv. exists calc. split; [reflexivity|].
        apply hmac_diff_zero. apply Z.eqb_eq. congruence.
      * intros (calc' & Hc & Hall). injection Hc as <-.
        f_equal. apply Z.eqb_eq. apply hmac_diff_zero. exact Hall.
    + split; [discriminate | intros (calc & Hc & _); discriminate].
    + split; [discriminate | intros (calc & Hc & _); discriminate].
  - intros ->. reflexivity.
  - intros tag ->. cbn [mbind exec_bind]. f_equal. apply Z.eqb_eq.
    apply hmac_diff_zero. reflexivity.
Qed.

(** X7.  [encrypt_2w_key] is its own inverse on 16-byte keys: applied with
    the same challenge to the envelope it produced, it gives back the key.
    It reads only the first six challenge bytes, and fails exactly when AES
    under [TRANSFER_KEY] fails. *)
Theorem key_transfer_envelope_2w (K challenge : list Z) :
  length K = 16%nat ->
  (forall env, crypto.encrypt_2w_key K challenge = Some env ->
     length env = 16%nat /\ crypto.encrypt_2w_key env challenge = Some K)
  /\ crypto.encrypt_2w_key K (take 6 challenge) = crypto.encrypt_2w_key K challenge
  /\ (crypto.encrypt_2w_key K challenge = None
      <-> crypto.aes128_encrypt
            (replicate 10 IV_PADDING ++ take 6 challenge) TRANSFER_KEY = None).
Proof.
  intros HK. unfold crypto.encrypt_2w_key.
  change (Z.to_nat HMAC_SIZE) with 6%nat.
  change (take 10 (replicate 16 IV_PADDING)) with (replicate 10 IV_PADDING).
  rewrite take_take. change (6 `min` 6)%nat with 6%nat.
  split; [|split; [reflexivity|]].
  - intros env Henv.
    destruct (crypto.aes128_encrypt _ TRANSFER_KEY) as [E|]; [|discriminate].
    injection Henv as <-.
    split; [apply xor_key_length|]. rewrite xor_key_involution by exact HK. reflexivity.
  - destruct (crypto.aes128_encrypt _ TRANSFER_KEY) as [E|]; split; congruence.
Qed.

End Tags.

Lemma key_transfer_envelope_2w_witness :
  crypto.encrypt_2w_key (crypto.xor_key scenario.system_key
                           (Fips197.encrypt_block TRANSFER_KEY
                              (replicate 10 IV_PADDING ++ scenario.challenge)))
                        scenario.challenge
  = Some scenario.system_key.
Proof.
  destruct (key_transfer_envelope_2w scenario.system_key scenario.challenge eq_refl)
    as (Hback & _ & _).
  apply (Hback _ eq_refl).
Defined.

(** ** Parsing *)

Lemma take_1_drop (l : list Z) (i : nat) :
  (i < length l)%nat -> [nth i l 0] = take 1 (drop i l).
Proof.
  revert i. induction l as [|x l IH]; intros i Hi; [cbn in Hi; lia|].
  destruct i as [|i]; [reflexivity|]. cbn [nth drop]. apply IH. cbn in Hi. lia.
Qed.

Lemma take_drop_join (l : list Z) (a b c : nat) :
  c = (a + b)%nat -> take a l ++ take b (drop a l) = take c l.
Proof. intros ->. apply take_take_drop. Qed.

(** what [parse_frame] stores in each field of the frame it returns *)
Lemma parse_frame_fields (buffer : list Z) (f : IoFrame) :
  parse_frame buffer = Val (Some f) ->
  let n := Z.to_nat (data_len f) in
  let off := (9 + n + (if is_1w_mode f then 2 else 0))%nat in
  ctrl_byte_0 f = nth 0 buffer 0
  /\ ctrl_byte_1 f = nth 1 buffer 0
  /\ dest_node f = take 3 (drop 2 buffer)
  /\ src_node f = take 3 (drop 5 buffer)
  /\ command_id f = nth 8 buffer 0
  /\ data f = take n (drop 9 buffer) ++ replicate (21 - n) 0
  /\ rolling_code f = (if is_1w_mode f then take 2 (drop (9 + n) buffer) else [0; 0])
  /\ hmac f = take 6 (drop off buffer)
  /\ crc f = take 2 (drop (off + 6) buffer)
  /\ is_1w_mode f = negb (is_2w_mode (nth 0 buffer 0))
  /\ frame_length f = get_frame_length (nth 0 buffer 0)
  /\ data_len f = frame_length f - length_overhead (is_1w_mode f)
  /\ 0 <= data_len f <= FRAME_MAX_DATA_SIZE
  /\ frame_length f = Z.of_nat off + 9
  /\ frame_length f <= Z.of_nat (length buffer).
Proof.
  unfold parse_frame.
  destruct (Z.ltb_spec (Z.of_nat (length buffer)) FRAME_MIN_SIZE) as [Hshort|Hmin];
    [discriminate|].
  unfold FRAME_MIN_SIZE in Hmin.
  rewrite (load_in_range buffer 0), (load_in_range buffer 1) by lia.
  cbn [mbind exec_bind].
  set (c0 := nth 0 buffer 0).
  pose proof (get_frame_length_range c0) as Hfl.
  destruct (Z.ltb_spec (Z.of_nat (length buffer)) (get_frame_length c0))
    as [Hcut|Hlen]; [discriminate|].
  rewrite (load_range_in_range buffer 2 3), (load_range_in_range buffer 5 3) by lia.
  cbn [mbind exec_bind].
  rewrite (load_in_range buffer 8) by lia. cbn [mbind exec_bind].
  set (is_1w := negb (is_2w_mode c0)).
  destruct (Z.ltb_spec FRAME_MAX_DATA_SIZE
              (u8 (get_frame_length c0 - length_overhead is_1w)))
    as [Hbig|Hdl]; [discriminate|].
  assert (Hoc : 18 <= length_overhead is_1w <= 20)
    by (rewrite length_overhead_cases; destruct is_1w; lia).
  assert (Hov : length_overhead is_1w <= get_frame_length c0).
  { destruct (Z.le_gt_cases (length_overhead is_1w) (get_frame_length c0))
      as [?|Hneg]; [assumption|].
    pose proof (wrapped_data_len _ is_1w Hfl ltac:(lia)). lia. }
  assert (Hu8 : u8 (get_frame_length c0 - length_overhead is_1w)
                = get_frame_length c0 - length_overhead is_1w).
  { unfold u8. apply Z.mod_small. lia. }
  rewrite Hu8 in *. unfold FRAME_MAX_DATA_SIZE in Hdl.
  pose proof (length_overhead_cases is_1w) as Hoc'.
  set (n := Z.to_nat (get_frame_length c0 - length_overhead is_1w)).
  assert (Hdata : memcpy (replicate 21 0) (take n (drop 9 buffer)) n
                  = take n (drop 9 buffer) ++ replicate (21 - n) 0).
  { unfold memcpy. rewrite take_take, drop_replicate.
    replace (n `min` n)%nat with n by lia. reflexivity. }
  destruct is_1w eqn:E1w.
  - repeat (rewrite load_range_in_range by lia; cbn [mbind exec_bind]).
    match goal with
    | |- Val (Some ?g) = _ -> _ => intros Hf; assert (Hg : f = g) by congruence
    end.
    clear Hf. subst f.
    cbn [ctrl_byte_0 ctrl_byte_1 dest_node src_node command_id data data_len
         rolling_code hmac crc is_1w_mode frame_length].
    fold n. rewrite Hdata. unfold FRAME_MAX_DATA_SIZE.
    repeat split; try reflexivity; try lia.
  - repeat (rewrite load_range_in_range by lia; cbn [mbind exec_bind]).
    match goal with
    | |- Val (Some ?g) = _ -> _ => intros Hf; assert (Hg : f = g) by congruence
    end.
    clear Hf. subst f.
    cbn [ctrl_byte_0 ctrl_byte_1 dest_node src_node command_id data data_len
         rolling_code hmac crc is_1w_mode frame_length].
    fold n. rewrite Hdata. unfold FRAME_MAX_DATA_SIZE.
    replace (9 + n + 0)%nat with (9 + n)%nat by lia.
    repeat split; try reflexivity; try lia.
Qed.

Lemma parse_frame_sized (buffer : list Z) (f : IoFrame) :
  parse_frame buffer = Val (Some f) -> sized f.
Proof.
  intros Hp.
  destruct (parse_frame_fields buffer f Hp)
    as (_ & _ & Hd & Hs & _ & Hdata & Hrc & Hh & Hc & _ & _ & _ & Hdl & Hoff & Hlen).
  unfold FRAME_MAX_DATA_SIZE in Hdl.
  unfold sized. rewrite Hd, Hs, Hdata, Hrc, Hh, Hc.
  rewrite length_app, !length_take, !length_drop, length_replicate.
  destruct (is_1w_mode f);
    rewrite ?length_take, ?length_drop; cbn [length]; repeat split; lia.
Qed.

(** X8.  A frame that [parse_frame] returns has its fields taken from fixed
    places of the buffer: Ctrl0, Ctrl1, destination, source and command
    from bytes 0-8, then [data_len] parameter bytes, the rolling code (1W
    only), six tag bytes and two CRC bytes; the parameter count is the
    Ctrl0 length minus the fixed part, mode and length agree with Ctrl0,
    every array field has its declared size, the unused part of [data] is
    zero, and fields read from bytes are bytes. *)
Theorem parse_frame_reads_fields (buffer : list Z) (f : IoFrame) :
  parse_frame buffer = Val (Some f) ->
  let n := Z.to_nat (data_len f) in
  let off := (9 + n + (if is_1w_mode f then 2 else 0))%nat in
  (ctrl_byte_0 f = nth 0 buffer 0
   /\ ctrl_byte_1 f = nth 1 buffer 0
   /\ dest_node f = take 3 (drop 2 buffer)
   /\ src_node f = take 3 (drop 5 buffer)
   /\ command_id f = nth 8 buffer 0
   /\ data f = take n (drop 9 buffer) ++ replicate (21 - n) 0
   /\ rolling_code f = (if is_1w_mode f then take 2 (drop (9 + n) buffer) else [0; 0])
   /\ hmac f = take 6 (drop off buffer)
   /\ crc f = take 2 (drop (off + 6) buffer))
  /\ (is_1w_mode f = negb (is_2w_mode (ctrl_byte_0 f))
      /\ frame_length f = get_frame_length (ctrl_byte_0 f)
      /\ data_len f = frame_length f - length_overhead (is_1w_mode f)
      /\ 0 <= data_len f <= FRAME_MAX_DATA_SIZE)
  /\ sized f
  /\ (Forall is_byte buffer -> byte_fields f).
Proof.
  intros Hp n off.
  pose proof (parse_frame_sized buffer f Hp) as Hsz.
  destruct (parse_frame_fields buffer f Hp)
    as (H0 & H1 & Hd & Hs & Hcmd & Hdata & Hrc & Hh & Hc & H1w & Hfl & Hdl & Hr & Hoff
        & Hlen).
  fold n in Hdata, Hrc, Hh, Hc, Hoff. fold off in Hh, Hc, Hoff.
  split; [repeat split; assumption|].
  split; [rewrite H0; repeat split; try assumption; apply Hr|].
  split; [exact Hsz|].
  intros Hb.
  assert (Hnth : forall i, (i < length buffer)%nat -> is_byte (nth i buffer 0)).
  { intros i Hi. apply (proj1 (List.Forall_nth is_byte buffer) Hb). exact Hi. }
  unfold FRAME_MAX_DATA_SIZE in Hr.
  unfold byte_fields. rewrite H0, H1, Hd, Hs, Hcmd, Hdata, Hrc, Hh, Hc.
  repeat split; try (apply Hnth; lia);
    try (apply Forall_take, Forall_drop; exact Hb).
  - apply Forall_app. split; [apply Forall_take, Forall_drop; exact Hb|].
    apply Forall_replicate. unfold is_byte. lia.
  - destruct (is_1w_mode f); [apply Forall_take, Forall_drop; exact Hb|].
    repeat constructor; unfold is_byte; lia.
Qed.

Lemma parse_frame_reads_fields_witness :
  sized scenario.position_frame
  /\ (Forall is_byte (scenario.position_bytes ++ [0x00])
      -> byte_fields scenario.position_frame).
Proof.
  destruct (parse_frame_reads_fields (scenario.position_bytes ++ [0x00])
              scenario.position_frame eq_refl) as (_ & _ & Hsz & Hb).
  split; [exact Hsz | exact Hb].
Defined.

Lemma parse_then_serialize (buffer : list Z) (f : IoFrame) (buffer_size : Z) :
  parse_frame buffer = Val (Some f) -> frame_length f <= buffer_size ->
  serialize_frame f buffer_size
  = Val (Some (take (Z.to_nat (frame_length f) - 1) buffer)).
Proof.
  intros Hp Hsize.
  pose proof (parse_frame_sized buffer f Hp) as (Ld & Ls & Ldata & Lrc & Lh & Lc).
  destruct (parse_frame_fields buffer f Hp)
    as (H0 & H1 & Hd & Hs & Hcmd & Hdata & Hrc & Hh & Hc & H1w & Hfl & Hdl & Hr & Hoff
        & Hlen).
  unfold FRAME_MAX_DATA_SIZE in Hr.
  set (n := Z.to_nat (data_len f)) in *.
  set (off := (9 + n + (if is_1w_mode f then 2 else 0))%nat) in *.
  unfold serialize_frame.
  destruct (Z.ltb_spec buffer_size (frame_length f)) as [|_]; [lia|].
  rewrite load_range_in_range by (fold n; lia). cbn [mbind exec_bind drop].
  fold n.
  set (bytes := _ ++ _).
  assert (Hbytes : bytes = take (off + 8) buffer).
  { subst bytes.
    rewrite (take_ge (dest_node f)), (take_ge (src_node f)), (take_ge (hmac f)),
      (take_ge (crc f)) by lia.
    rewrite drop_0, Hdata.
    rewrite take_app_le by (rewrite length_take, length_drop; lia).
    rewrite take_take.
    replace (n `min` n)%nat with n by lia.
    rewrite H0, H1, Hd, Hs, Hcmd, Hh, Hc.
    assert (Ht2 : [nth 0 buffer 0; nth 1 buffer 0] = take 2 buffer).
    { destruct buffer as [|b0 [|b1 buffer]]; [cbn in Hlen; lia | cbn in Hlen; lia |].
      reflexivity. }
    rewrite Ht2, (take_1_drop buffer 8) by lia.
    rewrite !app_assoc.
    rewrite (take_drop_join buffer 2 3 5), (take_drop_join buffer 5 3 8),
      (take_drop_join buffer 8 1 9), (take_drop_join buffer 9 n (9 + n)) by lia.
    destruct (is_1w_mode f) eqn:E.
    - rewrite (take_ge (rolling_code f)) by lia. rewrite Hrc.
      rewrite (take_drop_join buffer (9 + n) 2 (9 + n + 2)) by lia.
      subst off.
      rewrite (take_drop_join buffer (9 + n + 2) 6 (9 + n + 2 + 6)) by lia.
      apply take_drop_join. lia.
    - rewrite app_nil_r. subst off. rewrite Nat.add_0_r.
      rewrite (take_drop_join buffer (9 + n) 6 (9 + n + 6)) by lia.
      apply take_drop_join. lia. }
  rewrite Hbytes.
  destruct (decide _) as [Hbig|_].
  - rewrite length_take in Hbig. lia.
  - do 3 f_equal. lia.
Qed.

Section ParseValidate.
Context `{AesBackend}.

(** X9.  Serializing a frame that [parse_frame] returned gives back the
    received bytes up to, but without, the last byte of the length that
    Ctrl0 declares; so the CRC that [validate_frame] checks for a received
    frame is the one over all but the last three of the declared bytes,
    held in the two bytes before the last, and the last declared byte is
    never looked at. *)
Theorem parsed_frame_reserializes (buffer : list Z) (f : IoFrame) :
  parse_frame buffer = Val (Some f) ->
  let sent := take (Z.to_nat (frame_length f) - 1) buffer in
  (forall buffer_size, frame_length f <= buffer_size ->
     serialize_frame f buffer_size = Val (Some sent))
  /\ (frame_length f <= FRAME_MAX_SIZE ->
      validate_frame f None None = Val (crypto.verify_crc16 sent))
  /\ (FRAME_MAX_SIZE < frame_length f -> validate_frame f None None = Val false).
Proof.
  intros Hp sent.
  split; [intros sz Hsz; apply parse_then_serialize; assumption|].
  split.
  - intros Hle. unfold validate_frame.
    rewrite (parse_then_serialize buffer f FRAME_MAX_SIZE Hp Hle).
    cbn [mbind exec_bind]. fold sent. destruct (crypto.verify_crc16 sent); reflexivity.
  - intros Hgt. unfold validate_frame, serialize_frame.
    destruct (Z.ltb_spec FRAME_MAX_SIZE (frame_length f)) as [_|]; [reflexivity | lia].
Qed.

End ParseValidate.

Lemma parsed_frame_reserializes_witness :
  serialize_frame scenario.position_frame FRAME_MAX_SIZE
  = Val (Some scenario.position_bytes).
Proof.
  destruct (parsed_frame_reserializes (scenario.position_bytes ++ [0x00])
              scenario.position_frame eq_refl) as (Hs & _ & _).
  apply (Hs FRAME_MAX_SIZE). unfold FRAME_MAX_SIZE. cbn. lia.
Defined.

(** ** Finalizing and validating *)

(** [set_rolling_code] stores the same two bytes as [crc_bytes] *)
Lemma set_rolling_code_bytes (f : IoFrame) (code : Z) :
  0 <= code < 65536 ->
  rolling_code (set_rolling_code f code) = [code mod 256; code / 256].
Proof.
  intros Hc. change (rolling_code (set_rolling_code f code)) with (crypto.crc_bytes code).
  apply crc_bytes_eq. exact Hc.
Qed.

(** X10.  [set_rolling_code] stores a 16-bit counter low byte first and
    without loss: the two bytes are [code mod 256] and [code / 256], they
    recombine to [code], and no other field of the frame changes. *)
Theorem set_rolling_code_little_endian (f : IoFrame) (code : Z) :
  0 <= code < 65536 ->
  let f' := set_rolling_code f code in
  rolling_code f' = [code mod 256; code / 256]
  /\ Forall is_byte (rolling_code f')
  /\ nth 0 (rolling_code f') 0 + 256 * nth 1 (rolling_code f') 0 = code
  /\ set_rolling_code_field (rolling_code f) f' = set_rolling_code_field (rolling_code f) f.
Proof.
  intros Hc f'. subst f'. rewrite set_rolling_code_bytes by exact Hc. cbn [nth].
  split; [reflexivity|]. split; [|split; [|reflexivity]].
  - repeat constructor; try (apply Z.mod_pos_bound; lia);
      [apply Z.div_pos; lia | apply Z.div_lt_upper_bound; lia].
  - pose proof (Z.div_mod code 256 ltac:(lia)). lia.
Qed.

Lemma set_rolling_code_little_endian_witness :
  rolling_code (set_rolling_code scenario.position_unfinalized 0x0107) = [0x07; 0x01].
Proof.
  destruct (set_rolling_code_little_endian scenario.position_unfinalized 0x0107
              ltac:(lia)) as (Hrc & _).
  exact Hrc.
Defined.

Lemma serialize_frame_set_crc (f : IoFrame) (c : list Z) (buffer_size : Z)
    (temp : list Z) :
  length (crc f) = 2%nat -> length c = 2%nat ->
  serialize_frame f buffer_size = Val (Some temp) ->
  serialize_frame (set_crc c f) buffer_size
  = Val (Some (take (length temp - 2) temp ++ c)).
Proof.
  intros Hcrc Hc.
  unfold serialize_frame, load_range.
  cbn [set_crc ctrl_byte_0 ctrl_byte_1 dest_node src_node command_id data data_len
       rolling_code hmac crc is_1w_mode frame_length].
  destruct (buffer_size <? frame_length f); [discriminate|].
  destruct (decide (0 + Z.to_nat (data_len f) <= length (data f))%nat)
    as [Hd|Hd]; cbn [mbind exec_bind]; [|discriminate].
  rewrite (take_ge (crc f)), (take_ge c) by lia.
  set (A := [ctrl_byte_0 f; ctrl_byte_1 f] ++ take 3 (dest_node f)
              ++ take 3 (src_node f) ++ [command_id f]
              ++ take (Z.to_nat (data_len f)) (drop 0 (data f))
              ++ (if is_1w_mode f then take 2 (rolling_code f) else [])
              ++ take 6 (hmac f)).
  assert (HA : forall x,
             [ctrl_byte_0 f; ctrl_byte_1 f] ++ take 3 (dest_node f)
               ++ take 3 (src_node f) ++ [command_id f]
               ++ take (Z.to_nat (data_len f)) (drop 0 (data f))
               ++ (if is_1w_mode f then take 2 (rolling_code f) else [])
               ++ take 6 (hmac f) ++ x = A ++ x).
  { intros x. subst A. rewrite <- !app_assoc. reflexivity. }
  rewrite !HA.
  destruct (decide (buffer_size < Z.of_nat (length (A ++ crc f)))) as [|Hfit];
    [discriminate|].
  intros Heq. assert (Htemp : temp = A ++ crc f) by congruence. clear Heq. subst temp.
  rewrite (length_app A (crc f)), Hcrc in *.
  replace (length A + 2 - 2)%nat with (length A) by lia.
  rewrite take_app_length.
  destruct (decide _) as [Hbig|_]; [|reflexivity].
  rewrite length_app, Hc in Hbig. lia.
Qed.

(** the bytes that a frame's serialization is made of *)
Lemma byte_fields_serialized (f : IoFrame) (buffer_size : Z) (bytes : list Z) :
  byte_fields f -> serialize_frame f buffer_size = Val (Some bytes) ->
  Forall is_byte bytes.
Proof.
  intros (H0 & H1 & Hd & Hs & Hcmd & Hdata & Hrc & Hh & Hc) Hser.
  apply serialize_frame_bytes in Hser as [-> _].
  apply Forall_app; split; [do 2 (constructor; [assumption|]); constructor|].
  apply Forall_app; split; [apply Forall_take; assumption|].
  apply Forall_app; split; [apply Forall_take; assumption|].
  apply Forall_app; split; [constructor; [assumption | constructor]|].
  apply Forall_app; split; [apply Forall_take; assumption|].
  apply Forall_app; split;
    [destruct (is_1w_mode f); [apply Forall_take; assumption | constructor]|].
  apply Forall_app; split; apply Forall_take; assumption.
Qed.

Section Finalize.
Context `{AesBackend}.

(** the steps of a successful [finalize_frame] *)
Lemma finalize_frame_true (f f' : IoFrame) (system_key : list Z)
    (challenge : ptr (list Z)) :
  finalize_frame f system_key challenge = Val (true, f') ->
  exists frame_data h temp,
    frame_data_of f = Val frame_data
    /\ (if is_1w_mode f
        then crypto.create_1w_hmac frame_data (Some (rolling_code f)) system_key
        else crypto.create_2w_hmac frame_data challenge system_key) = Val (Some h)
    /\ (is_1w_mode f = false -> challenge <> None)
    /\ serialize_frame (set_hmac (memcpy (hmac f) h 6) f) FRAME_MAX_SIZE
       = Val (Some temp)
    /\ f' = set_crc (crypto.crc_bytes
                       (crypto.compute_crc16 (take (length temp - 2) temp) CRC_INITIAL))
                    (set_hmac (memcpy (hmac f) h 6) f).
Proof.
  unfold finalize_frame. change (Z.to_nat HMAC_SIZE) with 6%nat.
  change (Z.to_nat CRC_SIZE) with 2%nat.
  destruct (frame_data_of f) as [fd|]; cbn [mbind exec_bind]; [|discriminate].
  intros Hfin. exists fd.
  destruct (is_1w_mode f) eqn:E1w.
  - destruct (crypto.create_1w_hmac fd (Some (rolling_code f)) system_key)
      as [[h|]|]; cbn [mbind exec_bind] in Hfin; try discriminate.
    destruct (serialize_frame _ FRAME_MAX_SIZE) as [[temp|]|] eqn:Hser;
      cbn [mbind exec_bind] in Hfin; try discriminate.
    injection Hfin as <-. exists h, temp. repeat split; try assumption. discriminate.
  - destruct challenge as [ch|]; cbn [mbind exec_bind] in Hfin; [|discriminate].
    destruct (crypto.create_2w_hmac fd (Some ch) system_key)
      as [[h|]|]; cbn [mbind exec_bind] in Hfin; try discriminate.
    destruct (serialize_frame _ FRAME_MAX_SIZE) as [[temp|]|] eqn:Hser;
      cbn [mbind exec_bind] in Hfin; try discriminate.
    injection Hfin as <-. exists h, temp. repeat split; try assumption. discriminate.
Qed.

Lemma create_hmac_length (frame_data : list Z) (binding : ptr (list Z))
    (system_key h : list Z) (is_1w : bool) :
  (if is_1w then crypto.create_1w_hmac frame_data binding system_key
   else crypto.create_2w_hmac frame_data binding system_key) = Val (Some h) ->
  take 6 h = h.
Proof.
  unfold crypto.create_1w_hmac, crypto.create_2w_hmac.
  change (Z.to_nat HMAC_SIZE) with 6%nat.
  destruct is_1w.
  - destruct (crypto.construct_iv_1w _ _) as [iv|]; cbn [mbind exec_bind];
      [|discriminate].
    destruct (crypto.aes128_encrypt iv system_key); [|discriminate].
    intros [= <-]. rewrite take_take. reflexivity.
  - destruct (crypto.construct_iv_2w _ _) as [iv|]; cbn [mbind exec_bind];
      [|discriminate].
    destruct (crypto.aes128_encrypt iv system_key); [|discriminate].
    intros [= <-]. rewrite take_take. reflexivity.
Qed.

(** a frame that [finalize_frame] completed passes [validate_frame] *)
Lemma finalize_then_validate (f f' : IoFrame) (system_key : list Z)
    (challenge : ptr (list Z)) (bytes : list Z) :
  length (hmac f) = 6%nat -> length (crc f) = 2%nat ->
  finalize_frame f system_key challenge = Val (true, f') ->
  serialize_frame f' FRAME_MAX_SIZE = Val (Some bytes) ->
  Forall is_byte bytes ->
  validate_frame f' None None = Val true
  /\ validate_frame f' (Some system_key) challenge = Val true.
Proof.
  intros Hhl Hcl Hfin Hser Hbytes.
  destruct (finalize_frame_true f f' system_key challenge Hfin)
    as (fd & h & temp & Hfd & Hcreate & Hch & Htemp & ->).
  set (f1 := set_hmac (memcpy (hmac f) h 6) f) in *.
  set (A := take (length temp - 2) temp) in *.
  set (v := crypto.compute_crc16 A CRC_INITIAL) in *.
  assert (Hser' : serialize_frame (set_crc (crypto.crc_bytes v) f1) FRAME_MAX_SIZE
                  = Val (Some (A ++ crypto.crc_bytes v))).
  { apply serialize_frame_set_crc; [exact Hcl | reflexivity | exact Htemp]. }
  rewrite Hser' in Hser. injection Hser as <-.
  assert (HA : Forall is_byte A) by (apply Forall_app in Hbytes; apply Hbytes).
  assert (Hcrc : crypto.verify_crc16 (A ++ crypto.crc_bytes v) = true)
    by (apply verify_crc16_crc_bytes; exact HA).
  unfold validate_frame. rewrite Hser'. cbn [mbind exec_bind]. rewrite Hcrc.
  cbn [negb]. split; [reflexivity|].
  change (frame_data_of (set_crc (crypto.crc_bytes v) f1)) with (frame_data_of f).
  rewrite Hfd. cbn [mbind exec_bind].
  change (is_1w_mode (set_crc (crypto.crc_bytes v) f1)) with (is_1w_mode f).
  change (rolling_code (set_crc (crypto.crc_bytes v) f1)) with (rolling_code f).
  change (hmac (set_crc (crypto.crc_bytes v) f1)) with (memcpy (hmac f) h 6).
  assert (Htag : memcpy (hmac f) h 6 = h).
  { unfold memcpy. rewrite drop_ge by lia. rewrite app_nil_r.
    destruct (is_1w_mode f).
    - exact (create_hmac_length fd (Some (rolling_code f)) system_key h true Hcreate).
    - exact (create_hmac_length fd challenge system_key h false Hcreate). }
  rewrite Htag. unfold crypto.verify_hmac.
  destruct (is_1w_mode f); cbn [negb]; rewrite Hcreate; cbn [mbind exec_bind];
    f_equal; apply Z.eqb_eq; apply hmac_diff_zero; reflexivity.
Qed.

(** X11.  A frame completed by [finalize_frame] passes [validate_frame],
    with the key that finalized it (and, for 2W, the same challenge) as well
    as without a key, provided its tag and CRC arrays have their declared
    sizes and every field of the finalized frame holds bytes. *)
Theorem finalized_frame_validates (f f' : IoFrame) (system_key : list Z)
    (challenge : ptr (list Z)) :
  sized f -> byte_fields f' ->
  finalize_frame f system_key challenge = Val (true, f') ->
  validate_frame f' None None = Val true
  /\ validate_frame f' (Some system_key) challenge = Val true
  /\ (is_1w_mode f' = false -> challenge <> None).
Proof.
  intros (_ & _ & _ & _ & Hhl & Hcl) Hb Hfin.
  destruct (finalize_frame_true f f' system_key challenge Hfin)
    as (fd & h & temp & Hfd & Hcreate & Hch & Htemp & Hf').
  assert (Hser : serialize_frame f' FRAME_MAX_SIZE
                 = Val (Some (take (length temp - 2) temp
                                ++ crypto.crc_bytes
                                     (crypto.compute_crc16
                                        (take (length temp - 2) temp) CRC_INITIAL)))).
  { rewrite Hf'. apply serialize_frame_set_crc; [exact Hcl | reflexivity | exact Htemp]. }
  destruct (finalize_then_validate f f' system_key challenge _ Hhl Hcl Hfin Hser
              (byte_fields_serialized f' _ _ Hb Hser)) as [Hv1 Hv2].
  split; [exact Hv1|]. split; [exact Hv2|].
  rewrite Hf'. exact Hch.
Qed.

(** a successful [finalize_frame] means that the frame fits the buffer *)
Lemma finalize_frame_fits (f f' : IoFrame) (system_key : list Z)
    (challenge : ptr (list Z)) :
  finalize_frame f system_key challenge = Val (true, f') ->
  frame_length f <= FRAME_MAX_SIZE.
Proof.
  intros Hfin.
  destruct (finalize_frame_true f f' system_key challenge Hfin)
    as (fd & h & temp & _ & _ & _ & Htemp & _).
  unfold serialize_frame in Htemp.
  cbn [set_hmac frame_length] in Htemp.
  destruct (Z.ltb_spec FRAME_MAX_SIZE (frame_length f)); [discriminate | assumption].
Qed.

(** X12.  [set_command] accepts up to 21 parameter bytes, but a frame with
    more than 12 (1W) or 14 (2W) of them is longer than the 32-byte buffer
    that [finalize_frame] serializes into: for such a frame [finalize_frame]
    never returns [true], whatever the key and the challenge. *)
Theorem finalize_frame_capacity (is_1w : bool) (dest src params : list Z)
    (cmd_id code : Z) (system_key : list Z) (challenge : ptr (list Z)) (f' : IoFrame) :
  (if is_1w then 12 else 14) < Z.of_nat (length params) <= FRAME_MAX_DATA_SIZE ->
  let r := set_command (set_source (set_destination (init_frame is_1w) dest) src)
                       cmd_id (Some params) (Z.of_nat (length params)) in
  let f := if is_1w then set_rolling_code (snd r) code else snd r in
  fst r = true
  /\ get_frame_length (ctrl_byte_0 f) = frame_length f
  /\ FRAME_MAX_SIZE < frame_length f
  /\ finalize_frame f system_key challenge <> Val (true, f').
Proof.
  intros Hn r f.
  destruct (set_command_built is_1w dest src params cmd_id ltac:(lia))
    as (Hok & H1w & Hdl & Hfl & Hland & _).
  fold r in Hok, H1w, Hdl, Hfl, Hland.
  assert (Hfl' : frame_length f = Z.of_nat (length params) + length_overhead is_1w)
    by (subst f; destruct is_1w; exact Hfl).
  assert (Hc0 : ctrl_byte_0 f = ctrl_byte_0 (snd r)) by (subst f; destruct is_1w; reflexivity).
  pose proof (length_overhead_cases is_1w) as Hoc.
  split; [exact Hok|]. split; [|split].
  - rewrite Hc0, get_frame_length_eq, Hland, Hfl', Hfl. unfold FRAME_MIN_SIZE. lia.
  - rewrite Hfl', Hoc. unfold FRAME_MAX_SIZE. destruct is_1w; lia.
  - intros Hfin. apply finalize_frame_fits in Hfin.
    rewrite Hfl', Hoc in Hfin. unfold FRAME_MAX_SIZE in Hfin. destruct is_1w; lia.
Qed.

End Finalize.

Lemma finalized_frame_validates_witness :
  validate_frame scenario.position_frame None None = Val true
  /\ validate_frame scenario.position_frame (Some scenario.system_key) None = Val true.
Proof.
  destruct (finalized_frame_validates
              (set_rolling_code scenario.position_unfinalized 0x0007)
              scenario.position_frame scenario.system_key None) as (Hv1 & Hv2 & _).
  - unfold sized. repeat split; reflexivity.
  - unfold byte_fields, is_byte; cbn. repeat split; try lia;
      repeat constructor; lia.
  - vm_compute. reflexivity.
  - split; [exact Hv1 | exact Hv2].
Defined.

Lemma finalize_frame_capacity_witness :
  finalize_frame
    (set_rolling_code
       (snd (set_command
               (set_source (set_destination (init_frame true) [0x64; 0x65; 0x75])
                           [0xAB; 0xCD; 0xEF])
               CMD_SET_POSITION (Some (replicate 13 0)) 13)) 7)
    scenario.system_key None
  <> Val (true, scenario.position_frame).
Proof.
  destruct (finalize_frame_capacity true [0x64; 0x65; 0x75] [0xAB; 0xCD; 0xEF]
              (replicate 13 0) CMD_SET_POSITION 7 scenario.system_key None
              scenario.position_frame) as (_ & _ & _ & Hno).
  - cbn. unfold FRAME_MAX_DATA_SIZE. lia.
  - exact Hno.
Defined.

(** ** Built frames *)

(** the fields that [set_command] leaves as the earlier calls set them *)
Lemma set_command_keeps (is_1w : bool) (dest src : list Z) (cmd_id : Z)
    (params : ptr (list Z)) (params_len : Z) :
  let f := snd (set_command (set_source (set_destination (init_frame is_1w) dest) src)
                            cmd_id params params_len) in
  ctrl_byte_1 f = 0
  /\ dest_node f = take 3 dest ++ drop 3 (replicate 3 0)
  /\ src_node f = take 3 src ++ drop 3 (replicate 3 0)
  /\ rolling_code f = [0; 0]
  /\ hmac f = replicate 6 0
  /\ crc f = replicate 2 0
  /\ is_1w_mode f = is_1w
  /\ (params_len <= FRAME_MAX_DATA_SIZE -> command_id f = cmd_id).
Proof.
  unfold set_command.
  destruct (Z.ltb_spec FRAME_MAX_DATA_SIZE params_len) as [Hbig|Hle];
    cbn [snd set_payload set_source set_destination set_src_node set_dest_node
         init_frame ctrl_byte_1 dest_node src_node rolling_code hmac crc is_1w_mode
         command_id];
    repeat split; try reflexivity; intros; lia.
Qed.

Lemma set_command_sized (is_1w : bool) (dest src params : list Z) (cmd_id : Z) :
  length dest = 3%nat -> length src = 3%nat ->
  Z.of_nat (length params) <= FRAME_MAX_DATA_SIZE ->
  sized (snd (set_command (set_source (set_destination (init_frame is_1w) dest) src)
                          cmd_id (Some params) (Z.of_nat (length params)))).
Proof.
  intros Hdest Hsrc Hp.
  destruct (set_command_keeps is_1w dest src cmd_id (Some params)
              (Z.of_nat (length params)))
    as (_ & Hd & Hs & Hrc & Hh & Hc & _).
  unfold sized. rewrite Hd, Hs, Hrc, Hh, Hc, set_command_data by exact Hp.
  unfold FRAME_MAX_DATA_SIZE in Hp.
  rewrite !length_app, !length_take, !length_drop, !length_replicate.
  cbn [length]. repeat split; lia.
Qed.

Section BuiltFrames.
Context `{AesBackend}.

(** the serialization of a finalized frame that was built through the
    construction functions: refused as it is, parsed back with a byte more *)
Lemma finalized_frame_codec (is_1w : bool) (dest src params : list Z)
    (cmd_id code : Z) (system_key : list Z) (challenge : ptr (list Z)) (f' : IoFrame) :
  length dest = 3%nat -> length src = 3%nat ->
  Z.of_nat (length params) <= FRAME_MAX_DATA_SIZE ->
  let f0 := snd (set_command (set_source (set_destination (init_frame is_1w) dest) src)
                             cmd_id (Some params) (Z.of_nat (length params))) in
  let f := if is_1w then set_rolling_code f0 code else f0 in
  finalize_frame f system_key challenge = Val (true, f') ->
  length (hmac f') = 6%nat ->
  exists bytes,
    serialize_frame f' FRAME_MAX_SIZE = Val (Some bytes)
    /\ parse_frame bytes = Val None
    /\ forall pad, pad <> [] -> parse_frame (bytes ++ pad) = Val (Some f').
Proof.
  intros Hdest Hsrc Hp f0 f Hfin Hh.
  destruct (finalize_frame_true f f' system_key challenge Hfin)
    as (fd & h & temp & _ & _ & _ & Htemp & Hf').
  destruct (set_command_keeps is_1w dest src cmd_id (Some params)
              (Z.of_nat (length params)))
    as (_ & _ & _ & Hrc0 & _ & Hc0 & _).
  fold f0 in Hrc0, Hc0.
  assert (Hcrc : length (crc (set_hmac (memcpy (hmac f) h 6) f)) = 2%nat)
    by (subst f; destruct is_1w; cbn [set_hmac set_rolling_code set_rolling_code_field crc];
        rewrite Hc0; reflexivity).
  set (c := crypto.crc_bytes _) in Hf'.
  pose proof (serialize_frame_set_crc _ c FRAME_MAX_SIZE temp Hcrc eq_refl Htemp) as Hser.
  subst f'. cbn [set_crc hmac] in Hh.
  eexists. split; [exact Hser|].
  split.
  - apply (built_frame_is_rejected is_1w dest src params (memcpy (hmac f) h 6) c
             cmd_id (if is_1w then code else 0) FRAME_MAX_SIZE);
      try assumption; try reflexivity.
    fold f0.
    replace (set_rolling_code f0 (if is_1w then code else 0)) with f; [exact Hser|].
    subst f. destruct is_1w; [reflexivity|].
    apply IoFrame_eq; try reflexivity. exact Hrc0.
  - intros pad Hpad.
    apply (round_trip_with_trailing_byte is_1w dest src params (memcpy (hmac f) h 6) c
             pad cmd_id code FRAME_MAX_SIZE);
      try assumption; try reflexivity.
Qed.


(** X13.  For a frame built with [init_frame], [set_destination],
    [set_source], [set_command], [set_rolling_code] (1W) and completed by
    [finalize_frame] with a six-byte tag, [serialize_frame] yields one byte
    less than the length the frame declares; [parse_frame] refuses these
    bytes as they are, and parses them back to exactly that frame as soon
    as at least one more byte follows them. *)
Theorem finalized_frame_round_trip (is_1w : bool) (dest src params : list Z)
    (cmd_id code : Z) (system_key : list Z) (challenge : ptr (list Z)) (f' : IoFrame) :
  length dest = 3%nat -> length src = 3%nat ->
  Z.of_nat (length params) <= FRAME_MAX_DATA_SIZE ->
  let f0 := snd (set_command (set_source (set_destination (init_frame is_1w) dest) src)
                             cmd_id (Some params) (Z.of_nat (length params))) in
  let f := if is_1w then set_rolling_code f0 code else f0 in
  finalize_frame f system_key challenge = Val (true, f') ->
  length (hmac f') = 6%nat ->
  exists bytes,
    serialize_frame f' FRAME_MAX_SIZE = Val (Some bytes)
    /\ Z.of_nat (length bytes) = frame_length f' - 1
    /\ parse_frame bytes = Val None
    /\ forall pad, pad <> [] -> parse_frame (bytes ++ pad) = Val (Some f').
Proof.
  intros Hdest Hsrc Hp f0 f Hfin Hh.
  destruct (finalized_frame_codec is_1w dest src params cmd_id code system_key
              challenge f' Hdest Hsrc Hp Hfin Hh) as (bytes & Hser & Hrej & Hback).
  exists bytes. split; [exact Hser|]. split; [|split; assumption].
  pose proof (set_command_sized is_1w dest src params cmd_id Hdest Hsrc Hp)
    as (Ld & Ls & Ldata & Lrc & _ & Lc).
  destruct (set_command_built is_1w dest src params cmd_id Hp)
    as (_ & H1w & Hdl & Hfl & _).
  fold f0 in Ld, Ls, Ldata, Lrc, Lc, H1w, Hdl, Hfl.
  destruct (finalize_frame_true f f' system_key challenge Hfin)
    as (fd & h & temp & _ & _ & _ & _ & Hf').
  assert (Hsz : sized f' /\ data_len f' = data_len f0 /\ is_1w_mode f' = is_1w
                /\ frame_length f' = frame_length f0).
  { rewrite Hf' in Hh |- *. subst f. unfold sized.
    destruct is_1w;
      cbn [set_crc set_hmac set_rolling_code set_rolling_code_field dest_node src_node
           data rolling_code hmac crc data_len is_1w_mode frame_length] in Hh |- *;
      rewrite ?Ld, ?Ls, ?Ldata, ?Lrc, ?Hh, ?H1w; repeat split; reflexivity. }
  destruct Hsz as (Hsz & Kdl & K1w & Kfl).
  destruct (serialize_frame_length f' FRAME_MAX_SIZE bytes Hsz ltac:(lia) Hser)
    as [Hlen _].
  rewrite Hlen, Kdl, K1w, Kfl, Hfl, Hdl, length_overhead_cases.
  unfold ROLLING_CODE_SIZE. destruct is_1w; lia.
Qed.

(** a frame with the sixteen bytes of a key envelope as parameters *)
Lemma key_transfer_frame (is_1w : bool) (dest src env : list Z) (cmd_id : Z) :
  length env = 16%nat ->
  let r := set_command (set_source (set_destination (init_frame is_1w) dest) src)
                       cmd_id (Some env) AES_KEY_SIZE in
  fst r = true
  /\ is_1w_mode (snd r) = is_1w
  /\ command_id (snd r) = cmd_id
  /\ data_len (snd r) = 16
  /\ take 16 (data (snd r)) = env
  /\ frame_length (snd r) = 16 + length_overhead is_1w
  /\ serialize_frame (snd r) FRAME_MAX_SIZE = Val None
  /\ forall system_key challenge f',
       finalize_frame (snd r) system_key challenge <> Val (true, f').
Proof.
  intros Henv.
  assert (Hn : AES_KEY_SIZE = Z.of_nat (length env)) by (rewrite Henv; reflexivity).
  rewrite Hn.
  assert (Hp : Z.of_nat (length env) <= FRAME_MAX_DATA_SIZE)
    by (rewrite Henv; unfold FRAME_MAX_DATA_SIZE; lia).
  intros r.
  destruct (set_command_built is_1w dest src env cmd_id Hp)
    as (Hok & H1w & Hdl & Hfl & _).
  pose proof (set_command_data is_1w dest src env cmd_id Hp) as Hdata.
  destruct (set_command_keeps is_1w dest src cmd_id (Some env) (Z.of_nat (length env)))
    as (_ & _ & _ & _ & _ & _ & _ & Hcmd).
  fold r in Hok, H1w, Hdl, Hfl, Hdata, Hcmd.
  pose proof (length_overhead_cases is_1w) as Hoc.
  assert (Hlong : FRAME_MAX_SIZE < frame_length (snd r))
    by (rewrite Hfl, Henv, Hoc; unfold FRAME_MAX_SIZE; destruct is_1w; lia).
  repeat split; try assumption.
  - apply Hcmd. exact Hp.
  - rewrite Hdl, Henv. reflexivity.
  - rewrite Hdata, <- Henv. apply take_app_length.
  - rewrite Hfl, Henv. reflexivity.
  - unfold serialize_frame.
    destruct (Z.ltb_spec FRAME_MAX_SIZE (frame_length (snd r))); [reflexivity | lia].
  - intros key ch f' Hfin. apply finalize_frame_fits in Hfin. lia.
Qed.

(** X14.  When [create_key_transfer_1w] succeeds for a 16-byte key, its 1W
    frame has command 0x30 and sixteen parameter bytes, the envelope of
    [encrypt_1w_key] for the destination, from which [encrypt_1w_key] with
    the same destination recovers the key.  The frame is 36 bytes long by
    its length field: it does not fit the 32-byte buffer, so
    [serialize_frame] returns 0 and [finalize_frame] never succeeds on it. *)
Theorem key_transfer_1w_frame (dest src system_key : list Z) (f : IoFrame) :
  length system_key = 16%nat ->
  mode2w.create_key_transfer_1w dest src system_key = (true, f) ->
  is_1w_mode f = true
  /\ command_id f = CMD_KEY_TRANSFER_1W
  /\ data_len f = 16
  /\ crypto.encrypt_1w_key system_key dest = Some (take 16 (data f))
  /\ crypto.encrypt_1w_key (take 16 (data f)) dest = Some system_key
  /\ frame_length f = 36
  /\ serialize_frame f FRAME_MAX_SIZE = Val None
  /\ forall key challenge f', finalize_frame f key challenge <> Val (true, f').
Proof.
  intros HK. unfold mode2w.create_key_transfer_1w.
  destruct (crypto.encrypt_1w_key system_key dest) as [env|] eqn:Henv; [|discriminate].
  assert (Hlen : length env = 16%nat).
  { unfold crypto.encrypt_1w_key in Henv.
    destruct (crypto.aes128_encrypt _ TRANSFER_KEY); [|discriminate].
    injection Henv as <-. apply xor_key_length. }
  destruct (key_transfer_frame true dest src env CMD_KEY_TRANSFER_1W Hlen)
    as (Hok & H1w & Hcmd & Hdl & Hdata & Hfl & Hser & Hfin).
  intros Hf. rewrite Hf in *. cbn [fst snd] in *.
  rewrite Hdata.
  repeat split; try assumption; try reflexivity.
  unfold crypto.encrypt_1w_key in *.
  destruct (crypto.aes128_encrypt _ TRANSFER_KEY) as [E|]; [|discriminate].
  injection Henv as <-. rewrite xor_key_involution by exact HK. reflexivity.
Qed.

(** X15.  The same for [create_key_transfer_2w]: command 0x31, the
    envelope of [encrypt_2w_key] for the challenge as the sixteen
    parameters, the key recovered by [encrypt_2w_key] with the same
    challenge; the 2W frame is 34 bytes long by its length field, so it can
    be neither serialized into the 32-byte buffer nor finalized. *)
Theorem key_transfer_2w_frame (dest src system_key challenge : list Z) (f : IoFrame) :
  length system_key = 16%nat ->
  mode2w.create_key_transfer_2w dest src system_key challenge = (true, f) ->
  is_1w_mode f = false
  /\ command_id f = CMD_KEY_TRANSFER_2W
  /\ data_len f = 16
  /\ crypto.encrypt_2w_key system_key challenge = Some (take 16 (data f))
  /\ crypto.encrypt_2w_key (take 16 (data f)) challenge = Some system_key
  /\ frame_length f = 34
  /\ serialize_frame f FRAME_MAX_SIZE = Val None
  /\ forall key ch f', finalize_frame f key ch <> Val (true, f').
Proof.
  intros HK. unfold mode2w.create_key_transfer_2w.
  destruct (crypto.encrypt_2w_key system_key challenge) as [env|] eqn:Henv;
    [|discriminate].
  assert (Hlen : length env = 16%nat).
  { unfold crypto.encrypt_2w_key in Henv.
    destruct (crypto.aes128_encrypt _ TRANSFER_KEY); [|discriminate].
    injection Henv as <-. apply xor_key_length. }
  destruct (key_transfer_frame false dest src env CMD_KEY_TRANSFER_2W Hlen)
    as (Hok & H1w & Hcmd & Hdl & Hdata & Hfl & Hser & Hfin).
  intros Hf. rewrite Hf in *. cbn [fst snd] in *.
  rewrite Hdata.
  repeat split; try assumption; try reflexivity.
  unfold crypto.encrypt_2w_key in *.
  destruct (crypto.aes128_encrypt _ TRANSFER_KEY) as [E|]; [|discriminate].
  injection Henv as <-. rewrite xor_key_involution by exact HK. reflexivity.
Qed.

End BuiltFrames.

Lemma finalized_frame_round_trip_witness :
  exists bytes,
    serialize_frame scenario.position_frame FRAME_MAX_SIZE = Val (Some bytes)
    /\ Z.of_nat (length bytes) = frame_length scenario.position_frame - 1
    /\ parse_frame bytes = Val None
    /\ forall pad, pad <> [] ->
         parse_frame (bytes ++ pad) = Val (Some scenario.position_frame).
Proof.
  apply (finalized_frame_round_trip true [0x64; 0x65; 0x75] [0xAB; 0xCD; 0xEF]
           [50; 0x00] CMD_SET_POSITION 0x0007 scenario.system_key None
           scenario.position_frame).
  - reflexivity.
  - reflexivity.
  - cbn. unfold FRAME_MAX_DATA_SIZE. lia.
  - vm_compute. reflexivity.
  - reflexivity.
Defined.

Lemma key_transfer_1w_frame_witness :
  let f := snd (mode2w.create_key_transfer_1w [0xAA; 0xBB; 0xCC] [0x01; 0x02; 0x03]
                  scenario.system_key) in
  crypto.encrypt_1w_key (take 16 (data f)) [0xAA; 0xBB; 0xCC] = Some scenario.system_key
  /\ serialize_frame f FRAME_MAX_SIZE = Val None.
Proof.
  destruct (key_transfer_1w_frame [0xAA; 0xBB; 0xCC] [0x01; 0x02; 0x03]
              scenario.system_key
              (snd (mode2w.create_key_transfer_1w [0xAA; 0xBB; 0xCC] [0x01; 0x02; 0x03]
                      scenario.system_key)))
    as (_ & _ & _ & _ & Hback & _ & Hser & _).
  - reflexivity.
  - vm_compute. reflexivity.
  - split; [exact Hback | exact Hser].
Defined.

Lemma key_transfer_2w_frame_witness :
  let f := snd (mode2w.create_key_transfer_2w [0xAA; 0xBB; 0xCC] [0x01; 0x02; 0x03]
                  scenario.system_key scenario.challenge) in
  crypto.encrypt_2w_key (take 16 (data f)) scenario.challenge = Some scenario.system_key
  /\ serialize_frame f FRAME_MAX_SIZE = Val None.
Proof.
  destruct (key_transfer_2w_frame [0xAA; 0xBB; 0xCC] [0x01; 0x02; 0x03]
              scenario.system_key scenario.challenge
              (snd (mode2w.create_key_transfer_2w [0xAA; 0xBB; 0xCC] [0x01; 0x02; 0x03]
                      scenario.system_key scenario.challenge)))
    as (_ & _ & _ & _ & Hback & _ & Hser & _).
  - reflexivity.
  - vm_compute. reflexivity.
  - split; [exact Hback | exact Hser].
Defined.

(** ** Discovery *)

Lemma discover_command_cases (device_type : Z) :
  match device_type with
  | 0x00 => CMD_DISCOVER_ACTUATOR
  | 0x12 => CMD_DISCOVER_SENSOR
  | 0x11 => CMD_DISCOVER_BEACON
  | _ => CMD_DISCOVER_ACTUATOR
  end
  = if device_type =? 0x12 then CMD_DISCOVER_SENSOR
    else if device_type =? 0x11 then CMD_DISCOVER_BEACON
    else CMD_DISCOVER_ACTUATOR.
Proof.
  destruct device_type as [|p|p]; [reflexivity | | reflexivity].
  do 5 (try destruct p as [p|p|]); reflexivity.
Qed.

(** X16.  [create_discovery_request] always succeeds and returns a 1W
    frame addressed to the broadcast address 00 00 00, from the manager's
    own node, whose single parameter is the device type; the command is
    0x29 for type 0x12, 0x2A for type 0x11 and 0x28 for every other type,
    never 0x2B; tag and CRC are still zero, the frame being left for the
    caller to finalize. *)
Theorem discovery_request_frame (m : mode2w.DiscoveryManager) (device_type : Z) :
  let r := mode2w.create_discovery_request m device_type in
  let f := snd r in
  fst r = true
  /\ is_1w_mode f = true
  /\ is_broadcast (dest_node f) = true
  /\ (length (mode2w.own_node_id_ m) = 3%nat -> src_node f = mode2w.own_node_id_ m)
  /\ command_id f = (if device_type =? 0x12 then CMD_DISCOVER_SENSOR
                     else if device_type =? 0x11 then CMD_DISCOVER_BEACON
                     else CMD_DISCOVER_ACTUATOR)
  /\ command_id f <> CMD_DISCOVER_CONTROLLER
  /\ data_len f = 1
  /\ nth 0 (data f) 0 = device_type
  /\ hmac f = replicate 6 0
  /\ crc f = replicate 2 0.
Proof.
  intros r f. subst f r. unfold mode2w.create_discovery_request.
  rewrite discover_command_cases.
  set (cmd := if device_type =? 18 then _ else _).
  destruct (set_command_built true BROADCAST_ADDRESS (mode2w.own_node_id_ m)
              [device_type] cmd ltac:(cbn; unfold FRAME_MAX_DATA_SIZE; lia))
    as (Hok & H1w & Hdl & _).
  pose proof (set_command_data true BROADCAST_ADDRESS (mode2w.own_node_id_ m)
                [device_type] cmd ltac:(cbn; unfold FRAME_MAX_DATA_SIZE; lia)) as Hdata.
  destruct (set_command_keeps true BROADCAST_ADDRESS (mode2w.own_node_id_ m) cmd
              (Some [device_type]) 1)
    as (_ & Hd & Hs & _ & Hh & Hc & _ & Hcmd).
  change (Z.of_nat (length [device_type])) with 1 in *.
  set (f := snd _) in *.
  assert (Hcmd' : command_id f = cmd) by (apply Hcmd; unfold FRAME_MAX_DATA_SIZE; lia).
  repeat split; try assumption.
  - intros Hown. rewrite Hs. rewrite take_ge by lia. apply app_nil_r.
  - rewrite Hcmd'. subst cmd.
    destruct (device_type =? 18); [discriminate|].
    destruct (device_type =? 17); discriminate.
Qed.

Lemma disc_reachable_slots (m : mode2w.DiscoveryManager) :
  mode2w.disc_reachable m ->
  length (mode2w.discovered_devices_ m) = MAX_DISCOVERED_DEVICES.
Proof.
  induction 1 as [| m own _ IH | m dt to now _ IH | m _ IH | m f rssi now _ IH];
    try exact IH; [apply length_replicate|].
  unfold mode2w.process_discovery_response.
  destruct (mode2w.disc_state_ m); try exact IH.
  destruct (decide _); [exact IH|].
  destruct (existsb _ _); [exact IH|].
  destruct (2 <=? data_len f); cbn [snd mode2w.discovered_devices_];
    rewrite length_insert; exact IH.
Qed.

(** X17.  For a manager reached through its public operations a discovery
    response is recorded exactly when the manager is in state DISCOVERING;
    it then becomes device 0, with the source of the frame as node id, the
    type, manufacturer and protocol version from the first parameter bytes
    (defaults when there are fewer than two or three), the signal strength
    and the clock, it is the only device, and the state is FOUND.  A
    refused response changes nothing. *)
Theorem discovery_response_recorded (m : mode2w.DiscoveryManager) (f : IoFrame)
    (rssi now_ms : Z) :
  mode2w.disc_reachable m ->
  let r := mode2w.process_discovery_response m f rssi now_ms in
  (fst r = true <-> mode2w.disc_state_ m = mode2w.DISCOVERING)
  /\ (fst r = true ->
      mode2w.get_discovered_count (snd r) = 1%nat
      /\ mode2w.get_discovered_device (snd r) 0
         = Some {| mode2w.node_id := take 3 (src_node f);
                   mode2w.device_type :=
                     if 2 <=? data_len f then nth 0 (data f) 0 else ROLLER_SHUTTER;
                   mode2w.manufacturer :=
                     if 2 <=? data_len f then nth 1 (data f) 0 else 0;
                   mode2w.protocol_version :=
                     if 3 <=? data_len f then nth 2 (data f) 0 else 0;
                   mode2w.rssi := rssi;
                   mode2w.timestamp_ms := ulong now_ms |}
      /\ (forall i, mode2w.get_discovered_device (snd r) (S i) = None)
      /\ mode2w.disc_state_ (snd r) = mode2w.FOUND)
  /\ (fst r = false -> snd r = m).
Proof.
  intros Hreach r.
  destruct (discovered_at_most_one m Hreach) as [Hzero _].
  pose proof (disc_reachable_slots m Hreach) as Hslots.
  subst r. unfold mode2w.process_discovery_response.
  destruct (mode2w.disc_state_ m) eqn:Hstate; cbn [fst snd];
    try (split; [split; discriminate | split; [discriminate | reflexivity]]).
  rewrite (Hzero eq_refl), take_0. cbn [existsb].
  destruct (decide _) as [Hfull|_]; [unfold MAX_DISCOVERED_DEVICES in Hfull; lia|].
  destruct (2 <=? data_len f); cbn [fst snd];
    (split; [split; reflexivity|]; split; [|discriminate]; intros _;
     unfold mode2w.get_discovered_device, mode2w.get_discovered_count;
     cbn [mode2w.discovered_count_ mode2w.discovered_devices_ mode2w.disc_state_];
     split; [reflexivity|]; split; [|split; [|reflexivity]];
     [ destruct (decide _) as [Hle|_]; [lia|];
       apply list_lookup_insert_eq; rewrite Hslots;
       unfold MAX_DISCOVERED_DEVICES; lia
     | intros i; destruct (decide _) as [_|Hgt]; [reflexivity | lia] ]).
Qed.

Lemma discovery_response_recorded_witness :
  fst (mode2w.process_discovery_response
         (mode2w.start_discovery
            (mode2w.discovery_begin mode2w.DiscoveryManager_new [0x0A; 0x0B; 0x0C])
            0x00 1000 5)
         scenario.position_frame (-60) 7) = true
  <-> mode2w.DISCOVERING = mode2w.DISCOVERING.
Proof.
  destruct (discovery_response_recorded
              (mode2w.start_discovery
                 (mode2w.discovery_begin mode2w.DiscoveryManager_new [0x0A; 0x0B; 0x0C])
                 0x00 1000 5)
              scenario.position_frame (-60) 7) as (Hiff & _).
  - apply mode2w.disc_start, mode2w.disc_begin, mode2w.disc_new.
  - exact Hiff.
Defined.

(** ** Frequency hopping *)

Lemma hop_count_cons (b : bool) (hops : list bool) :
  mode2w.hop_count (b :: hops)
  = ((if b then 1 else 0) + mode2w.hop_count hops)%nat.
Proof.
  unfold mode2w.hop_count. destruct b.
  - rewrite filter_cons_True by reflexivity. reflexivity.
  - rewrite filter_cons_False by discriminate. reflexivity.
Qed.

Lemma next_channel_iter_channel (k : nat) (h1 h2 : mode2w.ChannelHopper) :
  mode2w.current_channel_ h1 = mode2w.current_channel_ h2 ->
  mode2w.current_channel_ (Nat.iter k mode2w.next_channel h1)
  = mode2w.current_channel_ (Nat.iter k mode2w.next_channel h2).
Proof.
  intros Heq. induction k as [|k IH]; [exact Heq|].
  rewrite !Nat.iter_succ.
  set (a := Nat.iter k mode2w.next_channel h1) in *.
  set (b := Nat.iter k mode2w.next_channel h2) in *. clearbody a b.
  unfold mode2w.next_channel. cbn [mode2w.current_channel_]. rewrite IH. reflexivity.
Qed.

Lemma next_channel_period (k : nat) (h : mode2w.ChannelHopper) :
  mode2w.current_channel_ (Nat.iter (3 * k) mode2w.next_channel h)
  = mode2w.current_channel_ h.
Proof.
  induction k as [|k IH]; [reflexivity|].
  replace (3 * S k)%nat with (3 + 3 * k)%nat by lia.
  rewrite Nat.iter_add.
  transitivity (mode2w.current_channel_ (Nat.iter 3 mode2w.next_channel h)).
  - apply (next_channel_iter_channel 3). exact IH.
  - rewrite !Nat.iter_succ. change (Nat.iter 0 mode2w.next_channel h) with h.
    unfold mode2w.next_channel. cbn [mode2w.current_channel_].
    destruct (mode2w.current_channel_ h); reflexivity.
Qed.

(** X18.  Polling never changes the dwell time or the enabled flag of a
    hopper, and the channel after any sequence of polls is the starting
    channel advanced once, in the order Ch1, Ch2, Ch3, Ch1, for each poll
    that reported a hop: after a multiple of three hops the hopper is back
    on its starting channel.  A disabled hopper reports no hop and stays as
    it is. *)
Theorem poll_channel_follows_hops (h : mode2w.ChannelHopper) (times : list Z) :
  let r := mode2w.poll h times in
  length (fst r) = length times
  /\ mode2w.current_channel_ (snd r)
     = mode2w.current_channel_
         (Nat.iter (mode2w.hop_count (fst r)) mode2w.next_channel h)
  /\ mode2w.hop_interval_us_ (snd r) = mode2w.hop_interval_us_ h
  /\ mode2w.enabled_ (snd r) = mode2w.enabled_ h
  /\ (forall k, mode2w.hop_count (fst r) = (3 * k)%nat ->
        mode2w.current_channel_ (snd r) = mode2w.current_channel_ h)
  /\ (mode2w.enabled_ h = false ->
      mode2w.hop_count (fst r) = 0%nat /\ snd r = h).
Proof.
  intros r.
  assert (Hmain : length (fst r) = length times
                  /\ mode2w.current_channel_ (snd r)
                     = mode2w.current_channel_
                         (Nat.iter (mode2w.hop_count (fst r)) mode2w.next_channel h)
                  /\ mode2w.hop_interval_us_ (snd r) = mode2w.hop_interval_us_ h
                  /\ mode2w.enabled_ (snd r) = mode2w.enabled_ h
                  /\ (mode2w.enabled_ h = false ->
                      mode2w.hop_count (fst r) = 0%nat /\ snd r = h)).
  { subst r. revert h. induction times as [|t times IH]; intros h.
    - cbn. repeat split; reflexivity.
    - cbn [mode2w.poll].
      destruct (mode2w.update h t) as [hopped h1] eqn:Hup.
      specialize (IH h1).
      destruct (mode2w.poll h1 times) as [hops h2]. cbn [fst snd] in *.
      destruct IH as (Hlen & Hch & Hint & Hen & Hoff).
      rewrite hop_count_cons.
      unfold mode2w.update in Hup.
      destruct (mode2w.enabled_ h) eqn:Hena; cbn [negb] in Hup.
      + destruct (mode2w.hop_interval_us_ h <=? mode2w.elapsed_us h t).
        * injection Hup as <- <-.
          cbn [mode2w.hop_interval_us_ mode2w.enabled_ mode2w.next_channel] in *.
          rewrite Hch, Hint, Hen, Hena.
          repeat split; try (cbn [length]; lia); try discriminate.
          replace (1 + mode2w.hop_count hops)%nat with (mode2w.hop_count hops + 1)%nat
            by lia.
          rewrite Nat.iter_add. apply next_channel_iter_channel. reflexivity.
        * injection Hup as <- <-. rewrite Hch, Hint, Hen, Hena.
          repeat split; try (cbn [length]; lia); discriminate.
      + injection Hup as <- <-. rewrite Hch, Hint, Hen.
        destruct (Hoff Hena) as [H0 Hsame].
        repeat split; try (cbn [length]; lia); try assumption. }
  destruct Hmain as (Hlen & Hch & Hint & Hen & Hoff).
  repeat split; try assumption; try (apply Hoff; assumption).
  intros k Hk. rewrite Hch, Hk. apply next_channel_period.
Qed.

(** X19.  [time_until_next_hop_us] and [update] agree on when a hop is
    due: an enabled hopper hops at a poll exactly when the remaining time
    reported for that instant is 0; the remaining time never exceeds the
    dwell time; and right after a hop the full dwell time remains.  The
    remaining time does not look at the enabled flag. *)
Theorem time_until_next_hop_agrees (h : mode2w.ChannelHopper) (t : Z) :
  (fst (mode2w.update h t) = true
   <-> mode2w.enabled_ h = true /\ mode2w.time_until_next_hop_us h t = 0)
  /\ (0 <= mode2w.hop_interval_us_ h ->
      0 <= mode2w.time_until_next_hop_us h t <= mode2w.hop_interval_us_ h)
  /\ (fst (mode2w.update h t) = true -> 0 < mode2w.hop_interval_us_ h ->
      mode2w.time_until_next_hop_us (snd (mode2w.update h t)) t
      = mode2w.hop_interval_us_ h)
  /\ mode2w.time_until_next_hop_us (mode2w.set_enabled h false) t
     = mode2w.time_until_next_hop_us h t.
Proof.
  assert (Hel : 0 <= mode2w.elapsed_us h t).
  { unfold mode2w.elapsed_us, ulong. apply Z.mod_pos_bound. lia. }
  unfold mode2w.update, mode2w.time_until_next_hop_us.
  split; [|split; [|split; [|reflexivity]]].
  - destruct (mode2w.enabled_ h); cbn [negb].
    + destruct (Z.leb_spec (mode2w.hop_interval_us_ h) (mode2w.elapsed_us h t));
        cbn [fst]; split; try (intros [_ ?]); try discriminate; auto; lia.
    + cbn [fst]. split; [discriminate | intros [? _]; discriminate].
  - intros Hi.
    destruct (Z.leb_spec (mode2w.hop_interval_us_ h) (mode2w.elapsed_us h t)); lia.
  - destruct (mode2w.enabled_ h); cbn [negb]; [|discriminate].
    destruct (Z.leb_spec (mode2w.hop_interval_us_ h) (mode2w.elapsed_us h t));
      cbn [fst snd]; [|discriminate].
    intros _ Hpos.
    unfold mode2w.elapsed_us.
    cbn [mode2w.last_hop_time_ms_ mode2w.hop_interval_us_ mode2w.next_channel].
    rewrite Z.sub_diag. change (ulong 0) with 0.
    destruct (Z.leb_spec (mode2w.hop_interval_us_ h) 0); lia.
Qed.

(** ** Challenge and response *)

Section Handshake.
Context `{AesBackend}.

(** what [finalize_frame] leaves untouched, whether it succeeds or not *)
Lemma finalize_frame_keeps (f f' : IoFrame) (system_key : list Z)
    (challenge : ptr (list Z)) (ok : bool) :
  finalize_frame f system_key challenge = Val (ok, f') ->
  ctrl_byte_0 f' = ctrl_byte_0 f /\ ctrl_byte_1 f' = ctrl_byte_1 f
  /\ dest_node f' = dest_node f /\ src_node f' = src_node f
  /\ command_id f' = command_id f /\ data f' = data f /\ data_len f' = data_len f
  /\ rolling_code f' = rolling_code f /\ is_1w_mode f' = is_1w_mode f
  /\ frame_length f' = frame_length f.
Proof.
  unfold finalize_frame.
  destruct (frame_data_of f) as [fd|]; cbn [mbind exec_bind]; [|discriminate].
  destruct (if is_1w_mode f then _ else _) as [[h|]|]; cbn [mbind exec_bind];
    try discriminate.
  - destruct (serialize_frame _ FRAME_MAX_SIZE) as [[temp|]|]; cbn [mbind exec_bind];
      try discriminate; intros Heq;
      match type of Heq with
      | Val (_, ?g) = _ => assert (Hg : f' = g) by congruence
      end; rewrite Hg; repeat split; reflexivity.
  - intros Heq. assert (Hg : f' = f) by congruence. rewrite Hg.
    repeat split; reflexivity.
Qed.

(** X20.  A challenge can be answered once: outside the state
    CHALLENGE_SENT [verify_challenge_response] refuses every frame and
    leaves the manager as it is, and a call that returned [true] moves the
    manager to AUTHENTICATED, so the same (or any other) response frame is
    refused from then on; the key, the stored challenge and the timeout are
    never changed by verification. *)
Theorem verify_challenge_response_once (m : mode2w.AuthenticationManager) :
  (mode2w.state_ m <> mode2w.CHALLENGE_SENT ->
   forall now_ms f, mode2w.verify_challenge_response m now_ms f = Val (false, m))
  /\ (forall now_ms f m1,
        mode2w.verify_challenge_response m now_ms f = Val (true, m1) ->
        m1 = mode2w.with_state mode2w.AUTHENTICATED m
        /\ forall now_ms' f',
             mode2w.verify_challenge_response m1 now_ms' f' = Val (false, m1))
  /\ (forall now_ms f ok m1,
        mode2w.verify_challenge_response m now_ms f = Val (ok, m1) ->
        mode2w.system_key_ m1 = mode2w.system_key_ m
        /\ mode2w.current_challenge_ m1 = mode2w.current_challenge_ m
        /\ mode2w.challenge_timestamp_ m1 = mode2w.challenge_timestamp_ m
        /\ mode2w.challenge_timeout_ms_ m1 = mode2w.challenge_timeout_ms_ m).
Proof.
  split; [|split].
  - intros Hst now_ms f. unfold mode2w.verify_challenge_response.
    destruct (mode2w.state_ m); try reflexivity. contradiction.
  - intros now_ms f m1. unfold mode2w.verify_challenge_response.
    destruct (mode2w.state_ m); try discriminate.
    destruct (_ <? _); [discriminate|].
    destruct (negb _); [discriminate|].
    destruct (validate_frame _ _ _) as [[|]|]; cbn [mbind exec_bind negb];
      try discriminate.
    intros Heq. assert (Hm : m1 = mode2w.with_state mode2w.AUTHENTICATED m)
      by congruence.
    split; [exact Hm|]. rewrite Hm. reflexivity.
  - intros now_ms f ok m1. unfold mode2w.verify_challenge_response.
    destruct (mode2w.state_ m);
      try (intros Heq; assert (Hm : m1 = m) by congruence; rewrite Hm;
           repeat split; reflexivity).
    destruct (_ <? _).
    { intros Heq. assert (Hm : m1 = mode2w.with_state mode2w.IDLE m) by congruence.
      rewrite Hm. repeat split; reflexivity. }
    destruct (negb _).
    { intros Heq. assert (Hm : m1 = m) by congruence. rewrite Hm.
      repeat split; reflexivity. }
    destruct (validate_frame _ _ _) as [[|]|]; cbn [mbind exec_bind negb];
      try discriminate.
    + intros Heq. assert (Hm : m1 = mode2w.with_state mode2w.AUTHENTICATED m)
        by congruence.
      rewrite Hm. repeat split; reflexivity.
    + intros Heq. assert (Hm : m1 = m) by congruence. rewrite Hm.
      repeat split; reflexivity.
Qed.

(** X21.  Whatever [create_challenge_request] returns, the manager has
    taken the six random bytes as its challenge, is in state
    CHALLENGE_SENT and has recorded the clock, also when the frame could
    not be finalized; the frame is a 2W frame with command 0x3C whose six
    parameters are the stored challenge. *)
Theorem challenge_request_stores_challenge (m : mode2w.AuthenticationManager)
    (dest src random : list Z) (now_ms : Z) (ok : bool) (f : IoFrame)
    (m' : mode2w.AuthenticationManager) :
  length random = 6%nat -> length (mode2w.current_challenge_ m) = 6%nat ->
  mode2w.create_challenge_request m dest src random now_ms = Val (ok, f, m') ->
  mode2w.state_ m' = mode2w.CHALLENGE_SENT
  /\ mode2w.current_challenge_ m' = random
  /\ mode2w.challenge_timestamp_ m' = ulong now_ms
  /\ mode2w.system_key_ m' = mode2w.system_key_ m
  /\ is_1w_mode f = false
  /\ command_id f = CMD_CHALLENGE_REQUEST
  /\ data_len f = 6
  /\ take 6 (data f) = mode2w.current_challenge_ m'.
Proof.
  intros Hr Hold Hreq.
  pose proof (create_challenge_request_state m dest src random now_ms ok f m' Hreq)
    as Hm'.
  assert (Hch : take (Z.to_nat HMAC_SIZE) random = random)
    by (apply take_ge; rewrite Hr; reflexivity).
  assert (Hstored : mode2w.current_challenge_ m' = random).
  { rewrite Hm'. unfold mode2w.generate_challenge.
    cbn [snd mode2w.current_challenge_]. unfold memcpy.
    rewrite take_take, Nat.min_id, Hch, drop_ge, app_nil_r by (rewrite Hold; reflexivity).
    reflexivity. }
  unfold mode2w.create_challenge_request, mode2w.generate_challenge in Hreq.
  rewrite Hch in Hreq.
  assert (Hp : Z.of_nat (length random) <= FRAME_MAX_DATA_SIZE)
    by (rewrite Hr; unfold FRAME_MAX_DATA_SIZE; lia).
  assert (Hn : HMAC_SIZE = Z.of_nat (length random)) by (rewrite Hr; reflexivity).
  rewrite Hn in Hreq.
  destruct (set_command_built false dest src random CMD_CHALLENGE_REQUEST Hp)
    as (Hok & H1w & Hdl & _).
  pose proof (set_command_data false dest src random CMD_CHALLENGE_REQUEST Hp) as Hdata.
  destruct (set_command_keeps false dest src CMD_CHALLENGE_REQUEST (Some random)
              (Z.of_nat (length random)))
    as (_ & _ & _ & _ & _ & _ & _ & Hcmd).
  destruct (set_command _ _ _ _) as [ok0 f0]. cbn [fst snd] in *. subst ok0.
  cbn [negb] in Hreq.
  destruct (finalize_frame f0 _ _) as [[ok1 f1]|] eqn:Hfin; cbn [mbind exec_bind] in Hreq;
    [|discriminate].
  assert (Hf : f = f1) by congruence. subst f1.
  destruct (finalize_frame_keeps f0 f _ _ ok1 Hfin)
    as (_ & _ & _ & _ & Kcmd & Kdata & Kdl & _ & K1w & _).
  rewrite Hstored, Kcmd, Kdata, Kdl, K1w, Hdata, Hdl, Hr, H1w, (Hcmd Hp).
  rewrite Hm'. cbn [snd mode2w.generate_challenge mode2w.state_
                    mode2w.challenge_timestamp_ mode2w.system_key_].
  repeat split; try reflexivity.
  rewrite <- Hr. apply take_app_length.
Qed.

(** X22.  The handshake closes: when the responder builds its response
    with [create_challenge_response] for the challenge that the initiator
    generated, both hold the same key, and the response is verified within
    the timeout, [verify_challenge_response] returns [true] and the
    initiator is AUTHENTICATED. *)
Theorem challenge_response_accepted (mi mr : mode2w.AuthenticationManager)
    (dest src random : list Z) (t0 now_ms : Z) (resp : IoFrame) :
  mode2w.system_key_ mr = mode2w.system_key_ mi ->
  length random = 6%nat -> length (mode2w.current_challenge_ mi) = 6%nat ->
  let challenge := fst (mode2w.generate_challenge mi random t0) in
  let mi' := snd (mode2w.generate_challenge mi random t0) in
  mode2w.create_challenge_response mr dest src challenge = Val (true, resp) ->
  byte_fields resp ->
  ulong (ulong now_ms - ulong t0) <= mode2w.challenge_timeout_ms_ mi ->
  mode2w.verify_challenge_response mi' now_ms resp
  = Val (true, mode2w.with_state mode2w.AUTHENTICATED mi').
Proof.
  intros Hkey Hr Hold challenge mi' Hresp Hbytes Htime.
  assert (Hch : challenge = random)
    by (subst challenge; cbn [fst mode2w.generate_challenge]; apply take_ge;
        rewrite Hr; reflexivity).
  assert (Hstored : mode2w.current_challenge_ mi' = random).
  { subst mi'. cbn [snd mode2w.generate_challenge mode2w.current_challenge_].
    unfold memcpy.
    rewrite take_take, Nat.min_id, drop_ge by (rewrite Hold; reflexivity).
    rewrite app_nil_r. apply take_ge. rewrite Hr. reflexivity. }
  rewrite Hch in Hresp. clear Hch challenge.
  unfold mode2w.create_challenge_response in Hresp.
  assert (Hp : Z.of_nat (length random) <= FRAME_MAX_DATA_SIZE)
    by (rewrite Hr; unfold FRAME_MAX_DATA_SIZE; lia).
  assert (Hn : HMAC_SIZE = Z.of_nat (length random)) by (rewrite Hr; reflexivity).
  rewrite Hn in Hresp.
  destruct (set_command_built false dest src random CMD_CHALLENGE_RESPONSE Hp)
    as (Hok & _).
  destruct (set_command_keeps false dest src CMD_CHALLENGE_RESPONSE (Some random)
              (Z.of_nat (length random)))
    as (_ & _ & _ & _ & Hh & Hc & _ & Hcmd).
  destruct (set_command _ _ _ _) as [ok0 f0]. cbn [fst snd] in *. subst ok0.
  cbn [negb] in Hresp.
  destruct (finalize_frame_keeps f0 resp _ _ true Hresp)
    as (_ & _ & _ & _ & Kcmd & _).
  assert (Hsz : length (hmac f0) = 6%nat /\ length (crc f0) = 2%nat)
    by (rewrite Hh, Hc; split; reflexivity).
  destruct (finalize_frame_true f0 resp _ _ Hresp)
    as (fd & h & temp & _ & _ & _ & Htemp & Hf').
  assert (Hser : serialize_frame resp FRAME_MAX_SIZE
                 = Val (Some (take (length temp - 2) temp
                                ++ crypto.crc_bytes
                                     (crypto.compute_crc16
                                        (take (length temp - 2) temp) CRC_INITIAL)))).
  { rewrite Hf'. apply serialize_frame_set_crc; [apply Hsz | reflexivity | exact Htemp]. }
  destruct (finalize_then_validate f0 resp _ _ _ (proj1 Hsz) (proj2 Hsz) Hresp Hser
              (byte_fields_serialized resp _ _ Hbytes Hser)) as [_ Hval].
  unfold mode2w.verify_challenge_response.
  assert (Hst : mode2w.state_ mi' = mode2w.CHALLENGE_SENT) by reflexivity.
  rewrite Hst.
  change (mode2w.challenge_timestamp_ mi') with (ulong t0).
  change (mode2w.challenge_timeout_ms_ mi') with (mode2w.challenge_timeout_ms_ mi).
  destruct (Z.ltb_spec (mode2w.challenge_timeout_ms_ mi) (ulong (ulong now_ms - ulong t0)))
    as [|_]; [lia|].
  rewrite Kcmd, (Hcmd Hp), Z.eqb_refl. cbn [negb].
  rewrite Hstored.
  change (mode2w.system_key_ mi') with (mode2w.system_key_ mi).
  rewrite <- Hkey, Hval. reflexivity.
Qed.

End Handshake.

Lemma challenge_request_stores_challenge_witness :
  mode2w.state_ scenario.initiator = mode2w.CHALLENGE_SENT
  /\ mode2w.current_challenge_ scenario.initiator = scenario.challenge.
Proof.
  destruct (challenge_request_stores_challenge
              (mode2w.begin mode2w.AuthenticationManager_new scenario.system_key)
              [0x01; 0x02; 0x03] [0x04; 0x05; 0x06] scenario.challenge 1000 true
              (match mode2w.create_challenge_request
                       (mode2w.begin mode2w.AuthenticationManager_new scenario.system_key)
                       [0x01; 0x02; 0x03] [0x04; 0x05; 0x06] scenario.challenge 1000
               with
               | Val (_, f, _) => f
               | Fault => init_frame false
               end)
              scenario.initiator eq_refl eq_refl)
    as (Hstate & Hstored & _).
  - vm_compute. reflexivity.
  - split; [exact Hstate | exact Hstored].
Defined.

Lemma challenge_response_accepted_witness :
  mode2w.verify_challenge_response scenario.initiator 6000 scenario.response_frame
  = Val (true, mode2w.with_state mode2w.AUTHENTICATED scenario.initiator).
Proof.
  apply (challenge_response_accepted
           (mode2w.begin mode2w.AuthenticationManager_new scenario.system_key)
           (mode2w.begin mode2w.AuthenticationManager_new scenario.system_key)
           [0x01; 0x02; 0x03] [0x04; 0x05; 0x06] scenario.challenge 1000 6000
           scenario.response_frame).
  - reflexivity.
  - reflexivity.
  - reflexivity.
  - vm_compute. reflexivity.
  - unfold byte_fields, is_byte; cbn. repeat split; try lia; repeat constructor; lia.
  - vm_compute. discriminate.
Defined.

(** ** Beacons *)

Lemma process_beacons_app {float} (h : mode2w.BeaconHandler float)
    (l1 l2 : list (IoFrame * Z * float * Z)) :
  mode2w.process_beacons h (l1 ++ l2)
  = mode2w.process_beacons (mode2w.process_beacons h l1) l2.
Proof.
  revert h. induction l1 as [|[[[f rssi] snr] t] l1 IH]; intros h; [reflexivity|].
  cbn [app mode2w.process_beacons]. apply IH.
Qed.

Lemma process_beacons_ignored {float} (h : mode2w.BeaconHandler float)
    (evs : list (IoFrame * Z * float * Z)) :
  Forall (fun ev => Z.land (ctrl_byte_1 (fst (fst (fst ev)))) CTRL1_USE_BEACON = 0) evs ->
  mode2w.process_beacons h evs = h.
Proof.
  induction 1 as [|[[[f rssi] snr] t] evs Hev _ IH]; [reflexivity|].
  cbn [mode2w.process_beacons]. unfold mode2w.process_beacon.
  cbn [fst] in Hev. rewrite Hev. cbn [Z.eqb snd]. exact IH.
Qed.

(** X23.  The beacon handler remembers one beacon, the last frame with the
    beacon bit of Ctrl1 set: its source, its type (the first parameter
    byte, SYNC when there is none), its parameter bytes and their count,
    the signal readings and the clock of that call; frames without the bit
    are ignored and change nothing, and before the first beacon there is
    nothing to read and the age reported is 0xFFFFFFFF. *)
Theorem last_beacon_wins {float} (h : mode2w.BeaconHandler float)
    (before after : list (IoFrame * Z * float * Z)) (f : IoFrame) (rssi : Z)
    (snr : float) (now_ms : Z) :
  Z.land (ctrl_byte_1 f) CTRL1_USE_BEACON <> 0 ->
  (3 <= length (src_node f))%nat -> length (data f) = 21%nat ->
  Forall (fun ev => Z.land (ctrl_byte_1 (fst (fst (fst ev)))) CTRL1_USE_BEACON = 0)
         after ->
  let h' := mode2w.process_beacons h (before ++ (f, rssi, snr, now_ms) :: after) in
  let copied := Z.to_nat (Z.min (data_len f) FRAME_MAX_DATA_SIZE) in
  (exists b, mode2w.get_last_beacon h' = Some b
     /\ take 3 (mode2w.beacon_node_id b) = take 3 (src_node f)
     /\ mode2w.beacon_type b
        = (if 0 <? data_len f then nth 0 (data f) 0 else mode2w.SYNC_BEACON)
     /\ mode2w.beacon_data_len b = data_len f
     /\ take copied (mode2w.beacon_data b) = take copied (data f)
     /\ mode2w.beacon_rssi b = rssi
     /\ mode2w.beacon_snr b = snr
     /\ mode2w.beacon_timestamp_ms b = ulong now_ms)
  /\ (forall t, mode2w.time_since_last_beacon h' t = ulong (t - ulong now_ms))
  /\ (forall timeout_ms t,
        mode2w.has_recent_beacon h' timeout_ms t
        = (ulong (ulong t - ulong now_ms) <=? timeout_ms))
  /\ (forall zero : float,
        mode2w.get_last_beacon (mode2w.BeaconHandler_new zero) = None
        /\ mode2w.time_since_last_beacon (mode2w.BeaconHandler_new zero) now_ms
           = 0xFFFFFFFF
        /\ mode2w.process_beacons (mode2w.BeaconHandler_new zero) after
           = mode2w.BeaconHandler_new zero).
Proof.
  intros Hflag Hsrc Hdata Hafter h' copied.
  assert (Hh' : h' = snd (mode2w.process_beacon (mode2w.process_beacons h before)
                            f rssi snr now_ms)).
  { subst h'. rewrite process_beacons_app. cbn [mode2w.process_beacons].
    apply process_beacons_ignored. exact Hafter. }
  rewrite Hh'. clear Hh' h'.
  set (h0 := mode2w.process_beacons h before).
  unfold mode2w.process_beacon.
  destruct (Z.eqb_spec (Z.land (ctrl_byte_1 f) CTRL1_USE_BEACON) 0) as [|_];
    [contradiction|].
  cbn [snd].
  split; [|split; [|split]].
  - eexists. split; [reflexivity|].
    cbn [mode2w.beacon_node_id mode2w.beacon_type mode2w.beacon_data
         mode2w.beacon_data_len mode2w.beacon_rssi mode2w.beacon_snr
         mode2w.beacon_timestamp_ms mode2w.last_beacon_].
    repeat split.
    + unfold memcpy. change (Z.to_nat NODE_ID_SIZE) with 3%nat.
      rewrite take_app_le by (rewrite length_take; lia).
      apply take_take.
    + subst copied. unfold FRAME_MAX_DATA_SIZE.
      destruct (Z.ltb_spec 0 (data_len f)) as [Hpos|Hz].
      * destruct (Z.ltb_spec (data_len f) 21) as [Hlt|Hge].
        -- rewrite Z.min_l by lia. unfold memcpy.
           rewrite take_app_le by (rewrite length_take; lia).
           rewrite take_take, Nat.min_id. reflexivity.
        -- rewrite Z.min_r by lia. unfold memcpy.
           rewrite take_app_le by (rewrite length_take; lia).
           rewrite take_take, Nat.min_id. reflexivity.
      * rewrite Z.min_l by lia. replace (Z.to_nat (data_len f)) with 0%nat by lia.
        reflexivity.
  - intros t. reflexivity.
  - intros timeout_ms t. reflexivity.
  - intros zero. repeat split; try reflexivity.
    apply process_beacons_ignored. exact Hafter.
Qed.

Lemma last_beacon_wins_witness :
  mode2w.time_since_last_beacon
    (mode2w.process_beacons (mode2w.BeaconHandler_new tt)
       ([] ++ [(set_src_node [1; 2; 3]
                  (mkIoFrame 0 0x80 [0; 0; 0] [0; 0; 0] 0 (replicate 21 0) 0 [0; 0]
                             (replicate 6 0) [0; 0] true 20),
                -70, tt, 1234)])) 2000
  = ulong (2000 - ulong 1234).
Proof.
  destruct (last_beacon_wins (mode2w.BeaconHandler_new tt) [] []
              (set_src_node [1; 2; 3]
                 (mkIoFrame 0 0x80 [0; 0; 0] [0; 0; 0] 0 (replicate 21 0) 0 [0; 0]
                            (replicate 6 0) [0; 0] true 20))
              (-70) tt 1234) as (_ & Hsince & _).
  - cbn. discriminate.
  - cbn. lia.
  - reflexivity.
  - constructor.
  - exact (Hsince 2000).
Defined.

(** ** The send path of the controller *)

Section Send.
Context `{AesBackend}.

(** X24.  In 2W mode [send_command] never hands anything to the radio:
    it calls [finalize_frame] without a challenge, which a 2W frame needs,
    so every call that returns at all returns [false] and leaves the
    controller unchanged; [set_position], [open], [close] and [stop]
    therefore always fail in 2W mode. *)
Theorem send_command_2w_never_transmits (c : controller.IoHomeControl)
    (dest : list Z) (radio : controller.radio_tx) :
  controller.is_1w_mode_ c = false ->
  (forall cmd_id params params_len r c' sent,
     controller.send_command c dest cmd_id params params_len radio = Val (r, c', sent) ->
     r = false /\ c' = c /\ sent = None)
  /\ (forall position,
        controller.set_position c dest position radio = Val (false, c, None))
  /\ controller.open c dest radio = Val (false, c, None)
  /\ controller.close c dest radio = Val (false, c, None)
  /\ controller.stop c dest radio = Val (false, c, None).
Proof.
  intros H2w.
  assert (Hsend : forall cmd_id params params_len r c' sent,
            controller.send_command c dest cmd_id params params_len radio
            = Val (r, c', sent) ->
            r = false /\ c' = c /\ sent = None).
  { intros cmd_id params params_len r c' sent.
    unfold controller.send_command.
    destruct (controller.initialized_ c); cbn [negb];
      [|intros Heq; repeat split; congruence].
    destruct (set_command_keeps (controller.is_1w_mode_ c) dest
                (controller.own_node_id_ c) cmd_id params params_len)
      as (_ & _ & _ & _ & _ & _ & H1w & _).
    destruct (set_command _ _ _ _) as [ok f]. cbn [snd] in H1w.
    destruct ok; cbn [negb]; [|intros Heq; repeat split; congruence].
    rewrite H2w in *. unfold finalize_frame.
    destruct (frame_data_of f) as [fd|]; cbn [mbind exec_bind]; [|discriminate].
    rewrite H1w. cbn [mbind exec_bind negb].
    intros Heq; repeat split; congruence. }
  assert (Hfixed : forall cmd_id p0 p1 n,
            n = 1 \/ n = 2 ->
            controller.send_command c dest cmd_id (Some [p0; p1]) n radio
            = Val (false, c, None)).
  { intros cmd_id p0 p1 n Hn. unfold controller.send_command.
    destruct (controller.initialized_ c); cbn [negb]; [|reflexivity].
    rewrite H2w. destruct Hn as [-> | ->]; reflexivity. }
  split; [exact Hsend|].
  split; [intros position; apply Hfixed; right; reflexivity|].
  split; [apply Hfixed; right; reflexivity|].
  split; [apply Hfixed; right; reflexivity|].
  unfold controller.stop, controller.send_command.
  destruct (controller.initialized_ c); cbn [negb]; [|reflexivity].
  rewrite H2w. reflexivity.
Qed.

(** what [transmit_frame] returns and leaves behind *)
Lemma transmit_frame_result (c : controller.IoHomeControl) (f : IoFrame)
    (radio : controller.radio_tx) (r : bool) (c' : controller.IoHomeControl)
    (sent : option (list Z)) :
  controller.transmit_frame c f radio = Val (r, c', sent) ->
  serialize_frame f FRAME_MAX_SIZE = Val sent
  /\ (sent <> None ->
      r = (controller.transmit_status radio =? controller.RADIOLIB_ERR_NONE)
      /\ controller.receiving_ c'
         = controller.receiving_ c && controller.initialized_ c
           && (controller.resume_status radio =? controller.RADIOLIB_ERR_NONE))
  /\ c' = controller.set_receiving (controller.receiving_ c') c.
Proof.
  unfold controller.transmit_frame.
  destruct (serialize_frame f FRAME_MAX_SIZE) as [[bytes|]|];
    cbn [mbind exec_bind]; [| |discriminate].
  - intros Heq.
    assert (Hs : sent = Some bytes) by congruence.
    assert (Hr : r = negb (negb (controller.transmit_status radio
                                =? controller.RADIOLIB_ERR_NONE))) by congruence.
    rewrite negb_involutive in Hr.
    split; [rewrite Hs; reflexivity|].
    revert Heq. unfold controller.stop_receive, controller.start_receive.
    destruct c as [own key is1w rc init rcv verbose].
    cbn [controller.receiving_ controller.initialized_ controller.set_receiving].
    destruct rcv, init,
      (controller.resume_status radio =? controller.RADIOLIB_ERR_NONE);
      cbn [negb snd controller.set_receiving controller.initialized_
           controller.receiving_ andb];
      intros Heq;
      match type of Heq with
      | Val (_, ?c0, _) = _ => assert (Hc : c' = c0) by congruence
      end; rewrite Hc; split; try (intros _; split); try reflexivity; exact Hr.
  - intros Heq.
    assert (Hs : sent = None) by congruence.
    assert (Hc : c' = c) by congruence. subst.
    split; [reflexivity|]. split; [intros Hne; contradiction|].
    destruct c; reflexivity.
Qed.

(** X25.  [transmit_frame] sends exactly the bytes that [serialize_frame]
    writes into the 32-byte buffer and reports whether the radio accepted
    them; a frame that does not fit is not sent.  A controller that was
    receiving is receiving afterwards only if the radio resumed reception
    (a failed resume is not reported), and nothing else of the controller
    changes. *)
Theorem transmit_frame_outcome (c : controller.IoHomeControl) (f : IoFrame)
    (radio : controller.radio_tx) :
  (FRAME_MAX_SIZE < frame_length f ->
   controller.transmit_frame c f radio = Val (false, c, None))
  /\ (forall r c' sent,
        controller.transmit_frame c f radio = Val (r, c', sent) ->
        serialize_frame f FRAME_MAX_SIZE = Val sent
        /\ (sent <> None ->
            r = (controller.transmit_status radio =? controller.RADIOLIB_ERR_NONE)
            /\ controller.receiving_ c'
               = controller.receiving_ c && controller.initialized_ c
                 && (controller.resume_status radio =? controller.RADIOLIB_ERR_NONE))
        /\ c' = controller.set_receiving (controller.receiving_ c') c).
Proof.
  split.
  - intros Hbig. unfold controller.transmit_frame, serialize_frame.
    destruct (Z.ltb_spec FRAME_MAX_SIZE (frame_length f)); [reflexivity | lia].
  - intros r c' sent. apply transmit_frame_result.
Qed.

(** what a 1W [send_command] does for parameters that fit *)
Lemma send_command_1w (c : controller.IoHomeControl) (dest params : list Z)
    (cmd_id : Z) (radio : controller.radio_tx) (r : bool)
    (c' : controller.IoHomeControl) (sent : option (list Z)) :
  controller.is_1w_mode_ c = true -> controller.initialized_ c = true ->
  Z.of_nat (length params) <= FRAME_MAX_DATA_SIZE ->
  controller.send_command c dest cmd_id (Some params) (Z.of_nat (length params)) radio
  = Val (r, c', sent) ->
  let f0 := snd (set_command
                   (set_source (set_destination (init_frame true) dest)
                               (controller.own_node_id_ c))
                   cmd_id (Some params) (Z.of_nat (length params))) in
  controller.rolling_code_ c' = u16 (controller.rolling_code_ c + 1)
  /\ controller.own_node_id_ c' = controller.own_node_id_ c
  /\ controller.system_key_ c' = controller.system_key_ c
  /\ controller.is_1w_mode_ c' = true
  /\ controller.initialized_ c' = true
  /\ (r = true -> sent <> None)
  /\ (forall bytes, sent = Some bytes ->
        r = (controller.transmit_status radio =? controller.RADIOLIB_ERR_NONE)
        /\ exists f,
             finalize_frame (set_rolling_code f0 (controller.rolling_code_ c))
                            (controller.system_key_ c) None = Val (true, f)
             /\ serialize_frame f FRAME_MAX_SIZE = Val (Some bytes)).
Proof.
  intros H1w Hinit Hp Hsend f0.
  unfold controller.send_command in Hsend.
  rewrite Hinit, H1w in Hsend. cbn [negb] in Hsend.
  destruct (set_command_built true dest (controller.own_node_id_ c) params cmd_id Hp)
    as (Hok & _).
  fold f0 in Hsend.
  destruct (set_command _ _ _ _) as [ok f1] eqn:Hset. cbn [fst snd] in *.
  subst ok f0. cbn [negb] in Hsend.
  set (c1 := controller.mkIoHomeControl _ _ _ _ _ _ _) in Hsend.
  change (controller.system_key_ c1) with (controller.system_key_ c) in Hsend.
  destruct (finalize_frame _ (controller.system_key_ c) None) as [[okf f]|] eqn:Hfin;
    cbn [mbind exec_bind] in Hsend; [|discriminate].
  destruct okf; cbn [negb] in Hsend.
  - destruct (transmit_frame_result c1 f radio r c' sent Hsend) as (Hser & Hsome & Hc').
    rewrite Hc'. cbn [controller.set_receiving controller.rolling_code_
                      controller.own_node_id_ controller.system_key_
                      controller.is_1w_mode_ controller.initialized_].
    subst c1. cbn [controller.rolling_code_ controller.own_node_id_
                   controller.system_key_ controller.is_1w_mode_
                   controller.initialized_].
    repeat split; try assumption; try reflexivity.
    + intros Hr. subst r. intros Hnone. subst sent.
      unfold controller.transmit_frame in Hsend. rewrite Hser in Hsend.
      cbn [mbind exec_bind] in Hsend. discriminate.
    + apply Hsome. congruence.
    + exists f. split; [reflexivity|]. rewrite Hser. congruence.
  - assert (Hr : r = false) by congruence.
    assert (Hc : c' = c1) by congruence.
    assert (Hs : sent = None) by congruence.
    subst r c' sent c1.
    cbn [controller.rolling_code_ controller.own_node_id_
         controller.system_key_ controller.is_1w_mode_ controller.initialized_].
    repeat split; try assumption; try reflexivity; try discriminate.
Qed.


(** X27.  Sending and receiving compose: the bytes that a 1W
    [send_command] transmitted, when they consist of bytes and carry a
    six-byte tag, are accepted by [check_received] of a receiving controller
    that holds the same key as soon as the radio delivers them followed by at
    least one more byte, and the frame handed over names the sender as
    source and carries the destination, the command and the parameters
    sent; delivered as they are, without a further byte, they are
    rejected. *)
Theorem sent_frame_is_received (c rcv : controller.IoHomeControl)
    (dest params : list Z) (cmd_id : Z) (radio : controller.radio_tx) (r : bool)
    (c' : controller.IoHomeControl) (bytes pad : list Z) :
  controller.is_1w_mode_ c = true -> controller.initialized_ c = true ->
  length dest = 3%nat -> length (controller.own_node_id_ c) = 3%nat ->
  Z.of_nat (length params) <= FRAME_MAX_DATA_SIZE ->
  controller.send_command c dest cmd_id (Some params) (Z.of_nat (length params)) radio
  = Val (r, c', Some bytes) ->
  Forall is_byte bytes -> length bytes = (19 + length params)%nat ->
  controller.receiving_ rcv = true ->
  controller.system_key_ rcv = controller.system_key_ c ->
  pad <> [] ->
  (exists f,
     controller.check_received rcv
       (controller.mkRxEvent true (controller.ReadData (bytes ++ pad)))
     = Val (Some f, rcv)
     /\ src_node f = controller.own_node_id_ c
     /\ dest_node f = dest
     /\ command_id f = cmd_id
     /\ data_len f = Z.of_nat (length params)
     /\ take (length params) (data f) = params)
  /\ controller.check_received rcv
       (controller.mkRxEvent true (controller.ReadData bytes))
     = Val (None, rcv).
Proof.
  intros H1w Hinit Hdest Hown Hp Hsend Hbytes Hlen Hrecv Hkey Hpad.
  destruct (send_command_1w c dest params cmd_id radio r c' (Some bytes)
              H1w Hinit Hp Hsend) as (_ & _ & _ & _ & _ & _ & Hsent).
  destruct (Hsent bytes eq_refl) as (_ & f & Hfin & Hser).
  set (f0 := snd (set_command _ _ _ _)) in *.
  destruct (set_command_keeps true dest (controller.own_node_id_ c) cmd_id
              (Some params) (Z.of_nat (length params)))
    as (_ & Hd0 & Hs0 & _ & Hh0 & Hc0 & _ & Hcmd0).
  destruct (set_command_built true dest (controller.own_node_id_ c) params cmd_id Hp)
    as (_ & _ & Hdl0 & _).
  pose proof (set_command_data true dest (controller.own_node_id_ c) params cmd_id Hp)
    as Hdata0.
  fold f0 in Hd0, Hs0, Hh0, Hc0, Hcmd0, Hdl0, Hdata0.
  destruct (finalize_frame_keeps _ f _ _ true Hfin)
    as (_ & _ & Kd & Ks & Kcmd & Kdata & Kdl & _).
  cbn [set_rolling_code set_rolling_code_field dest_node src_node command_id data
       data_len] in Kd, Ks, Kcmd, Kdata, Kdl.
  assert (Hval : validate_frame f (Some (controller.system_key_ c)) None = Val true).
  { eapply (finalize_then_validate _ f _ None bytes); try exact Hfin; try exact Hser;
      try exact Hbytes.
    - cbn [set_rolling_code set_rolling_code_field hmac]. rewrite Hh0. reflexivity.
    - cbn [set_rolling_code set_rolling_code_field crc]. rewrite Hc0. reflexivity. }
  assert (Htag : length (hmac f) = 6%nat).
  { pose proof Hser as Hb. apply serialize_frame_bytes in Hb as [Hb Hle].
    apply (f_equal (@length Z)) in Hb. rewrite Hlen in Hb.
    rewrite !length_app, !length_take in Hb. cbn [length] in Hb.
    rewrite Kd, Ks, Kdl, Kdata, Hd0, Hs0, Hdl0, Hdata0 in Hb.
    destruct (finalize_frame_keeps _ f _ _ true Hfin)
      as (_ & _ & _ & _ & _ & _ & _ & Krc & K1w & _).
    rewrite K1w in Hb.
    cbn [set_rolling_code set_rolling_code_field is_1w_mode] in Hb.
    destruct (set_command_keeps true dest (controller.own_node_id_ c) cmd_id
                (Some params) (Z.of_nat (length params)))
      as (_ & _ & _ & _ & _ & _ & H1 & _).
    fold f0 in H1. rewrite H1 in Hb.
    rewrite Krc in Hb. cbn [set_rolling_code set_rolling_code_field rolling_code] in Hb.
    rewrite !length_app, !length_take, !length_drop, !length_replicate in Hb.
    rewrite Hdest, Hown in Hb. cbn [length] in Hb.
    destruct (finalize_frame_true _ f _ _ Hfin) as (fd & h & temp & _ & _ & _ & _ & Hf).
    rewrite Hf in Hb |- *. cbn [set_crc set_hmac hmac crc] in Hb |- *.
    unfold FRAME_MAX_DATA_SIZE in Hp.
    assert (Hhl : (length (memcpy (hmac (set_rolling_code f0 (controller.rolling_code_ c)))
                             h 6) <= 6)%nat).
    { cbn [set_rolling_code set_rolling_code_field hmac]. rewrite Hh0. unfold memcpy.
      rewrite length_app, length_take, length_drop, length_replicate. lia. }
    cbn [length] in Hb. lia. }
  destruct (finalized_frame_codec true dest (controller.own_node_id_ c) params
              cmd_id (controller.rolling_code_ c) (controller.system_key_ c) None f
              Hdest Hown Hp Hfin Htag) as (bytes' & Hser' & Hrej & Hback).
  assert (bytes' = bytes) by congruence. subst bytes'.
  split.
  - exists f. split.
    + apply check_received_accepts. split; [exact Hrecv|]. split; [reflexivity|].
      exists (bytes ++ pad). split; [reflexivity|].
      split; [apply Hback; exact Hpad|]. rewrite Hkey. exact Hval.
    + rewrite Ks, Kd, Kcmd, Kdl, Kdata, Hs0, Hd0, Hdl0, Hdata0, (Hcmd0 Hp).
      rewrite !take_ge by lia.
      repeat split; try reflexivity; try apply app_nil_r.
      apply take_app_length.
  - unfold controller.check_received. rewrite Hrecv.
    cbn [negb controller.preamble_detected controller.read_data].
    rewrite Hrej. reflexivity.
Qed.

End Send.

Lemma send_command_2w_never_transmits_witness :
  controller.open
    (controller.control_begin controller.IoHomeControl_new [0xAB; 0xCD; 0xEF]
                              scenario.system_key false)
    [0x64; 0x65; 0x75] (controller.mkRadioTx 0 0)
  = Val (false,
         controller.control_begin controller.IoHomeControl_new [0xAB; 0xCD; 0xEF]
                                  scenario.system_key false,
         None).
Proof.
  destruct (send_command_2w_never_transmits
              (controller.control_begin controller.IoHomeControl_new [0xAB; 0xCD; 0xEF]
                                        scenario.system_key false)
              [0x64; 0x65; 0x75] (controller.mkRadioTx 0 0) eq_refl)
    as (_ & _ & Hopen & _).
  exact Hopen.
Defined.


Lemma sent_frame_is_received_witness :
  controller.check_received scenario.receiver
    (controller.mkRxEvent true (controller.ReadData scenario.position_bytes))
  = Val (None, scenario.receiver).
Proof.
  destruct (sent_frame_is_received
              (controller.mkIoHomeControl [0xAB; 0xCD; 0xEF] scenario.system_key true 7
                                          true false false)
              scenario.receiver
              [0x64; 0x65; 0x75] [50; 0x00] CMD_SET_POSITION (controller.mkRadioTx 0 0)
              true
              (controller.mkIoHomeControl [0xAB; 0xCD; 0xEF] scenario.system_key true 8
                                          true false false)
              scenario.position_bytes [0x00]) as (_ & Hrej).
  - reflexivity.
  - reflexivity.
  - reflexivity.
  - reflexivity.
  - cbn. unfold FRAME_MAX_DATA_SIZE. lia.
  - vm_compute. reflexivity.
  - repeat (constructor; [unfold is_byte; lia|]). constructor.
  - reflexivity.
  - reflexivity.
  - reflexivity.
  - discriminate.
  - exact Hrej.
Defined.

(** ** Velux helpers *)

(** X28.  [get_recommended_positions] fills the first three or five
    entries of the caller's five-entry array (five only for the roller
    blind RML and the pleated blind FML) and leaves the others as they
    were; for every model the recommended positions start at 0, end at 100
    and are strictly increasing. *)
Theorem recommended_positions_sorted (b : velux.VeluxBlind) (positions : list Z) :
  length positions = 5%nat ->
  let n := fst (velux.get_recommended_positions b positions) in
  let ps := snd (velux.get_recommended_positions b positions) in
  (n = 3%nat \/ n = 5%nat)
  /\ (n = 5%nat <-> velux.blind_model_ b = velux.RML \/ velux.blind_model_ b = velux.FML)
  /\ length ps = 5%nat
  /\ nth 0 ps 0 = 0
  /\ nth (n - 1) ps 0 = 100
  /\ (forall i j, (i < j < n)%nat -> nth i ps 0 < nth j ps 0)
  /\ (forall i, (n <= i)%nat -> nth i ps 0 = nth i positions 0).
Proof.
  intros Hlen.
  do 6 (destruct positions as [|? positions]; try discriminate Hlen).
  destruct b as [id model]. unfold velux.get_recommended_positions.
  cbn [velux.blind_model_].
  destruct model; cbn [fst snd memcpy take drop app length nth Nat.sub];
    (split; [auto|]);
    (split; [split; [intros Hn; try discriminate Hn; auto
                    | intros [Hm | Hm]; try discriminate Hm; reflexivity]|]);
    (split; [reflexivity|]); (split; [reflexivity|]); (split; [reflexivity|]);
    (split;
     [ intros i j Hij;
       do 5 (destruct i as [|i]; [do 5 (destruct j as [|j]; [cbn; lia|]); lia|]); lia
     | intros i Hi; do 5 (destruct i as [|i]; [lia|]); reflexivity ]).
Qed.

Lemma recommended_positions_sorted_witness :
  nth 0 (snd (velux.get_recommended_positions (velux.mkVeluxBlind [1; 2; 3] velux.FML)
                (replicate 5 0))) 0 = 0
  /\ nth 4 (snd (velux.get_recommended_positions
                   (velux.mkVeluxBlind [1; 2; 3] velux.FML) (replicate 5 0))) 0 = 100.
Proof.
  destruct (recommended_positions_sorted (velux.mkVeluxBlind [1; 2; 3] velux.FML)
              (replicate 5 0) eq_refl) as (_ & _ & _ & Hfirst & Hlast & _).
  split; [exact Hfirst | exact Hlast].
Defined.

Lemma detect_model_cases (device_type : Z) :
  match device_type with
  | 0x03 => velux.GGL_ELECTRIC
  | 0x00 => velux.SML
  | 0x04 => velux.FML
  | 0x05 => velux.MML
  | _ => velux.UNKNOWN
  end
  = if device_type =? 0x03 then velux.GGL_ELECTRIC
    else if device_type =? 0x00 then velux.SML
    else if device_type =? 0x04 then velux.FML
    else if device_type =? 0x05 then velux.MML
    else velux.UNKNOWN.
Proof.
  destruct device_type as [|p|p]; [reflexivity | | reflexivity].
  do 3 (try destruct p as [p|p|]); reflexivity.
Qed.

(** X29.  The model predicates partition the models: no model is both a
    roof window and a blind, the controllers KLR 200, KLI 310 and KLF 200
    and UNKNOWN are neither; a rain sensor is supported exactly by the
    solar and electric roof windows; tilt exactly by the pleated blind FML.
    [detect_model] answers UNKNOWN for every manufacturer other than 0x01
    and never a controller model: device types 0x03, 0x00, 0x04, 0x05 give
    GGL_ELECTRIC, SML, FML, MML, every other type UNKNOWN. *)
Theorem velux_model_classes (model : velux.VeluxModel) (device_type manufacturer : Z) :
  (velux.is_roof_window model && velux.is_blind model = false)
  /\ (velux.is_roof_window model || velux.is_blind model = false
      <-> In model [velux.UNKNOWN; velux.KLR_200; velux.KLI_310; velux.KLF_200])
  /\ (velux.supports_rain_sensor model = true
      <-> In model [velux.GGL_SOLAR; velux.GGU_SOLAR; velux.GGL_ELECTRIC;
                    velux.GGU_ELECTRIC])
  /\ (forall id, velux.supports_tilt (velux.mkVeluxBlind id model) = true
                 <-> model = velux.FML)
  /\ (manufacturer <> 0x01 -> velux.detect_model device_type manufacturer = velux.UNKNOWN)
  /\ velux.detect_model device_type 0x01
     = (if device_type =? 0x03 then velux.GGL_ELECTRIC
        else if device_type =? 0x00 then velux.SML
        else if device_type =? 0x04 then velux.FML
        else if device_type =? 0x05 then velux.MML
        else velux.UNKNOWN)
  /\ (let detected := velux.detect_model device_type manufacturer in
      detected = velux.UNKNOWN
      \/ velux.is_roof_window detected = true \/ velux.is_blind detected = true).
Proof.
  split; [destruct model; reflexivity|].
  split; [destruct model; cbn; split; intros Hm; try discriminate Hm; tauto
                 || (repeat destruct Hm as [Hm|Hm]; try discriminate Hm; tauto)|].
  split; [destruct model; cbn; split; intros Hm; try discriminate Hm; tauto
                 || (repeat destruct Hm as [Hm|Hm]; try discriminate Hm; tauto)|].
  split; [intros id; destruct model; cbn; split; intros Hm; try discriminate Hm;
          reflexivity|].
  assert (Hdet : velux.detect_model device_type 0x01
                 = (if device_type =? 0x03 then velux.GGL_ELECTRIC
                    else if device_type =? 0x00 then velux.SML
                    else if device_type =? 0x04 then velux.FML
                    else if device_type =? 0x05 then velux.MML
                    else velux.UNKNOWN)).
  { unfold velux.detect_model. cbn [Z.eqb Pos.eqb negb]. apply detect_model_cases. }
  split.
  { intros Hman. unfold velux.detect_model.
    destruct (Z.eqb_spec manufacturer 1); [contradiction | reflexivity]. }
  split; [exact Hdet|].
  cbn zeta. unfold velux.detect_model at 1 2 3.
  destruct (Z.eqb_spec manufacturer 1) as [->|_]; cbn [negb]; [|left; reflexivity].
  rewrite detect_model_cases.
  destruct (device_type =? 3); [right; left; reflexivity|].
  destruct (device_type =? 0); [right; right; reflexivity|].
  destruct (device_type =? 4); [right; right; reflexivity|].
  destruct (device_type =? 5); [right; right; reflexivity | left; reflexivity].
Qed.

Lemma ventilation_position_cases (level : Z) :
  velux.get_ventilation_position level
  = if level =? 1 then velux.VENTILATION_1
    else if level =? 2 then velux.VENTILATION_2
    else if level =? 3 then velux.VENTILATION_3
    else velux.CLOSED.
Proof.
  unfold velux.get_ventilation_position.
  destruct level as [|p|p]; [reflexivity | | reflexivity].
  do 2 (try destruct p as [p|p|]); reflexivity.
Qed.

Lemma rain_status_cases (b : Z) :
  match b with
  | 0x01 => velux.DRY
  | 0x02 => velux.RAIN
  | 0xFF => velux.ERROR
  | _ => velux.RAIN_UNKNOWN
  end
  = if b =? 0x01 then velux.DRY
    else if b =? 0x02 then velux.RAIN
    else if b =? 0xFF then velux.ERROR
    else velux.RAIN_UNKNOWN.
Proof.
  destruct b as [|p|p]; [reflexivity | | reflexivity].
  do 8 (try destruct p as [p|p|]); reflexivity.
Qed.

(** X30.  The Velux window frames are 1W set-position style frames to the
    window's node with two parameters.  A ventilation frame asks for 10, 20
    or 30 percent for levels 1, 2, 3 and for 0 percent, closing the window,
    for every other level.  An emergency-close frame has command 0x5A,
    position 0 and the priority bit 0x10 of Ctrl1, which [set_command]
    keeps.  A tilt frame is only built for the pleated blind FML.  A
    rain-sensor answer is read as rain exactly when the command is 0x58, at
    least one parameter is present and the first one is 0x02. *)
Theorem velux_frames (w : velux.VeluxWindow) (b : velux.VeluxBlind) (src : list Z)
    (level tilt_angle : Z) (f : IoFrame) :
  (let r := velux.create_ventilation_frame w src level in
   fst r = true
   /\ command_id (snd r) = CMD_SET_POSITION
   /\ data_len (snd r) = 2
   /\ take 2 (data (snd r))
      = [if level =? 1 then 10 else if level =? 2 then 20
         else if level =? 3 then 30 else 0; 0]
   /\ 0 <= nth 0 (data (snd r)) 0 <= 30
   /\ dest_node (snd r) = take 3 (velux.window_node_id_ w) ++ drop 3 (replicate 3 0))
  /\ (let r := velux.create_emergency_close_frame w src in
      fst r = true
      /\ command_id (snd r) = velux.VELUX_CMD_EMERGENCY_CLOSE
      /\ ctrl_byte_1 (snd r) = 0x10
      /\ data_len (snd r) = 2
      /\ take 2 (data (snd r)) = [0; 0]
      /\ is_1w_mode (snd r) = true)
  /\ (velux.create_tilt_frame b src tilt_angle = None
      <-> velux.blind_model_ b <> velux.FML)
  /\ (velux.parse_rain_sensor_status f = velux.RAIN
      <-> command_id f = velux.VELUX_CMD_GET_RAIN_SENSOR
          /\ 1 <= data_len f /\ nth 0 (data f) 0 = 0x02).
Proof.
  split; [|split; [|split]].
  - cbn zeta. unfold velux.create_ventilation_frame.
    rewrite ventilation_position_cases.
    set (position := if level =? 1 then _ else _).
    assert (Hpos : position = (if level =? 1 then 10 else if level =? 2 then 20
                               else if level =? 3 then 30 else 0)) by reflexivity.
    assert (Hrange : 0 <= position <= 30)
      by (rewrite Hpos; destruct (level =? 1), (level =? 2), (level =? 3); lia).
    clearbody position.
    destruct (set_command_built true (velux.window_node_id_ w) src [position; 0]
                CMD_SET_POSITION ltac:(cbn; unfold FRAME_MAX_DATA_SIZE; lia))
      as (Hok & _ & Hdl & _).
    pose proof (set_command_data true (velux.window_node_id_ w) src [position; 0]
                  CMD_SET_POSITION ltac:(cbn; unfold FRAME_MAX_DATA_SIZE; lia))
      as Hdata.
    destruct (set_command_keeps true (velux.window_node_id_ w) src CMD_SET_POSITION
                (Some [position; 0]) 2) as (_ & Hd & _ & _ & _ & _ & _ & Hcmd).
    change (Z.of_nat (length [position; 0])) with 2 in *.
    rewrite Hdata, Hd, Hdl, Hcmd by (unfold FRAME_MAX_DATA_SIZE; lia).
    cbn [app take nth]. rewrite Hpos in *.
    repeat split; try reflexivity; try assumption; lia.
  - cbn zeta. unfold velux.create_emergency_close_frame, set_command.
    destruct (Z.ltb_spec FRAME_MAX_DATA_SIZE 2) as [Hbig|_];
      [unfold FRAME_MAX_DATA_SIZE in Hbig; lia|].
    repeat split; reflexivity.
  - unfold velux.create_tilt_frame, velux.supports_tilt.
    destruct b as [id model]. cbn [velux.blind_model_].
    destruct model; cbn [velux.model_value Z.eqb Pos.eqb negb];
      try (split; [intros _; discriminate | reflexivity]).
    unfold set_command.
    destruct (Z.ltb_spec FRAME_MAX_DATA_SIZE 2) as [Hbig|_];
      [unfold FRAME_MAX_DATA_SIZE in Hbig; lia|].
    split; [discriminate | intros Hne; contradiction].
  - unfold velux.parse_rain_sensor_status. rewrite rain_status_cases.
    destruct (Z.eqb_spec (command_id f) velux.VELUX_CMD_GET_RAIN_SENSOR) as [Hc|Hc];
      cbn [negb]; [|split; [discriminate | intros [? _]; contradiction]].
    destruct (Z.ltb_spec (data_len f) 1) as [Hl|Hl];
      [split; [discriminate | intros (_ & ? & _); lia]|].
    destruct (Z.eqb_spec (nth 0 (data f) 0) 1) as [H1|H1];
      [split; [discriminate | intros (_ & _ & ?); lia]|].
    destruct (Z.eqb_spec (nth 0 (data f) 0) 2) as [H2|H2];
      [split; [intros _; repeat split; assumption | reflexivity]|].
    destruct (nth 0 (data f) 0 =? 255);
      split; try discriminate; intros (_ & _ & ?); contradiction.
Qed.
